(** * JDA AI Portal: frontend components, embedded and verified

    A shallow embedding of the executable logic of the portal's React
    components and of the backend contract they rely on:

    - [Js]              the JavaScript string and array primitives used;
    - [FileUpload]      the upload widget (file typing, size formatting,
                        validation and batch handling);
    - [UploadContract]  the upload contract as the specification words it;
    - [Auth]            the role gate of the frontend integration guide;
    - [ClientPortal]    the client portal's request and state;
    - [ProposalApi]     the proposal routes of the backend (from the
                        specification);
    - [Regex]           the regular expressions of the proposal editor;
    - [ProposalEditor]  section parsing, saving and status changes;
    - [ProposalService] the proposal service behind the editor (from the
                        specification).

    JavaScript strings are modelled as [string] (sequences of bytes); only
    ASCII letters are folded by [toLowerCase], which is all the comparisons
    of the components depend on (every literal they compare against is
    ASCII).  File sizes and counters are natural numbers ([N], [nat]). *)

From Stdlib Require Import NArith ZArith Lia Ascii DecimalString.
From stdpp Require Import base option list strings gmap.

Local Open Scope string_scope.

(** ** JavaScript string and array primitives *)

Module Js.

(** [c] is one of the 26 upper-case ASCII letters. *)
Definition is_upper (c : ascii) : bool :=
  let n := N_of_ascii c in ((65 <=? n) && (n <=? 90))%N.

Definition lower_char (c : ascii) : ascii :=
  if is_upper c then ascii_of_N (N_of_ascii c + 32) else c.

(** [String.prototype.toLowerCase]. *)
Fixpoint toLowerCase (s : string) : string :=
  match s with
  | EmptyString => EmptyString
  | String c s' => String (lower_char c) (toLowerCase s')
  end.

(** [s.split(sep)] for a one-character separator: never empty. *)
Fixpoint split (sep : ascii) (s : string) : list string :=
  match s with
  | EmptyString => [EmptyString]
  | String c s' =>
      if Ascii.eqb c sep then EmptyString :: split sep s'
      else match split sep s' with
           | [] => [String c EmptyString]
           | seg :: segs => String c seg :: segs
           end
  end.

(** [arr.pop()]: the last element, [undefined] ([None]) when empty. *)
Definition pop (l : list string) : option string := last l.

(** Truthiness of a possibly undefined string. *)
Definition truthy (o : option string) : bool :=
  match o with
  | Some (String _ _) => true
  | _ => false
  end.

(** [o || dflt] on possibly undefined strings. *)
Definition or_else (o : option string) (dflt : string) : string :=
  match o with
  | Some (String c s) => String c s
  | _ => dflt
  end.

(** String concatenation with a possibly undefined operand. *)
Definition show (o : option string) : string := default "undefined" o.

(** [arr.includes(x)] on an array of strings. *)
Definition arr_includes (l : list string) (x : string) : bool :=
  existsb (String.eqb x) l.

(** [s.includes(sub)]: [sub] occurs in [s]. *)
Fixpoint includes (s sub : string) : bool :=
  String.prefix sub s ||
  match s with
  | EmptyString => false
  | String _ s' => includes s' sub
  end.

(** [arr.join(sep)]. *)
Definition join (sep : string) (l : list string) : string :=
  String.concat sep l.

(** Decimal rendering of a natural number. *)
Definition of_N (n : N) : string := NilEmpty.string_of_uint (N.to_uint n).

Definition newline : string := String (ascii_of_N 10) EmptyString.

(** The double quote character, as a string. *)
Definition dquote : string := String (ascii_of_N 34) EmptyString.

(** [stripPrefix p s = Some r] when [s] is [p] followed by [r]. *)
Fixpoint stripPrefix (p s : string) : option string :=
  match p, s with
  | EmptyString, _ => Some s
  | String a p', String b s' =>
      if Ascii.eqb a b then stripPrefix p' s' else None
  | String _ _, EmptyString => None
  end.

End Js.

(** ** The upload widget (FileUpload component) *)

Module FileUpload.

Inductive FileType := image | document | spreadsheet | presentation | transcript.

Inductive UploadStatus := uploading | ready | error.

(** The browser's [File]: name, declared MIME type, byte size, bytes. *)
Record File := mkFile {
  name : string;
  type : string;
  size : N;
  content : string
}.

Record UploadedFile := mkUploadedFile {
  id : string;
  filename : string;
  file_type : FileType;
  file_size : N;
  status : UploadStatus;
  progress : option N;
  error_message : option string
}.

Record FileUploadProps := mkProps {
  proposalId : option string;
  maxFiles : nat;
  maxFileSize : N;
  allowedTypes : list string
}.

(** The defaults of the component's destructured props. *)
Definition defaultProps : FileUploadProps :=
  {| proposalId := None;
     maxFiles := 10;
     maxFileSize := 50 * 1024 * 1024;
     allowedTypes := [".jpg"; ".jpeg"; ".png"; ".gif"; ".bmp"; ".webp";
                      ".pdf"; ".doc"; ".docx"; ".txt"; ".rtf"; ".xls";
                      ".xlsx"; ".csv"; ".ppt"; ".pptx"] |}.

(** [filename.toLowerCase().split('.').pop() || ''] *)
Definition extension (filename : string) : string :=
  Js.or_else (Js.pop (Js.split "." (Js.toLowerCase filename))) EmptyString.

Definition getFileType (filename : string) : FileType :=
  let extension := extension filename in
  if Js.arr_includes ["jpg"; "jpeg"; "png"; "gif"; "bmp"; "webp"] extension
  then image
  else if Js.arr_includes ["xls"; "xlsx"; "csv"] extension
  then spreadsheet
  else if Js.arr_includes ["ppt"; "pptx"] extension
  then presentation
  else if Js.arr_includes ["txt"; "docx"; "pdf"] extension
          && Js.includes (Js.toLowerCase filename) "transcript"
  then transcript
  else document.

(** *** formatFileSize

    [Math.floor(Math.log(bytes) / Math.log(k))] is taken as the exact
    integer logarithm to base 1024, i.e. [log2 bytes / 10]; the division
    [bytes / Math.pow(k, i)] by a power of two is exact, and
    [toFixed(2)] picks the nearest multiple of 1/100, the larger one on a
    tie.  [parseFloat] then drops trailing zeros of the fraction.

    The two logarithms and their quotient are computed in double
    precision.  Below [1024^4], where the units are defined, the quotient
    is a whole number at the powers of 1024 and elsewhere lies more than
    [10^-13] under the next whole number, far more than the rounding
    error, so its floor is the integer logarithm.  Far above that range
    rounding can lift the quotient to the next whole number just under a
    power of 1024 (from [1024^5 - 3] on): for [bytes >= 1024^4] the
    properties below use of [unitIndex] only that it is at least 4, which
    holds of the rounded quotient as well, and say nothing of the number
    printed. *)

Definition k : N := 1024.

Definition sizes : list string := ["Bytes"; "KB"; "MB"; "GB"].

(** The unit index [i]. *)
Definition unitIndex (bytes : N) : N := (N.log2 bytes / 10)%N.

(** [(bytes / k^i).toFixed(2)], as a number of hundredths. *)
Definition toFixed2 (bytes : N) (i : N) : N :=
  ((200 * bytes + k ^ i) / (2 * k ^ i))%N.

(** [parseFloat] of a two-decimal numeral followed by its rendering. *)
Definition showHundredths (h : N) : string :=
  let int := (h / 100)%N in
  let frac := (h mod 100)%N in
  if (frac =? 0)%N then Js.of_N int
  else if (frac mod 10 =? 0)%N then Js.of_N int +:+ "." +:+ Js.of_N (frac / 10)
  else if (frac <? 10)%N then Js.of_N int +:+ ".0" +:+ Js.of_N frac
  else Js.of_N int +:+ "." +:+ Js.of_N frac.

Definition formatFileSize (bytes : N) : string :=
  if (bytes =? 0)%N then "0 Bytes"
  else
    let i := unitIndex bytes in
    showHundredths (toFixed2 bytes i) +:+ " " +:+ Js.show (sizes !! N.to_nat i).

(** *** validateFile

    The three rejections, each with the data its message prints. *)
Inductive ValidationError :=
| FileTooLarge (size limit : N)
| UnsupportedType (ext : string) (allowed : list string)
| TooManyFiles (limit : nat).

Definition message (e : ValidationError) : string :=
  match e with
  | FileTooLarge sz limit =>
      "File size (" +:+ formatFileSize sz +:+ ") exceeds maximum allowed ("
      +:+ formatFileSize limit +:+ ")"
  | UnsupportedType ext allowed =>
      "File type " +:+ ext +:+ " is not allowed. Allowed types: "
      +:+ Js.join ", " allowed
  | TooManyFiles limit =>
      "Maximum " +:+ Js.of_N (N.of_nat limit) +:+ " files allowed"
  end.

(** ['.' + file.name.toLowerCase().split('.').pop()] *)
Definition dottedExtension (filename : string) : string :=
  "." +:+ Js.show (Js.pop (Js.split "." (Js.toLowerCase filename))).

(** The component state read and written by the handlers. *)
Record State := mkState {
  files : list UploadedFile;
  uploading_flag : bool;
  error_state : option string
}.

Section Handlers.
Variable props : FileUploadProps.

(** [validateFile], before the message is rendered; [nfiles] is
    [files.length] as captured by the closure. *)
Definition validate (nfiles : nat) (file : File) : option ValidationError :=
  if (maxFileSize props <? size file)%N
  then Some (FileTooLarge (size file) (maxFileSize props))
  else
    let extension := dottedExtension (name file) in
    if negb (Js.arr_includes (allowedTypes props) extension)
    then Some (UnsupportedType extension (allowedTypes props))
    else if (maxFiles props <=? nfiles)%nat
    then Some (TooManyFiles (maxFiles props))
    else None.

Definition validateFile (nfiles : nat) (file : File) : option string :=
  message <$> validate nfiles file.

(** The record pushed for an accepted file; [fresh] stands for
    [`${Date.now()}-${Math.random()}`]. *)
Definition newRecord (fresh : string) (file : File) : UploadedFile :=
  {| id := fresh;
     filename := name file;
     file_type := getFileType (name file);
     file_size := size file;
     status := uploading;
     progress := Some 0%N;
     error_message := None |}.

(** The [forEach] of [handleFiles]: accepted records and error lines,
    both in batch order.  [fresh n] is the identifier drawn for the
    [n]-th file of the batch. *)
Fixpoint scanFiles (nfiles : nat) (fresh : nat -> string) (n : nat)
         (fileList : list File) : list UploadedFile * list string :=
  match fileList with
  | [] => ([], [])
  | file :: rest =>
      let '(newFiles, errors) := scanFiles nfiles fresh (S n) rest in
      match validateFile nfiles file with
      | Some validationError =>
          (newFiles, (name file +:+ ": " +:+ validationError) :: errors)
      | None => (newRecord (fresh n) file :: newFiles, errors)
      end
  end.

(** What [handleFiles] hands to [uploadFiles]. *)
Record UploadJob := mkJob {
  job_files : list File;
  job_records : list UploadedFile
}.

(** [handleFiles], up to the first [await] of [uploadFiles]: the state
    after the batched updates and the upload that was started. *)
Definition handleFiles (st : State) (fresh : nat -> string)
           (fileList : list File) : State * option UploadJob :=
  let nfiles := length (files st) in
  let '(newFiles, errors) := scanFiles nfiles fresh 0 fileList in
  let error1 :=
    match errors with
    | [] => error_state st
    | _ => Some (Js.join Js.newline errors)
    end in
  match newFiles with
  | [] => ({| files := files st;
              uploading_flag := uploading_flag st;
              error_state := error1 |}, None)
  | _ =>
      ({| files := (files st ++ newFiles)%list;
          uploading_flag := true;
          error_state := None |},
       Some {| job_files :=
                 filter (fun file => validateFile nfiles file = None) fileList;
               job_records := newFiles |})
  end.
End Handlers.

End FileUpload.

(** ** The upload contract of section 4.3, in the spec's words *)

Module UploadContract.
Import FileUpload.

(** Content sniffing by leading signature bytes, for two well-known
    formats. *)
Definition sniff (content : string) : option string :=
  if String.prefix "%PDF-" content then Some "application/pdf"
  else if String.prefix "GIF8" content then Some "image/gif"
  else None.

(** "sniffed content disagrees with declared type" *)
Definition contentMismatch (file : File) : bool :=
  match sniff (content file) with
  | Some sniffed => negb (String.eqb sniffed (type file))
  | None => false
  end.

End UploadContract.

(** ** The role gate (frontend integration guide) *)

Module Auth.

Inductive Role := client | project_manager | admin.

Definition role_name (r : Role) : string :=
  match r with
  | client => "client"
  | project_manager => "project_manager"
  | admin => "admin"
  end.

(** The fixed ordering client < project_manager < admin. *)
Inductive role_lt : Role -> Role -> Prop :=
| client_lt_manager : role_lt client project_manager
| manager_lt_admin : role_lt project_manager admin
| client_lt_admin : role_lt client admin.

Definition role_le (r1 r2 : Role) : Prop := r1 = r2 \/ role_lt r1 r2.

(** The object literal of [hasRequiredRole] (own properties only). *)
Definition roleHierarchy : gmap string N :=
  <["client" := 1%N]> (<["project_manager" := 2%N]> (<["admin" := 3%N]> ∅)).

(** [a >= b] on numbers that may be [undefined]: an undefined operand
    converts to NaN and the comparison is false. *)
Definition js_ge (a b : option N) : bool :=
  match a, b with
  | Some x, Some y => (y <=? x)%N
  | _, _ => false
  end.

Definition hasRequiredRole (userRole requiredRole : string) : bool :=
  js_ge (roleHierarchy !! userRole) (roleHierarchy !! requiredRole).

End Auth.

(** ** The client portal (ClientPortal component) *)

Module ClientPortal.

(** The [Proposal] interface of the component. *)
Record Proposal := mkProposal {
  id : N;
  project_name : string;
  client_name : string;
  phase : string;
  status : string;
  content : string;
  created_at : string;
  updated_at : string;
  share_token : option string
}.

Record ClientPortalProps := mkProps {
  clientId : option N;
  shareToken : option string;
  isPublicAccess : bool
}.

Inductive Method := GET | POST | PUT.

(** The arguments of [fetch]. *)
Record Request := mkRequest {
  method : Method;
  url : string;
  authorization : string;
  content_type : string
}.

(** [URLSearchParams.toString()] for keys and values that need no
    escaping. *)
Definition paramsToString (params : list (string * string)) : string :=
  Js.join "&" (map (fun kv => fst kv +:+ "=" +:+ snd kv) params).

(** [`Bearer ${localStorage.getItem('token')}`]; a missing item prints
    as [null]. *)
Definition bearer (token : option string) : string :=
  "Bearer " +:+ default "null" token.

(** The request of [fetchClientProposals]; [token] is the [token] item
    of [localStorage]. *)
Definition buildRequest (props : ClientPortalProps) (token : option string)
  : Request :=
  let url :=
    if isPublicAccess props && Js.truthy (shareToken props)
    then "/api/v1/proposals/shared/" +:+ Js.show (shareToken props)
    else "/api/v1/proposals/" +:+ "?" +:+
         paramsToString [("status", "approved"); ("status", "sent");
                         ("status", "accepted")] in
  {| method := GET;
     url := url;
     authorization := if isPublicAccess props then EmptyString else bearer token;
     content_type := "application/json" |}.

(** A JSON body: an array of proposals or a single one. *)
Inductive Payload :=
| Arr (l : list Proposal)
| Obj (p : Proposal).

Record Response := mkResponse {
  ok : bool;
  statusText : string;
  json : Payload
}.

Record State := mkState {
  proposals : list Proposal;
  selectedProposal : option Proposal;
  loading : bool;
  error : option string
}.

(** [useState] initial values. *)
Definition initialState : State :=
  {| proposals := []; selectedProposal := None; loading := true; error := None |}.

(** [fetchClientProposals] against a backend [backend : Request -> Response]. *)
Definition fetchClientProposals (backend : Request -> Response)
           (props : ClientPortalProps) (token : option string) (st : State)
  : State :=
  let response := backend (buildRequest props token) in
  if negb (ok response)
  then {| proposals := proposals st;
          selectedProposal := selectedProposal st;
          loading := false;
          error := Some ("Failed to fetch proposals: " +:+ statusText response) |}
  else
    let proposalList :=
      match json response with Arr l => l | Obj p => [p] end in
    {| proposals := proposalList;
       selectedProposal :=
         match proposalList with
         | p :: _ => Some p
         | [] => selectedProposal st
         end;
       loading := false;
       error := None |}.

End ClientPortal.

(** ** The proposal routes of the REST backend

    The backend is not part of the sources; this module follows the
    specification (sections 3, 4.4, 6 and 8). *)

Module ProposalApi.
Import ClientPortal.

(** Modelled from the spec: a user of section 3, with the fields the
    routes consult. *)
Record User := mkUser {
  user_id : N;
  role : Auth.Role
}.

(** Modelled from the spec: a stored proposal, i.e. the JSON document
    served to the portal and the client it is assigned to ("client
    assignment", section 8). *)
Record Row := mkRow {
  doc : Proposal;
  assigned_client : option N
}.

(** Modelled from the spec: the persisted proposals and the sessions that
    bearer tokens stand for. *)
Record Server := mkServer {
  rows : list Row;
  sessions : gmap string User
}.

(** Modelled from the spec: the values of the [status] parameters of a
    query string. *)
Definition statusParams (query : string) : list string :=
  omap (Js.stripPrefix "status=") (Js.split "&" query).

(** Modelled from the spec: a proposal passes the status filter when no
    status is asked for or its status is one of those asked for. *)
Definition statusWanted (wanted : list string) (r : Row) : bool :=
  match wanted with
  | [] => true
  | _ => Js.arr_includes wanted (status (doc r))
  end.

(** Modelled from the spec: the caller named by an [Authorization: Bearer]
    header (section 6), if any. *)
Definition authenticate (srv : Server) (header : string) : option User :=
  tok ← Js.stripPrefix "Bearer " header; sessions srv !! tok.

(** Modelled from the spec: shared with a client by client assignment. *)
Definition sharedWith (u : User) (r : Row) : bool :=
  bool_decide (assigned_client r = Some (user_id u)).

(** Modelled from the spec: the role filter of the listing; a client sees
    "only those explicitly shared with them" (section 8). *)
Definition visibleTo (u : User) (r : Row) : bool :=
  match role u with
  | Auth.client => sharedWith u r
  | _ => true
  end.

(** Modelled from the spec: the proposal carries this share token. *)
Definition hasToken (tok : string) (r : Row) : bool :=
  bool_decide (share_token (doc r) = Some tok).

(** Modelled from the spec: the 401 answer. *)
Definition unauthorized : Response :=
  {| ok := false; statusText := "Unauthorized"; json := Arr [] |}.

(** Modelled from the spec: the 404 answer. *)
Definition notFound : Response :=
  {| ok := false; statusText := "Not Found"; json := Arr [] |}.

(** Modelled from the spec: the proposal routes of the REST backend, which
    is not part of the sources.  [GET /api/v1/proposals/shared/{token}]
    serves, without authentication, the proposal carrying that share
    token (section 3: "share_token grants read-only access bypassing
    authentication").  [GET /api/v1/proposals/?status=..] requires a
    bearer token and lists the proposals visible to the caller: for the
    role [client] "only those explicitly shared with them" by client
    assignment (section 8), restricted to the requested statuses.  Both
    routes only read the store. *)
Definition serve (srv : Server) (req : Request) : Response :=
  match Js.stripPrefix "/api/v1/proposals/shared/" (url req) with
  | Some tok =>
      match filter (fun r => hasToken tok r = true) (rows srv) with
      | r :: _ => {| ok := true; statusText := "OK"; json := Obj (doc r) |}
      | [] => notFound
      end
  | None =>
      match Js.stripPrefix "/api/v1/proposals/?" (url req) with
      | Some query =>
          match authenticate srv (authorization req) with
          | Some u =>
              let wanted := statusParams query in
              let visible :=
                filter (fun r => visibleTo u r = true ∧ statusWanted wanted r = true)
                       (rows srv) in
              {| ok := true; statusText := "OK"; json := Arr (doc <$> visible) |}
          | None => unauthorized
          end
      | None => notFound
      end
  end.

End ProposalApi.


(** ** Regular expressions of the proposal editor

    A backtracking matcher for the fragment the editor's patterns use:
    literals, one-character classes, greedy and lazy repetition of a
    class, capture groups (not nested) and concatenation. *)

Module Regex.

Inductive regex :=
| Lit (l : string)
| Cls (p : ascii -> bool)
| Star (greedy : bool) (p : ascii -> bool)
| Cap (r : regex)
| Cat (r1 r2 : regex).

Section Matcher.
Context {A : Type}.

(** [p*]: the longest run first, giving characters back one by one. *)
Fixpoint starGreedy (p : ascii -> bool) (s : string) (n : nat)
         (k : string -> nat -> option A) : option A :=
  match s with
  | String c s' =>
      if p c then
        match starGreedy p s' (S n) k with
        | Some res => Some res
        | None => k s n
        end
      else k s n
  | EmptyString => k s n
  end.

(** [p*?]: the empty run first, taking characters one by one. *)
Fixpoint starLazy (p : ascii -> bool) (s : string) (n : nat)
         (k : string -> nat -> option A) : option A :=
  match k s n with
  | Some res => Some res
  | None =>
      match s with
      | String c s' => if p c then starLazy p s' (S n) k else None
      | EmptyString => None
      end
  end.

(** [run r input s n caps k]: match [r] at offset [n] of [input], where
    [s] is what remains of [input] there; [k] continues with the rest,
    the new offset and the captures made so far. *)
Fixpoint run (r : regex) (input s : string) (n : nat) (caps : list string)
         (k : string -> nat -> list string -> option A) : option A :=
  match r with
  | Lit l =>
      match Js.stripPrefix l s with
      | Some rest => k rest (n + String.length l) caps
      | None => None
      end
  | Cls p =>
      match s with
      | String c s' => if p c then k s' (S n) caps else None
      | EmptyString => None
      end
  | Star true p => starGreedy p s n (fun s' n' => k s' n' caps)
  | Star false p => starLazy p s n (fun s' n' => k s' n' caps)
  | Cap r1 =>
      run r1 input s n caps
          (fun s' n' caps' => k s' n' (caps' ++ [String.substring n (n' - n) input])%list)
  | Cat r1 r2 =>
      run r1 input s n caps (fun s1 n1 caps1 => run r2 input s1 n1 caps1 k)
  end.
End Matcher.

(** A match of [r] starting at the first character of [s]: its length
    and its captures. *)
Definition matchAt (r : regex) (s : string) : option (nat * list string) :=
  run r s s 0 [] (fun _ n caps => Some (n, caps)).

(** [s.match(r)] without the [g] flag: the captures of the leftmost
    match. *)
Fixpoint search (r : regex) (s : string) : option (list string) :=
  match matchAt r s with
  | Some (_, caps) => Some caps
  | None =>
      match s with
      | String _ s' => search r s'
      | EmptyString => None
      end
  end.

(** The loop [while ((match = r.exec(s)) !== null)] of a [g] pattern:
    the captures of the successive matches.  [skip] counts the characters
    still covered by the previous match ([lastIndex] lies that far
    ahead).  The patterns below never match the empty string. *)
Fixpoint execAll (r : regex) (s : string) (skip : nat) : list (list string) :=
  match s with
  | EmptyString => []
  | String _ s' =>
      match skip with
      | S skip' => execAll r s' skip'
      | O =>
          match matchAt r s with
          | Some (len, caps) => caps :: execAll r s' (len - 1)
          | None => execAll r s' 0
          end
      end
  end.

(** [s.replace(r, '')] for a [g] pattern. *)
Fixpoint removeAll (r : regex) (s : string) (skip : nat) : string :=
  match s with
  | EmptyString => EmptyString
  | String c s' =>
      match skip with
      | S skip' => removeAll r s' skip'
      | O =>
          match matchAt r s with
          | Some (len, _) => removeAll r s' (len - 1)
          | None => String c (removeAll r s' 0)
          end
      end
  end.

Definition isNot (c : ascii) : ascii -> bool := fun x => negb (Ascii.eqb x c).

Definition any : ascii -> bool := fun _ => true.

(** [.] without the [s] flag stops at line feed and carriage return (the
    separators U+2028 and U+2029, which take several bytes, are not told
    apart here). *)
Definition dot : ascii -> bool :=
  fun x => negb (Ascii.eqb x (ascii_of_N 10)) && negb (Ascii.eqb x (ascii_of_N 13)).

Definition between (lo hi : ascii) : ascii -> bool :=
  fun x => ((N_of_ascii lo <=? N_of_ascii x) && (N_of_ascii x <=? N_of_ascii hi))%N.

Fixpoint seq (rs : list regex) : regex :=
  match rs with
  | [] => Lit EmptyString
  | [r] => r
  | r :: rs' => Cat r (seq rs')
  end.

End Regex.

(** ** The proposal editor (ProposalEditor component) *)

Module ProposalEditor.
Import Regex.

(** Modelled from the spec: the [ProposalStatus] type of
    [types/proposal], which is not part of the sources; section 3 gives
    status ∈ {draft, in_review, approved, sent, accepted, rejected}. *)
Inductive ProposalStatus := draft | in_review | approved | sent | accepted | rejected.

Definition status_name (s : ProposalStatus) : string :=
  match s with
  | draft => "draft"
  | in_review => "in_review"
  | approved => "approved"
  | sent => "sent"
  | accepted => "accepted"
  | rejected => "rejected"
  end.

Definition parse_status (s : string) : option ProposalStatus :=
  find (fun st => String.eqb (status_name st) s)
       [draft; in_review; approved; sent; accepted; rejected].

(** Modelled from the spec: the [Proposal] type of [types/proposal]
    (section 3), with the fields the editor reads. *)
Record Proposal := mkProposal {
  id : N;
  project_name : string;
  client_name : string;
  phase : string;
  status : ProposalStatus;
  content : string
}.

Record EditableSection := mkSection {
  section_id : string;
  title : string;
  section_content : string;
  editable : bool;
  aiGenerated : bool
}.

(** The pattern of [parseContentIntoSections], flags [gs]: the literal
    [<section], a greedy run of characters other than [>], the literal
    [class=] and a double quote, group 1 (a greedy run of characters other
    than the double quote), a double quote, a greedy run of characters
    other than [>], the literal [>], group 2 (a lazy run of any
    characters) and the literal [</section>]. *)
Definition sectionRegex : regex :=
  seq [Lit "<section"; Star true (isNot ">");
       Lit ("class=" +:+ Js.dquote); Cap (Star true (isNot (ascii_of_N 34)));
       Lit Js.dquote; Star true (isNot ">"); Lit ">";
       Cap (Star false any); Lit "</section>"].

(** The pattern of [extractSectionTitle]: [<h], a digit from 1 to 6, a
    greedy run of characters other than [>], [>], group 1 (a lazy run of
    characters other than line breaks), [</h], a digit from 1 to 6 and
    [>]. *)
Definition titleRegex : regex :=
  seq [Lit "<h"; Cls (between "1" "6"); Star true (isNot ">"); Lit ">";
       Cap (Star false dot); Lit "</h"; Cls (between "1" "6"); Lit ">"].

(** The tag pattern, flag [g]: [<], a greedy run of characters other
    than [>], and [>]. *)
Definition tagRegex : regex :=
  seq [Lit "<"; Star true (isNot ">"); Lit ">"].

(** The [n]-th capture group of a match, counted from 1. *)
Definition group (caps : list string) (n : nat) : string :=
  default EmptyString (caps !! pred n).

Definition extractSectionTitle (content : string) : string :=
  match search titleRegex content with
  | Some titleMatch => removeAll tagRegex (group titleMatch 1) 0
  | None => "Untitled Section"
  end.

Definition sectionOfMatch (index : nat) (caps : list string) : EditableSection :=
  let className := group caps 1 in
  let sectionContent := group caps 2 in
  {| section_id := "section-" +:+ Js.of_N (N.of_nat index);
     title := extractSectionTitle sectionContent;
     section_content := sectionContent;
     editable := negb (Js.includes className "header")
                 && negb (Js.includes className "footer");
     aiGenerated := Js.includes className "ai-generated" |}.

Definition mainContent (content : string) : EditableSection :=
  {| section_id := "main-content";
     title := "Main Content";
     section_content := content;
     editable := true;
     aiGenerated := false |}.

Definition parseContentIntoSections (content : string) : list EditableSection :=
  let sections := imap sectionOfMatch (execAll sectionRegex content 0) in
  match sections with
  | [] => [mainContent content]
  | _ => sections
  end.

(** The template of [handleSave]: an opening [section] tag whose class
    is [section ] followed by [ai-generated] or nothing, the section
    content, and the closing tag. *)
Definition sectionHtml (section : EditableSection) : string :=
  "<section class=" +:+ Js.dquote +:+ "section "
  +:+ (if aiGenerated section then "ai-generated" else EmptyString)
  +:+ Js.dquote +:+ ">" +:+ section_content section +:+ "</section>".

(** The [updatedContent] of [handleSave]. *)
Definition updatedContent (sections : list EditableSection) : string :=
  Js.join Js.newline (sectionHtml <$> sections).

(** *** The proposal service, as the editor sees it *)

(** A thrown value: an [Error] with its message, or anything else. *)
Inductive Thrown :=
| ErrorWith (message : string)
| NotAnError.

(** The update objects the editor sends: [{content}] and [{status}]. *)
Inductive Patch :=
| SetContent (c : string)
| SetStatus (s : string).

(** [err instanceof Error ? err.message : fallback] *)
Definition errorMessage (err : Thrown) (fallback : string) : string :=
  match err with
  | ErrorWith m => m
  | NotAnError => fallback
  end.

Record State := mkState {
  proposal : option Proposal;
  sections : list EditableSection;
  saving : bool;
  editMode : bool;
  error : option string
}.

Section Editor.
(** The backend state behind [proposalService] and its [updateProposal]. *)
Context {Backend : Type}.
Variable updateProposal : Backend -> N -> Patch -> Thrown + Backend * Proposal.
Variable proposalId : N.

(** The outcome of a handler: the component state, the backend, and the
    arguments with which the [onSave] / [onStatusChange] prop was
    called. *)
Record Outcome (E : Type) := mkOutcome {
  state : State;
  backend : Backend;
  notified : list E
}.
Arguments mkOutcome {E}.

Definition handleSave (st : State) (b : Backend) : Outcome Proposal :=
  match proposal st with
  | None => mkOutcome st b []
  | Some _ =>
      match updateProposal b proposalId (SetContent (updatedContent (sections st))) with
      | inr (b', updatedProposal) =>
          mkOutcome {| proposal := Some updatedProposal;
                       sections := sections st;
                       saving := false;
                       editMode := false;
                       error := None |} b' [updatedProposal]
      | inl err =>
          mkOutcome {| proposal := proposal st;
                       sections := sections st;
                       saving := false;
                       editMode := editMode st;
                       error := Some (errorMessage err "Failed to save proposal") |}
                    b []
      end
  end.

Definition handleStatusChange (st : State) (b : Backend)
           (newStatus : ProposalStatus) : Outcome ProposalStatus :=
  match proposal st with
  | None => mkOutcome st b []
  | Some _ =>
      match updateProposal b proposalId (SetStatus (status_name newStatus)) with
      | inr (b', updatedProposal) =>
          mkOutcome {| proposal := Some updatedProposal;
                       sections := sections st;
                       saving := saving st;
                       editMode := editMode st;
                       error := error st |} b' [newStatus]
      | inl err =>
          mkOutcome {| proposal := proposal st;
                       sections := sections st;
                       saving := saving st;
                       editMode := editMode st;
                       error := Some (errorMessage err "Failed to update status") |}
                    b []
      end
  end.
End Editor.

Arguments state {Backend E} _.
Arguments backend {Backend E} _.
Arguments notified {Backend E} _.

End ProposalEditor.

(** ** The proposal service

    [proposalService] and the backend behind it are not part of the
    sources; this module follows the specification (sections 3, 4.2
    and 8). *)

Module ProposalService.
Import ProposalEditor.

(** Modelled from the spec: the audit log entry of section 3, a record of
    (actor, action, target, timestamp). *)
Record AuditLogEntry := mkAudit {
  actor : N;
  action : string;
  target : N;
  timestamp : N
}.

(** Modelled from the spec: the persisted proposals and the append-only
    audit log. *)
Record Backend := mkBackend {
  store : gmap N Proposal;
  audit : list AuditLogEntry
}.

(** Modelled from the spec: the caller of a request and the time it is
    served, as recorded in the audit log. *)
Record Context := mkContext {
  caller : N;
  now : N
}.

(** Modelled from the spec: the allowed edges of the status flow of
    section 4.2, draft → in_review → approved → sent → accepted/rejected.
    No backward edge is defined. *)
Definition allowed (from to : ProposalStatus) : bool :=
  match from, to with
  | draft, in_review
  | in_review, approved
  | approved, sent
  | sent, accepted
  | sent, rejected => true
  | _, _ => false
  end.

(** Modelled from the spec: content edits are closed once a proposal is
    accepted or rejected (section 3). *)
Definition terminal (s : ProposalStatus) : bool :=
  match s with
  | accepted | rejected => true
  | _ => false
  end.

(** Modelled from the spec: a proposal with its status replaced. *)
Definition withStatus (p : Proposal) (s : ProposalStatus) : Proposal :=
  {| id := id p; project_name := project_name p; client_name := client_name p;
     phase := phase p; status := s; content := content p |}.

(** Modelled from the spec: a proposal with its content replaced. *)
Definition withContent (p : Proposal) (c : string) : Proposal :=
  {| id := id p; project_name := project_name p; client_name := client_name p;
     phase := phase p; status := status p; content := c |}.

(** Modelled from the spec: a mutation stores the new proposals and
    appends one audit log entry; entries are never changed or removed. *)
Definition record (ctx : Context) (what : string) (pid : N) (b : Backend)
           (m : gmap N Proposal) : Backend :=
  {| store := m;
     audit := (audit b ++ [ {| actor := caller ctx; action := what;
                               target := pid; timestamp := now ctx |} ])%list |}.

(** Modelled from the spec: [proposalService.updateProposal], whose
    implementation and backend route are not part of the sources.  A
    status change is applied only along an allowed edge (section 4.2) and
    otherwise "fails with InvalidTransition; this is reported to the
    caller"; a requested status that is not one of the six is outside the
    allowed set as well.  A change that is applied appends an audit log
    entry.  Role authorisation of the caller is outside this model. *)
Definition updateProposal (ctx : Context) (b : Backend) (pid : N) (patch : Patch)
  : Thrown + Backend * Proposal :=
  match store b !! pid with
  | None => inl (ErrorWith "ValidationError")
  | Some p =>
      match patch with
      | SetStatus s =>
          match parse_status s with
          | Some new =>
              if allowed (status p) new
              then let p' := withStatus p new in
                   inr (record ctx "status_change" pid b (<[pid := p']> (store b)), p')
              else inl (ErrorWith "InvalidTransition")
          | None => inl (ErrorWith "InvalidTransition")
          end
      | SetContent c =>
          if terminal (status p)
          then inl (ErrorWith "ValidationError")
          else let p' := withContent p c in
               inr (record ctx "content_update" pid b (<[pid := p']> (store b)), p')
      end
  end.

(** Modelled from the spec: an id no stored proposal has. *)
Definition freshId (m : gmap N Proposal) : N :=
  N.succ (map_fold (fun k _ acc => N.max k acc) 0%N m).

(** Modelled from the spec: creating a proposal stores it, as given, under
    a fresh id (section 8, round trip). *)
Definition createProposal (ctx : Context) (b : Backend) (p : Proposal)
  : Backend * Proposal :=
  let pid := freshId (store b) in
  let p' := {| id := pid; project_name := project_name p;
               client_name := client_name p; phase := phase p;
               status := status p; content := content p |} in
  (record ctx "create" pid b (<[pid := p']> (store b)), p').

(** Modelled from the spec: fetching by id reads the stored proposal
    (section 8, round trip). *)
Definition getProposal (b : Backend) (pid : N) : Thrown + Proposal :=
  match store b !! pid with
  | Some p => inr p
  | None => inl (ErrorWith "ValidationError")
  end.

End ProposalService.

From Stdlib Require Import DecimalN.

(** ** Characters of a string *)

Module Chars.

(** [noChar c s]: the character [c] does not occur in [s]. *)
Fixpoint noChar (c : ascii) (s : string) : Prop :=
  match s with
  | EmptyString => True
  | String x s' => x <> c /\ noChar c s'
  end.

End Chars.

(** ** The upload widget: the remaining handlers *)

Module UploadActions.
Import FileUpload.

Definition fileTypeName (t : FileType) : string :=
  match t with
  | image => "image"
  | document => "document"
  | spreadsheet => "spreadsheet"
  | presentation => "presentation"
  | transcript => "transcript"
  end.

#[global] Instance UploadStatus_eq_dec : EqDecision UploadStatus.
Proof. solve_decision. Defined.

(** The [uploadSettings] state. *)
Record UploadSettings := mkSettings {
  is_public : bool;
  description : string;
  auto_attach : bool
}.

Definition initialSettings : UploadSettings :=
  {| is_public := false; description := EmptyString; auto_attach := true |}.

(** The whole state of the component: the part [handleFiles] works on,
    and the rest. *)
Record Widget := mkWidget {
  core : State;
  dragActive : bool;
  success : option string;
  uploadSettings : UploadSettings
}.

Definition withCore (w : Widget) (st : State) : Widget :=
  {| core := st; dragActive := dragActive w; success := success w;
     uploadSettings := uploadSettings w |}.

Definition withFiles (st : State) (l : list UploadedFile) : State :=
  {| files := l; uploading_flag := uploading_flag st; error_state := error_state st |}.

Definition removeFile (fileId : string) (w : Widget) : Widget :=
  withCore w (withFiles (core w) (filter (fun f => id f <> fileId) (files (core w)))).

Section Handlers.
Variable props : FileUploadProps.

(** How an accepted file and the record made for it relate. *)
Definition recordOf (file : File) (r : UploadedFile) : Prop :=
  filename r = name file /\ file_size r = size file
  /\ file_type r = getFileType (name file) /\ status r = uploading.

(** A value appended to the [FormData]. *)
Inductive FormValue :=
| Blob (file : File)
| Text (s : string).

(** The [FormData] of one upload. *)
Definition uploadForm (settings : UploadSettings) (file : File)
  : list (string * FormValue) :=
  [("file", Blob file);
   ("file_type", Text (fileTypeName (getFileType (name file))));
   ("is_public", Text (if is_public settings then "true" else "false"))]
  ++ (if Js.truthy (proposalId props) && auto_attach settings
      then [("proposal_id", Text (Js.show (proposalId props)))] else [])
  ++ (match description settings with
      | EmptyString => []
      | d => [("description", Text d)]
      end).

End Handlers.

(** The body of an upload response, [result]. *)
Record UploadResult := mkResult {
  result_success : bool;
  file_id : string;
  result_message : option string
}.

(** How one upload request ends: [fetch] or [response.json()] rejects
    with a thrown value, or a response arrives. *)
Inductive Exchange :=
| Throws (thrown : ProposalEditor.Thrown)
| Responds (ok : bool) (statusText : string) (result : UploadResult).

(** The [try] block of one upload: the new file id, or what was thrown. *)
Definition attempt (x : Exchange) : ProposalEditor.Thrown + string :=
  match x with
  | Throws thrown => inl thrown
  | Responds false statusText _ =>
      inl (ProposalEditor.ErrorWith ("Upload failed: " +:+ statusText))
  | Responds true _ result =>
      if result_success result then inr (file_id result)
      else inl (ProposalEditor.ErrorWith (Js.or_else (result_message result) "Upload failed"))
  end.

Definition markReady (fid : string) (f : UploadedFile) : UploadedFile :=
  {| id := fid; filename := filename f; file_type := file_type f;
     file_size := file_size f; status := ready; progress := Some 100%N;
     error_message := error_message f |}.

Definition markError (errorMessage : string) (f : UploadedFile) : UploadedFile :=
  {| id := id f; filename := filename f; file_type := file_type f;
     file_size := file_size f; status := error; progress := progress f;
     error_message := Some errorMessage |}.

(** The [setFiles] updater run when the upload started for [uploadedFile]
    ends with [x]. *)
Definition settle (uploadedFile : UploadedFile) (x : Exchange)
           (prev : list UploadedFile) : list UploadedFile :=
  match attempt x with
  | inr fid =>
      (fun f => if decide (id f = id uploadedFile) then markReady fid f else f) <$> prev
  | inl thrown =>
      let errorMessage := ProposalEditor.errorMessage thrown "Upload failed" in
      (fun f => if decide (id f = id uploadedFile) then markError errorMessage f else f)
        <$> prev
  end.

(** [uploadFiles], once every upload has ended.  [closure] is the [files]
    value the function closed over when it was created; [settled] lists
    the uploads in the order in which they ended, each with the record it
    was started for.  The second component is the argument with which
    the [onUploadComplete] prop, if given, is called. *)
Definition uploadFiles (closure : list UploadedFile)
           (settled : list (UploadedFile * Exchange)) (w : Widget)
  : Widget * option (list UploadedFile) :=
  let completedFiles := filter (fun f => status f = ready) closure in
  ({| core := {| files := fold_left (fun prev rx => settle rx.1 rx.2 prev) settled
                                    (files (core w));
                 uploading_flag := false;
                 error_state := None |};
      dragActive := dragActive w;
      success := Some ("Successfully uploaded "
                       +:+ Js.of_N (N.of_nat (length completedFiles)) +:+ " file(s)");
      uploadSettings := uploadSettings w |},
   match completedFiles with
   | [] => None
   | _ => Some completedFiles
   end).

End UploadActions.

(** ** The proposal editor: section editing and loading *)

Module SectionEditing.
Import ProposalEditor.

(** The editor state of [ProposalEditor.State] with the selection and the
    loading flag. *)
Record Editor := mkEditor {
  base : State;
  selectedSection : option string;
  loading : bool
}.

Definition withSections (st : State) (l : list EditableSection) : State :=
  {| proposal := proposal st; sections := l; saving := saving st;
     editMode := editMode st; error := error st |}.

Definition withContent (section : EditableSection) (newContent : string)
  : EditableSection :=
  {| section_id := section_id section; title := title section;
     section_content := newContent; editable := editable section;
     aiGenerated := aiGenerated section |}.

Definition updateSectionContent (sectionId newContent : string) (e : Editor) : Editor :=
  {| base := withSections (base e)
               ((fun section =>
                   if decide (section_id section = sectionId)
                   then withContent section newContent else section)
                  <$> sections (base e));
     selectedSection := selectedSection e;
     loading := loading e |}.

(** The section made by [addSection]; [now] is [Date.now()]. *)
Definition newSection (now : N) : EditableSection :=
  {| section_id := "section-" +:+ Js.of_N now;
     title := "New Section";
     section_content := "<h3>New Section</h3><p>Add your content here...</p>";
     editable := true;
     aiGenerated := false |}.

Definition addSection (now : N) (e : Editor) : Editor :=
  {| base := withSections (base e) (sections (base e) ++ [newSection now]);
     selectedSection := Some (section_id (newSection now));
     loading := loading e |}.

Definition removeSection (sectionId : string) (e : Editor) : Editor :=
  {| base := withSections (base e)
               (filter (fun section => section_id section <> sectionId)
                       (sections (base e)));
     selectedSection :=
       if decide (selectedSection e = Some sectionId) then None
       else selectedSection e;
     loading := loading e |}.

(** [loadProposal]; [fetched] is what [proposalService.getProposal]
    resolves to or rejects with. *)
Definition loadProposal (fetched : Thrown + Proposal) (e : Editor) : Editor :=
  match fetched with
  | inr data =>
      {| base := {| proposal := Some data;
                    sections := match content data with
                                | EmptyString => sections (base e)
                                | c => parseContentIntoSections c
                                end;
                    saving := saving (base e);
                    editMode := editMode (base e);
                    error := None |};
         selectedSection := selectedSection e;
         loading := false |}
  | inl err =>
      {| base := {| proposal := proposal (base e);
                    sections := sections (base e);
                    saving := saving (base e);
                    editMode := editMode (base e);
                    error := Some (errorMessage err "Failed to load proposal") |};
         selectedSection := selectedSection e;
         loading := false |}
  end.

End SectionEditing.

(** ** Query strings *)

Module Url.

(** The characters [URLSearchParams] writes as they are: ASCII letters
    and digits and the four characters [*], [-], [.] and [_]. *)
Definition unreserved (c : ascii) : bool :=
  let n := N_of_ascii c in
  (((48 <=? n) && (n <=? 57)) || ((65 <=? n) && (n <=? 90))
   || ((97 <=? n) && (n <=? 122))
   || (n =? 42) || (n =? 45) || (n =? 46) || (n =? 95))%N.

Definition hexDigit (n : N) : ascii :=
  if (n <? 10)%N then ascii_of_N (48 + n) else ascii_of_N (55 + n).

(** One byte of a name or value in [application/x-www-form-urlencoded]
    form: a space becomes [+], an unreserved character stays, any other
    byte is written as [%] and two upper-case hexadecimal digits. *)
Definition encodeByte (c : ascii) : string :=
  if Ascii.eqb c " " then "+"
  else if unreserved c then String c EmptyString
  else String "%" (String (hexDigit (N_of_ascii c / 16))
                          (String (hexDigit (N_of_ascii c mod 16)) EmptyString)).

Fixpoint encode (s : string) : string :=
  match s with
  | EmptyString => EmptyString
  | String c s' => encodeByte c +:+ encode s'
  end.

(** [URLSearchParams.prototype.toString]. *)
Definition paramsToString (params : list (string * string)) : string :=
  Js.join "&" ((fun kv => encode kv.1 +:+ "=" +:+ encode kv.2) <$> params).

(** [params.append(key, value)] guarded by [if (value)]. *)
Definition appendIf (key value : string) (params : list (string * string))
  : list (string * string) :=
  match value with
  | EmptyString => params
  | _ => params ++ [(key, value)]
  end.

End Url.

(** ** The team dashboard (TeamDashboard component) *)

Module TeamDashboard.

(** The filter state read by [loadProposals]. *)
Record Filters := mkFilters {
  statusFilter : string;
  assignedToFilter : string;
  searchTerm : string
}.

(** The query of [loadProposals]. *)
Definition loadParams (f : Filters) : list (string * string) :=
  Url.appendIf "search" (searchTerm f)
    (Url.appendIf "assigned_to_id" (assignedToFilter f)
       (Url.appendIf "status_filter" (statusFilter f) [])).

(** A [fetch] with the default method and an [Authorization] header
    only. *)
Record ListRequest := mkListRequest {
  url : string;
  authorization : string
}.

(** The request of [loadProposals]; [token] is the [token] item of
    [localStorage]. *)
Definition loadProposals (f : Filters) (token : option string) : ListRequest :=
  {| url := "/api/v1/team-dashboard/proposals?" +:+ Url.paramsToString (loadParams f);
     authorization := ClientPortal.bearer token |}.

End TeamDashboard.

(** ** The proposal database (ProposalDatabaseInterface component) *)

Module ProposalDatabase.

Section Summaries.
(** JavaScript numbers, of which the functions below only pass values
    along. *)
Variable num : Type.

Record ProposalSummary := mkSummary {
  id : string;
  title : string;
  status : string;
  phase : string;
  created_at : string;
  updated_at : string;
  creator_name : string;
  client_name : option string;
  assigned_to : option string;
  tags : option (list string);
  priority : option string;
  estimated_value : option num;
  completion_percentage : option num
}.

Inductive SortOrder := asc | desc.

(** The filters; [date_from] and [date_to] hold the ISO string of the date
    picked, and the fields [tags] and [priority] are written [filter_tags]
    and [filter_priority] here. *)
Record SearchFilters := mkFilterSet {
  text_search : string;
  status_filter : list string;
  phase_filter : list string;
  client_filter : list string;
  date_from : option string;
  date_to : option string;
  assigned_user : list string;
  filter_tags : list string;
  filter_priority : list string;
  sort_by : string;
  sort_order : SortOrder
}.

Definition initialFilters : SearchFilters :=
  {| text_search := EmptyString; status_filter := []; phase_filter := [];
     client_filter := []; date_from := None; date_to := None;
     assigned_user := []; filter_tags := []; filter_priority := [];
     sort_by := "updated_at"; sort_order := desc |}.

(** One step of [applyFilters]: [if (chosen.length > 0) filtered =
    filtered.filter(keep)]. *)
Definition narrow (chosen : list string) (keep : ProposalSummary -> bool)
           (filtered : list ProposalSummary) : list ProposalSummary :=
  match chosen with
  | [] => filtered
  | _ => filter (fun p => keep p = true) filtered
  end.

(** [p.tags?.some(tag => searchFilters.tags.includes(tag))] *)
Definition hasTag (f : SearchFilters) (p : ProposalSummary) : bool :=
  match tags p with
  | Some ts => existsb (fun tag => Js.arr_includes (filter_tags f) tag) ts
  | None => false
  end.

(** The list [applyFilters] stores in [filteredProposals]. *)
Definition applyFilters (f : SearchFilters) (proposals : list ProposalSummary)
  : list ProposalSummary :=
  let filtered := proposals in
  let filtered :=
    narrow (client_filter f)
           (fun p => Js.arr_includes (client_filter f)
                                     (Js.or_else (client_name p) EmptyString))
           filtered in
  let filtered :=
    narrow (assigned_user f)
           (fun p => Js.arr_includes (assigned_user f)
                                     (Js.or_else (assigned_to p) EmptyString))
           filtered in
  let filtered := narrow (filter_tags f) (hasTag f) filtered in
  let filtered :=
    narrow (filter_priority f)
           (fun p => Js.arr_includes (filter_priority f)
                                     (Js.or_else (priority p) EmptyString))
           filtered in
  filtered.

(** The [setSelectedProposals] updater of [handleProposalSelection]. *)
Definition handleProposalSelection (proposalId : string) (selected : bool)
           (prev : list string) : list string :=
  if selected then prev ++ [proposalId]
  else filter (fun x => x <> proposalId) prev.

(** The selection set by [handleSelectAll]. *)
Definition handleSelectAll (selected : bool) (filteredProposals : list ProposalSummary)
  : list string :=
  if selected then id <$> filteredProposals else [].

(** The [setFavoriteProposals] updater of [toggleFavorite]. *)
Definition toggleFavorite (proposalId : string) (prev : list string) : list string :=
  if Js.arr_includes prev proposalId
  then filter (fun x => x <> proposalId) prev
  else prev ++ [proposalId].

(** The [selectedData] of [handleCompareProposals]. *)
Definition selectedData (selectedProposals : list string)
           (filteredProposals : list ProposalSummary) : list ProposalSummary :=
  filter (fun p => Js.arr_includes selectedProposals (id p) = true) filteredProposals.

(** The methods every object created by [{}] inherits from
    [Object.prototype]; it inherits the accessor [__proto__] as well. *)
Definition inheritedMethods : list string :=
  ["constructor"; "hasOwnProperty"; "isPrototypeOf"; "propertyIsEnumerable";
   "toLocaleString"; "toString"; "valueOf"; "__defineGetter__";
   "__defineSetter__"; "__lookupGetter__"; "__lookupSetter__"].

(** [key] names an inherited member. *)
Definition inherited (key : string) : bool :=
  String.eqb key "__proto__" || Js.arr_includes inheritedMethods key.

(** A value held by the distribution: a number or, for a status named
    like an inherited member, a string, made of the text of that member
    followed by so many digits 1. *)
Inductive Tally :=
| Count (n : N)
| Garbled (member : string) (ones : N).

(** [acc[key] = (acc[key] || 0) + 1] on an object that started as [{}].
    A property the object does not own is read from the prototype: an
    inherited member is truthy, and adding 1 to it appends the digit to
    its text.  The assignment creates or updates an own property, except
    for [__proto__], where assigning a string is ignored. *)
Definition tally (acc : gmap string Tally) (key : string) : gmap string Tally :=
  let sum :=
    match acc !! key with
    | Some (Count n) => Count (n + 1)
    | Some (Garbled member ones) => Garbled member (ones + 1)
    | None => if inherited key then Garbled key 1 else Count 1
    end in
  if String.eqb key "__proto__" then acc else <[key := sum]> acc.

(** The [status_distribution] of [handleCompareProposals]: the reduction
    that counts the proposals per status in an object; the map holds the
    properties the object owns. *)
Definition statusDistribution (data : list ProposalSummary) : gmap string Tally :=
  fold_left (fun acc p => tally acc (status p)) data ∅.

(** The number of proposals an entry of the distribution stands for. *)
Definition recorded (entry : Tally) : N :=
  match entry with
  | Count n => n
  | Garbled _ ones => ones
  end.

(** The [proposal_ids] of [handleBulkExport]. *)
Definition exportIds (selectedProposals : list string)
           (filteredProposals : list ProposalSummary) : list string :=
  match selectedProposals with
  | [] => id <$> filteredProposals
  | _ => selectedProposals
  end.

End Summaries.

Arguments id {num} _.
Arguments title {num} _.
Arguments status {num} _.
Arguments client_name {num} _.
Arguments assigned_to {num} _.
Arguments tags {num} _.
Arguments priority {num} _.
Arguments narrow {num} _ _ _.
Arguments hasTag {num} _ _.
Arguments applyFilters {num} _ _.
Arguments handleSelectAll {num} _ _.
Arguments selectedData {num} _ _.
Arguments statusDistribution {num} _.
Arguments exportIds {num} _ _.

(** The search state: the filters and the page shown. *)
Record Paged := mkPaged {
  searchFilters : SearchFilters;
  currentPage : Z
}.

Definition itemsPerPage : Z := 25.

Definition withText (f : SearchFilters) (searchTerm : string) : SearchFilters :=
  {| text_search := searchTerm; status_filter := status_filter f;
     phase_filter := phase_filter f; client_filter := client_filter f;
     date_from := date_from f; date_to := date_to f;
     assigned_user := assigned_user f; filter_tags := filter_tags f;
     filter_priority := filter_priority f; sort_by := sort_by f;
     sort_order := sort_order f |}.

Definition handleSearch (searchTerm : string) (s : Paged) : Paged :=
  {| searchFilters := withText (searchFilters s) searchTerm; currentPage := 1 |}.

Definition clearFilters (s : Paged) : Paged :=
  {| searchFilters := initialFilters; currentPage := 1 |}.

(** Decimal rendering of an integer. *)
Definition of_Z (z : Z) : string := NilEmpty.string_of_int (Z.to_int z).

Definition sortOrderName (o : SortOrder) : string :=
  match o with asc => "asc" | desc => "desc" end.

(** [date.toISOString().split('T')[0]] *)
Definition isoDay (iso : string) : string :=
  default "undefined" (head (Js.split "T" iso)).

Definition appendDate (key : string) (date : option string)
           (params : list (string * string)) : list (string * string) :=
  match date with
  | Some iso => params ++ [(key, isoDay iso)]
  | None => params
  end.

Definition appendList (key : string) (chosen : list string)
           (params : list (string * string)) : list (string * string) :=
  match chosen with
  | [] => params
  | _ => params ++ [(key, Js.join "," chosen)]
  end.

(** The query of [loadProposals]. *)
Definition loadParams (s : Paged) : list (string * string) :=
  let f := searchFilters s in
  appendDate "date_to" (date_to f)
    (appendDate "date_from" (date_from f)
       (appendList "phase" (phase_filter f)
          (appendList "status" (status_filter f)
             (Url.appendIf "search" (text_search f) []))))
  ++ [("sort_by", sort_by f);
      ("sort_order", sortOrderName (sort_order f));
      ("limit", of_Z itemsPerPage);
      ("offset", of_Z ((currentPage s - 1) * itemsPerPage))].

(** The request of [loadProposals]. *)
Definition loadProposals (s : Paged) (token : option string)
  : TeamDashboard.ListRequest :=
  {| TeamDashboard.url := "/api/v1/team-dashboard/proposals?"
                          +:+ Url.paramsToString (loadParams s);
     TeamDashboard.authorization := ClientPortal.bearer token |}.

End ProposalDatabase.

(** ** The authentication helpers of the frontend integration guide *)

Module AuthGuide.

(** [localStorage], a map from keys to strings, is written
    [gmap string string]. *)

Definition getAccessToken (ls : gmap string string) : option string :=
  ls !! "access_token".

Definition clearAuthTokens (ls : gmap string string) : gmap string string :=
  delete "user" (delete "refresh_token" (delete "access_token" ls)).

(** A JSON body: the text of an object whose fields are strings. *)
Inductive Json := JObject (fields : list (string * string)).

(** The options of a [fetch]. *)
Record RequestInit := mkInit {
  method : option string;
  headers : gmap string string;
  body : option Json
}.

(** The arguments of a [fetch]. *)
Record Fetch := mkFetch {
  url : string;
  init : RequestInit
}.

(** The [headers] a caller may pass: a plain object, a [Headers]
    instance, or an array of pairs of a name and a value. *)
Inductive HeadersInit :=
| PlainObject (fields : gmap string string)
| HeadersInstance (entries : list (string * string))
| Pairs (entries : list (string * string)).

(** The [options] of a call of [authenticatedFetch]; they default to
    [{}]. *)
Record Options := mkOptions {
  given_method : option string;
  given_headers : option HeadersInit;
  given_body : option Json
}.

(** [...options.headers]: the enumerable properties the value owns.  A
    plain object owns its fields and a [Headers] instance owns none.  An
    array owns its positions, each holding a pair, which [fetch] reads as
    the name and the value joined by a comma. *)
Definition spread (given : option HeadersInit) : gmap string string :=
  match given with
  | Some (PlainObject fields) => fields
  | Some (Pairs entries) =>
      list_to_map
        (imap (fun i entry =>
                 (Js.of_N (N.of_nat i), fst entry +:+ "," +:+ snd entry))
              entries)
  | Some (HeadersInstance _) | None => ∅
  end.

(** [authenticatedFetch(url, options)]: the [fetch] it makes. *)
Definition authenticatedFetch (url : string) (options : Options)
           (ls : gmap string string) : Fetch :=
  let token := getAccessToken ls in
  let headers :=
    spread (given_headers options) ∪ {[ "Content-Type" := "application/json" ]} in
  let headers :=
    if Js.truthy token
    then <["Authorization" := "Bearer " +:+ Js.show token]> headers
    else headers in
  {| url := url;
     init := {| method := given_method options; headers := headers;
                body := given_body options |} |}.

(** The body of a refresh response; a field may be missing. *)
Record RefreshTokens := mkRefresh {
  new_access_token : option string;
  new_refresh_token : option string
}.

(** How a request ends: it rejects, or a response arrives whose [json()]
    gives a payload or rejects ([None]). *)
Inductive Exchange (T : Type) :=
| Rejects
| Resolves (ok : bool) (payload : option T).
Arguments Rejects {T}.
Arguments Resolves {T} _ _.

Record RefreshOutcome := mkRefreshOutcome {
  storage : gmap string string;
  location : option string;
  result : option string;
  sent : option Fetch
}.

Definition refreshRequest (refreshToken : string) : Fetch :=
  {| url := "/auth/refresh";
     init := {| method := Some "POST";
                headers := {[ "Content-Type" := "application/json" ]};
                body := Some (JObject [("refresh_token", refreshToken)]) |} |}.

(** [refreshAccessToken]; [location] is the new [window.location.href]
    when it is assigned. *)
Definition refreshAccessToken (network : Fetch -> Exchange RefreshTokens)
           (ls : gmap string string) : RefreshOutcome :=
  match ls !! "refresh_token" with
  | Some (String c s) =>
      let request := refreshRequest (String c s) in
      match network request with
      | Resolves true (Some tokens) =>
          {| storage := <["refresh_token" := Js.show (new_refresh_token tokens)]>
                          (<["access_token" := Js.show (new_access_token tokens)]> ls);
             location := None;
             result := new_access_token tokens;
             sent := Some request |}
      | _ =>
          {| storage := clearAuthTokens ls;
             location := Some "/login";
             result := None;
             sent := Some request |}
      end
  | _ => {| storage := ls; location := None; result := None; sent := None |}
  end.

(** What [ProtectedRoute] renders. *)
Inductive Rendered := ToLogin | ToUnauthorized | Children | TheComponent.

(** [ProtectedRoute]; [userRole] is the role of [getCurrentUser()], if
    there is a user, and [children] tells whether children were given. *)
Definition ProtectedRoute (userRole : option string) (requiredRole : option string)
           (children : bool) : Rendered :=
  match userRole with
  | None => ToLogin
  | Some role =>
      if Js.truthy requiredRole
         && negb (Auth.hasRequiredRole role (Js.show requiredRole))
      then ToUnauthorized
      else if children then Children else TheComponent
  end.

Section Session.
(** The user profile and its JSON text. *)
Variable UserProfile : Type.
Variable stringify : UserProfile -> string.
Variable parse : string -> option UserProfile.

Record AuthResponse := mkAuth {
  access_token : string;
  refresh_token : string;
  user : UserProfile
}.

Definition storeAuthTokens (tokens : AuthResponse) (ls : gmap string string)
  : gmap string string :=
  <["user" := stringify (user tokens)]>
    (<["refresh_token" := refresh_token tokens]>
       (<["access_token" := access_token tokens]> ls)).

(** The state of [AuthProvider] together with [localStorage]. *)
Record Session := mkSession {
  stored : gmap string string;
  current : option UserProfile;
  loading : bool
}.

(** The mount effect of [AuthProvider]; [None] when [JSON.parse] throws. *)
Definition restore (ls : gmap string string) : option Session :=
  match getAccessToken ls, ls !! "user" with
  | Some (String _ _), Some (String c s) =>
      u ← parse (String c s);
      Some {| stored := ls; current := Some u; loading := false |}
  | _, _ => Some {| stored := ls; current := None; loading := false |}
  end.

(** [login]; [answer] is what [loginUser] resolves to, or the error it
    throws ([inl]). *)
Definition login (answer : ProposalEditor.Thrown + AuthResponse) (s : Session)
  : ProposalEditor.Thrown + Session :=
  match answer with
  | inr response =>
      inr {| stored := storeAuthTokens response (stored s);
             current := Some (user response);
             loading := loading s |}
  | inl thrown => inl thrown
  end.

Definition logoutRequest (refreshToken : string) (ls : gmap string string) : Fetch :=
  authenticatedFetch "/auth/logout"
    {| given_method := Some "POST"; given_headers := None;
       given_body := Some (JObject [("refresh_token", refreshToken)]) |} ls.

(** [logout]; [resolves request] tells whether the logout request
    resolves (with any status) rather than rejects.  The second component
    tells whether the handler ended with the rejection. *)
Definition logout (resolves : Fetch -> bool) (s : Session) : Session * bool :=
  let cleared :=
    {| stored := clearAuthTokens (stored s); current := None; loading := loading s |} in
  match stored s !! "refresh_token" with
  | Some (String c r) =>
      if resolves (logoutRequest (String c r) (stored s)) then (cleared, false)
      else (s, true)
  | _ => (cleared, false)
  end.

End Session.

Arguments access_token {UserProfile} _.
Arguments refresh_token {UserProfile} _.
Arguments user {UserProfile} _.
Arguments storeAuthTokens {UserProfile} _ _ _.
Arguments stored {UserProfile} _.
Arguments current {UserProfile} _.
Arguments loading {UserProfile} _.
Arguments restore {UserProfile} _ _.
Arguments login {UserProfile} _ _ _.
Arguments logout {UserProfile} _ _.

End AuthGuide.

(** ** The client portal: colours of the status and phase badges *)

Module PortalBadges.

(** [getStatusColor] of the client portal and of the client dashboard. *)
Definition getStatusColor (status : string) : string :=
  let lowered := Js.toLowerCase status in
  if String.eqb lowered "approved" then "bg-green-100 text-green-800"
  else if String.eqb lowered "sent" then "bg-blue-100 text-blue-800"
  else if String.eqb lowered "accepted" then "bg-purple-100 text-purple-800"
  else if String.eqb lowered "in_review" then "bg-yellow-100 text-yellow-800"
  else "bg-gray-100 text-gray-800".

(** [getPhaseColor] of the client portal and of the client dashboard. *)
Definition getPhaseColor (phase : string) : string :=
  let lowered := Js.toLowerCase phase in
  if String.eqb lowered "exploratory" then "bg-blue-100 text-blue-800"
  else if String.eqb lowered "discovery" then "bg-yellow-100 text-yellow-800"
  else if String.eqb lowered "development" then "bg-orange-100 text-orange-800"
  else if String.eqb lowered "deployment" then "bg-green-100 text-green-800"
  else "bg-gray-100 text-gray-800".

End PortalBadges.

(** ** The client portal: the fetch and its failures *)

Module PortalFetch.
Import ClientPortal.

(** How [await response.json()] ends: with the parsed body, or by
    throwing. *)
Inductive Body :=
| Parsed (data : Payload)
| Unreadable (thrown : ProposalEditor.Thrown).

(** How [await fetch(url, ...)] ends: it rejects, or a response
    arrives. *)
Inductive Exchange :=
| Rejects (thrown : ProposalEditor.Thrown)
| Responds (ok : bool) (statusText : string) (body : Body).

(** The [catch] and [finally] clauses of [fetchClientProposals]. *)
Definition failed (st : State) (thrown : ProposalEditor.Thrown) : State :=
  {| proposals := proposals st;
     selectedProposal := selectedProposal st;
     loading := false;
     error := Some (ProposalEditor.errorMessage thrown "Failed to load proposals") |}.

(** [fetchClientProposals] with every way it can end: the request
    rejects, the response is not ok, its body cannot be read, or the body
    is read. *)
Definition fetchClientProposals (network : Request -> Exchange)
           (props : ClientPortalProps) (token : option string) (st : State)
  : State :=
  match network (buildRequest props token) with
  | Rejects thrown => failed st thrown
  | Responds false statusText _ =>
      failed st (ProposalEditor.ErrorWith
                   ("Failed to fetch proposals: " +:+ statusText))
  | Responds true _ (Unreadable thrown) => failed st thrown
  | Responds true _ (Parsed data) =>
      let proposalList := match data with Arr l => l | Obj p => [p] end in
      {| proposals := proposalList;
         selectedProposal :=
           match proposalList with
           | p :: _ => Some p
           | [] => selectedProposal st
           end;
         loading := false;
         error := None |}
  end.

(** A backend that always answers, with a body that can be read. *)
Definition answering (backend : Request -> Response) : Request -> Exchange :=
  fun request =>
    let response := backend request in
    Responds (ok response) (statusText response) (Parsed (json response)).

End PortalFetch.

(** ** Sample inputs used by the examples below *)

Module Samples.
Import FileUpload.

Definition scanPdf : File :=
  mkFile "scan.pdf" "application/pdf" (60 * 1024 * 1024) "%PDF-1.7".

Definition logoPng : File := mkFile "logo.png" "image/png" 2048 "PNG".

Definition chartGif : File := mkFile "chart.gif" "image/gif" 4096 "GIF89a".

(** A PDF document named and declared as a PNG image. *)
Definition disguisedPdf : File := mkFile "photo.png" "image/png" 9 "%PDF-1.7".

Definition toolExe : File := mkFile "notes.exe" "text/plain" 10 "MZ".

Definition emptyState : State := mkState [] false None.

Definition stored (n : nat) : UploadedFile :=
  mkUploadedFile "f" "old.txt" document 1 ready (Some 100%N) None.

(** Nine files are already stored. *)
Definition nineStored : State := mkState (stored <$> seq 0 9) false None.

Definition constId : nat -> string := fun _ => "id".

(** Two clients, 7 and 8, and three stored proposals. *)
Definition acme : ClientPortal.Proposal :=
  ClientPortal.mkProposal 1 "Portal" "Acme" "discovery" "approved" "<p>Acme</p>"
                          "2024-01-01" "2024-01-02" (Some "s3cr3t").

Definition globex : ClientPortal.Proposal :=
  ClientPortal.mkProposal 2 "Chatbot" "Globex" "exploratory" "approved"
                          "<p>Globex</p>" "2024-01-01" "2024-01-02" None.

Definition acmeDraft : ClientPortal.Proposal :=
  ClientPortal.mkProposal 3 "Roadmap" "Acme" "exploratory" "draft" "<p>Draft</p>"
                          "2024-01-03" "2024-01-03" None.

Definition acmeUser : ProposalApi.User := ProposalApi.mkUser 7 Auth.client.

Definition server : ProposalApi.Server :=
  ProposalApi.mkServer
    [ProposalApi.mkRow acme (Some 7%N); ProposalApi.mkRow globex (Some 8%N);
     ProposalApi.mkRow acmeDraft (Some 7%N)]
    (<["jwt" := acmeUser]> ∅).

Definition loggedIn : ClientPortal.ClientPortalProps :=
  ClientPortal.mkProps (Some 7%N) None false.

Definition byLink : ClientPortal.ClientPortalProps :=
  ClientPortal.mkProps None (Some "s3cr3t") true.

(** A draft proposal, stored under id 1 and open in the editor. *)
Definition draftProposal : ProposalEditor.Proposal :=
  ProposalEditor.mkProposal 1 "Portal" "Acme" "discovery" ProposalEditor.draft
                            "<p>Hello</p>".

Definition backend : ProposalService.Backend :=
  ProposalService.mkBackend (<[1%N := draftProposal]> ∅) [].

Definition editor : ProposalEditor.State :=
  ProposalEditor.mkState (Some draftProposal)
    (ProposalEditor.parseContentIntoSections "<p>Hello</p>") false false None.

Definition staff : ProposalService.Context := ProposalService.mkContext 42 1000.

(** A document of two section elements: a header with a title, and an
    AI-generated body over two lines. *)
Definition twoSections : string :=
  "<section class=" +:+ Js.dquote +:+ "intro header" +:+ Js.dquote
  +:+ "><h2>Hi <b>there</b></h2>A</section> <section id=s2 class="
  +:+ Js.dquote +:+ "ai-generated" +:+ Js.dquote +:+ " lang=en>B"
  +:+ Js.newline +:+ "C</section>".

End Samples.

(** ** Further sample inputs *)

Module MoreSamples.
Import FileUpload UploadActions.

Definition pendingLogo : UploadedFile :=
  newRecord "tmp-1" Samples.logoPng.

Definition pendingChart : UploadedFile :=
  newRecord "tmp-2" Samples.chartGif.

(** Two uploads are in flight. *)
Definition uploadingWidget : Widget :=
  mkWidget (mkState [pendingLogo; pendingChart] true None) false None initialSettings.

Definition accepted : Exchange := Responds true "OK" (mkResult true "file-77" None).

Definition refused : Exchange := Responds false "Payload Too Large" (mkResult false "x" None).

(** The editor showing the sample draft, with its one section selected. *)
Definition editing : SectionEditing.Editor :=
  SectionEditing.mkEditor Samples.editor (Some "main-content") false.

(** A proposal whose content is empty. *)
Definition blankProposal : ProposalEditor.Proposal :=
  ProposalEditor.mkProposal 2 "Chatbot" "Globex" "exploratory" ProposalEditor.draft
                            EmptyString.

(** Three rows of the proposal database. *)
Definition rowA : ProposalDatabase.ProposalSummary N :=
  ProposalDatabase.mkSummary N "p1" "Portal" "draft" "discovery" "d1" "d2" "Ann"
    (Some "Client A") (Some "John Doe") (Some ["urgent"]) (Some "high") (Some 100%N) None.

Definition rowB : ProposalDatabase.ProposalSummary N :=
  ProposalDatabase.mkSummary N "p2" "Chatbot" "approved" "development" "d1" "d3" "Bob"
    (Some "Client B") None None (Some "low") None (Some 40%N).

Definition rowC : ProposalDatabase.ProposalSummary N :=
  ProposalDatabase.mkSummary N "p3" "Audit" "draft" "exploratory" "d2" "d3" "Ann"
    None (Some "John Doe") (Some ["simple"; "recurring"]) None None None.

Definition onlyClientA : ProposalDatabase.SearchFilters :=
  ProposalDatabase.mkFilterSet EmptyString [] [] ["Client A"] None None [] [] []
                            "updated_at" ProposalDatabase.desc.

(** A user profile written as a string, with a JSON text of its own. *)
Definition profileText (profile : string) : string := String "u" profile.

Definition profileOfText (text : string) : option string :=
  match text with
  | String _ profile => Some profile
  | EmptyString => None
  end.

Definition loginAnswer : AuthGuide.AuthResponse string :=
  AuthGuide.mkAuth string "jwt-1" "refresh-1" "ann".

Definition loggedOut : AuthGuide.Session string :=
  AuthGuide.mkSession string ∅ None false.

End MoreSamples.

(** * Properties *)

Local Open Scope list_scope.

(** ** Strings *)

Section StringFacts.

Lemma string_app_cons (x : ascii) (a b : string) :
  String x a +:+ b = String x (a +:+ b).
Proof. reflexivity. Qed.

Lemma string_app_nil_r (a : string) : a +:+ EmptyString = a.
Proof. induction a as [|x a IH]; [done|]. by rewrite string_app_cons, IH. Qed.

Lemma string_app_assoc (a b c : string) : (a +:+ b) +:+ c = a +:+ (b +:+ c).
Proof. induction a as [|x a IH]; [done|]. by rewrite !string_app_cons, IH. Qed.

Lemma string_app_length (a b : string) :
  String.length (a +:+ b) = String.length a + String.length b.
Proof. induction a as [|x a IH]; [done|]. rewrite string_app_cons. cbn. by rewrite IH. Qed.

End StringFacts.

(** ** File upload *)

Section FileUploadFacts.
Import FileUpload.

Example getFileType_png : getFileType "Logo.PNG" = image.
Proof. reflexivity. Qed.

Example getFileType_no_dot : getFileType "README" = document.
Proof. reflexivity. Qed.

Example formatFileSize_1536 : formatFileSize 1536 = "1.5 KB".
Proof. vm_compute. reflexivity. Qed.

Example formatFileSize_tie : formatFileSize 1152 = "1.13 KB".
Proof. vm_compute. reflexivity. Qed.

Example formatFileSize_50MB : formatFileSize (50 * 1024 * 1024) = "50 MB".
Proof. vm_compute. reflexivity. Qed.

Example formatFileSize_1TB : formatFileSize (1024 ^ 4) = "1 undefined".
Proof. vm_compute. reflexivity. Qed.

Variable props : FileUploadProps.

Lemma validateFile_None nfiles file :
  validateFile props nfiles file = None <-> validate props nfiles file = None.
Proof. unfold validateFile. apply fmap_None. Qed.

(** The checks of [validate], in order. *)
Lemma validate_cases nfiles file :
  validate props nfiles file =
    if (maxFileSize props <? size file)%N
    then Some (FileTooLarge (size file) (maxFileSize props))
    else if Js.arr_includes (allowedTypes props) (dottedExtension (name file))
    then if (maxFiles props <=? nfiles)%nat
         then Some (TooManyFiles (maxFiles props))
         else None
    else Some (UnsupportedType (dottedExtension (name file)) (allowedTypes props)).
Proof.
  unfold validate.
  destruct (maxFileSize props <? size file)%N; [reflexivity|].
  destruct (Js.arr_includes _ _); reflexivity.
Qed.

Lemma validate_accepts nfiles file :
  (size file <= maxFileSize props)%N ->
  Js.arr_includes (allowedTypes props) (dottedExtension (name file)) = true ->
  nfiles < maxFiles props ->
  validate props nfiles file = None.
Proof.
  intros Hsize Hext Hcount. rewrite validate_cases.
  destruct (N.ltb_spec (maxFileSize props) (size file)); [lia|].
  rewrite Hext.
  destruct (Nat.leb_spec (maxFiles props) nfiles); [lia|reflexivity].
Qed.

Lemma validate_None_size nfiles file :
  validate props nfiles file = None -> (size file <= maxFileSize props)%N.
Proof.
  rewrite validate_cases.
  destruct (N.ltb_spec (maxFileSize props) (size file)); [discriminate|done].
Qed.

(** Every record made by the scan comes from a file of the batch that
    passed validation. *)
Lemma scanFiles_records nfiles fresh fileList : forall n r,
  r ∈ (scanFiles props nfiles fresh n fileList).1 ->
  exists file i, file ∈ fileList
                 /\ validate props nfiles file = None
                 /\ r = newRecord (fresh i) file.
Proof.
  induction fileList as [|file rest IH]; intros n r; simpl.
  - intros Hr. inversion Hr.
  - destruct (scanFiles props nfiles fresh (S n) rest) as [newFiles errors] eqn:Hscan.
    specialize (IH (S n)). rewrite Hscan in IH. simpl in IH.
    destruct (validateFile props nfiles file) as [msg|] eqn:Hv; simpl.
    + intros Hr. destruct (IH r Hr) as (f & i & Hf & Hok & ->).
      exists f, i. split_and!; [by right|done|done].
    + intros Hr. apply elem_of_cons in Hr as [->|Hr].
      * exists file, n. split_and!; [by left|by apply validateFile_None|done].
      * destruct (IH r Hr) as (f & i & Hf & Hok & ->).
        exists f, i. split_and!; [by right|done|done].
Qed.

(** A batch whose files all pass validation is accepted whole. *)
Lemma scanFiles_all_valid nfiles fresh fileList : forall n,
  Forall (fun file => validate props nfiles file = None) fileList ->
  length (scanFiles props nfiles fresh n fileList).1 = length fileList
  /\ (scanFiles props nfiles fresh n fileList).2 = [].
Proof.
  induction fileList as [|file rest IH]; intros n Hall; simpl; [done|].
  apply Forall_cons in Hall as [Hfile Hrest].
  destruct (IH (S n) Hrest) as [Hlen Herr].
  destruct (scanFiles props nfiles fresh (S n) rest) as [newFiles errors].
  simpl in *. apply validateFile_None in Hfile. rewrite Hfile. simpl.
  split; [by rewrite Hlen|done].
Qed.

(** The stored list only grows by the scanned records. *)
Lemma handleFiles_files st fresh fileList :
  files (handleFiles props st fresh fileList).1 =
    files st ++ (scanFiles props (length (files st)) fresh 0 fileList).1.
Proof.
  unfold handleFiles.
  destruct (scanFiles props (length (files st)) fresh 0 fileList) as [newFiles errors].
  destruct newFiles; simpl; [by rewrite app_nil_r|done].
Qed.

Lemma handleFiles_job st fresh fileList job :
  (handleFiles props st fresh fileList).2 = Some job ->
  job_files job =
    filter (fun file => validateFile props (length (files st)) file = None) fileList.
Proof.
  unfold handleFiles.
  destruct (scanFiles props (length (files st)) fresh 0 fileList) as [newFiles errors].
  destruct newFiles; simpl; [discriminate|].
  intros [= <-]. reflexivity.
Qed.

End FileUploadFacts.

Section FormatFileSizeFacts.
Import FileUpload.
Local Open Scope N_scope.

Lemma k_pow (i : N) : k ^ i = 2 ^ (10 * i).
Proof. unfold k. change 1024 with (2 ^ 10). by rewrite N.pow_mul_r. Qed.

(** [unitIndex] is the integer logarithm to base 1024. *)
Lemma unitIndex_spec (b : N) :
  0 < b -> k ^ unitIndex b <= b < k ^ (unitIndex b + 1).
Proof.
  intros Hb. rewrite !k_pow. unfold unitIndex.
  destruct (N.log2_spec b Hb) as [Hlo Hhi].
  pose proof (N.Div0.mul_div_le (N.log2 b) 10) as Hdown.
  pose proof (N.mul_succ_div_gt (N.log2 b) 10 ltac:(lia)) as Hup.
  split.
  - etrans; [|exact Hlo]. apply N.pow_le_mono_r; lia.
  - eapply N.lt_le_trans; [exact Hhi|]. apply N.pow_le_mono_r; lia.
Qed.

Lemma unitIndex_lt (b : N) (n : N) :
  0 < b -> b < k ^ n -> unitIndex b < n.
Proof.
  intros Hb Hlt. rewrite k_pow in Hlt.
  apply N.log2_lt_pow2 in Hlt; [|done].
  unfold unitIndex. apply N.Div0.div_lt_upper_bound. lia.
Qed.

Lemma unitIndex_ge (b : N) (n : N) :
  k ^ n <= b -> n <= unitIndex b.
Proof.
  intros Hle. rewrite k_pow in Hle.
  assert (0 < b) as Hb.
  { eapply N.lt_le_trans; [|exact Hle]. apply N.neq_0_lt_0, N.pow_nonzero. lia. }
  apply N.log2_le_pow2 in Hle; [|done].
  unfold unitIndex. apply N.div_le_lower_bound; lia.
Qed.

(** [toFixed2 b i] is the number of hundredths nearest to [b / k^i], the
    larger one on a tie. *)
Lemma toFixed2_nearest (b i : N) :
  let h := toFixed2 b i in
  2 * (h * k ^ i) <= 2 * (100 * b) + k ^ i < 2 * ((h + 1) * k ^ i).
Proof.
  intros h. subst h. unfold toFixed2.
  assert (0 < k ^ i) as Hpos.
  { apply N.neq_0_lt_0, N.pow_nonzero. unfold k. lia. }
  set (d := 2 * k ^ i). set (a := 200 * b + k ^ i).
  pose proof (N.Div0.mul_div_le a d) as Hdown.
  pose proof (N.mul_succ_div_gt a d ltac:(lia)) as Hup.
  subst a d. lia.
Qed.

Lemma sizes_lookup (i : N) :
  i < 4 -> exists unit, sizes !! N.to_nat i = Some unit.
Proof.
  intros Hi. assert (N.to_nat i < 4)%nat as Hn by lia.
  destruct (N.to_nat i) as [|[|[|[|n]]]]; simpl; eauto. lia.
Qed.

Lemma sizes_lookup_None (i : N) : 4 <= i -> sizes !! N.to_nat i = None.
Proof. intros Hi. apply lookup_ge_None. simpl. lia. Qed.

(** Numerals of two digits. *)
Lemma of_N_two_digits (d e : N) :
  1 <= d < 10 -> e < 10 -> Js.of_N (10 * d + e) = Js.of_N d +:+ Js.of_N e.
Proof.
  intros Hd He.
  assert (exists d' e' : nat, d = N.of_nat d' /\ e = N.of_nat e'
                              /\ (1 <= d' < 10)%nat /\ (e' < 10)%nat)
    as (d' & e' & -> & -> & Hd' & He').
  { exists (N.to_nat d), (N.to_nat e). lia. }
  do 10 (destruct d' as [|d'];
         [try lia;
          do 10 (destruct e' as [|e']; [vm_compute; reflexivity|]); lia|]).
  lia.
Qed.

(** The digits of a number of hundredths. *)
Lemma hundredths_digits (h : N) :
  let n := h / 100 in
  let d := (h mod 100) / 10 in
  let e := h mod 10 in
  h = 100 * n + 10 * d + e /\ h mod 100 = 10 * d + e /\ d < 10 /\ e < 10.
Proof.
  intros n d e. subst n d e.
  pose proof (N.div_mod h 100 ltac:(lia)) as Hh.
  pose proof (N.mod_lt h 100 ltac:(lia)) as Hfrac.
  pose proof (N.div_mod (h mod 100) 10 ltac:(lia)) as Hf.
  pose proof (N.mod_lt (h mod 100) 10 ltac:(lia)) as Hlow.
  assert ((h mod 100) mod 10 = h mod 10) as Hsame.
  { change 100 with (10 * 10). rewrite N.Div0.mod_mul_r.
    rewrite (N.mul_comm 10), N.Div0.mod_add. apply N.Div0.mod_mod. }
  rewrite Hsame in Hf, Hlow.
  generalize dependent (h mod 10). generalize dependent ((h mod 100) / 10).
  generalize dependent (h mod 100). generalize dependent (h / 100).
  intros. lia.
Qed.

(** [showHundredths] writes the whole part and then the digits of the
    fraction up to the last one that is not zero. *)
Lemma showHundredths_digits (h : N) :
  let n := h / 100 in
  let d := (h mod 100) / 10 in
  let e := h mod 10 in
  showHundredths h
  = Js.of_N n
    +:+ (if e =? 0
         then if d =? 0 then EmptyString else "." +:+ Js.of_N d
         else "." +:+ Js.of_N d +:+ Js.of_N e).
Proof.
  intros n d e. destruct (hundredths_digits h) as (_ & Hfrac & Hd & He).
  fold d e in Hfrac, Hd, He. unfold showHundredths. fold n. rewrite Hfrac.
  assert ((10 * d + e) mod 10 = e) as Hmod.
  { rewrite N.add_comm, (N.mul_comm 10), N.Div0.mod_add. by apply N.mod_small. }
  assert ((10 * d + e) / 10 = d) as Hdiv.
  { symmetry. apply (N.div_unique _ 10 d e); [done|lia]. }
  rewrite Hmod, Hdiv.
  destruct (N.eqb_spec e 0) as [He0|He0].
  - destruct (N.eqb_spec d 0) as [Hd0|Hd0].
    + assert (10 * d + e = 0) as -> by lia. cbn [N.eqb]. by rewrite string_app_nil_r.
    + destruct (N.eqb_spec (10 * d + e) 0) as [?|_]; [lia|]. done.
  - destruct (N.eqb_spec (10 * d + e) 0) as [?|_]; [lia|].
    destruct (N.ltb_spec (10 * d + e) 10) as [Hsmall|Hbig].
    + assert (d = 0) as -> by lia. by rewrite N.mul_0_r, N.add_0_l.
    + by rewrite of_N_two_digits by lia.
Qed.

(** The text of [formatFileSize] for a size whose integer logarithm to
    base 1024 is [i], with [i] a position of the unit array. *)
Lemma formatFileSize_text (b i : N) (unit : string) :
  sizes !! N.to_nat i = Some unit ->
  k ^ i <= b < k ^ (i + 1) ->
  let h := toFixed2 b i in
  unitIndex b = i
  /\ formatFileSize b = showHundredths h +:+ " " +:+ unit.
Proof.
  intros Hunit [Hlo Hhi] h.
  assert (0 < k ^ i) as Hpos.
  { apply N.neq_0_lt_0, N.pow_nonzero. unfold k. lia. }
  assert (unitIndex b = i) as Hi.
  { pose proof (unitIndex_ge b i Hlo). pose proof (unitIndex_lt b (i + 1) ltac:(lia) Hhi).
    lia. }
  split; [exact Hi|].
  unfold formatFileSize. destruct (N.eqb_spec b 0) as [->|_]; [lia|].
  cbv zeta. by rewrite Hi, Hunit.
Qed.

End FormatFileSizeFacts.

Section FileUploadClaims.
Import FileUpload.

Lemma scanFiles_length props nfiles fresh fileList : forall n,
  length (scanFiles props nfiles fresh n fileList).1 =
    length (filter (fun file => validateFile props nfiles file = None) fileList).
Proof.
  induction fileList as [|file rest IH]; intros n; simpl; [done|].
  specialize (IH (S n)).
  destruct (scanFiles props nfiles fresh (S n) rest) as [newFiles errors].
  simpl in IH. rewrite filter_cons.
  destruct (validateFile props nfiles file) as [msg|] eqn:Hv;
    case_decide; try done; simpl; by rewrite IH.
Qed.

(** C3. A file larger than [maxFileSize] is always rejected by
    [validateFile] with the file-too-large message, whatever its name and
    whatever is already stored.  [handleFiles] creates no record for it and
    does not upload it: the stored list grows by exactly one record per file
    that passed validation, each made from a file within the limit, and the
    oversize file is not among the files handed to the upload. *)
Theorem oversize_file_rejected
  (props : FileUploadProps) (st : State) (fresh : nat -> string)
  (fileList : list File) (nfiles : nat) (file : File) :
  (maxFileSize props < size file)%N ->
  validate props nfiles file = Some (FileTooLarge (size file) (maxFileSize props))
  /\ validateFile props nfiles file
     = Some (message (FileTooLarge (size file) (maxFileSize props)))
  /\ (exists newFiles,
        files (handleFiles props st fresh fileList).1 = files st ++ newFiles
        /\ length newFiles
           = length (filter (fun f => validateFile props (length (files st)) f = None)
                            fileList)
        /\ forall r, r ∈ newFiles ->
             exists f i, f ∈ fileList /\ (size f <= maxFileSize props)%N
                         /\ r = newRecord (fresh i) f)
  /\ (forall job, (handleFiles props st fresh fileList).2 = Some job ->
        file ∉ job_files job).
Proof.
  intros Hbig.
  assert (validate props nfiles file
          = Some (FileTooLarge (size file) (maxFileSize props))) as Hv.
  { rewrite validate_cases.
    destruct (N.ltb_spec (maxFileSize props) (size file)); [done|lia]. }
  split_and!.
  - exact Hv.
  - unfold validateFile. by rewrite Hv.
  - exists (scanFiles props (length (files st)) fresh 0 fileList).1.
    split_and!.
    + apply handleFiles_files.
    + apply scanFiles_length.
    + intros r Hr.
      destruct (scanFiles_records props _ _ _ _ _ Hr) as (f & i & Hf & Hok & ->).
      exists f, i. split_and!; [done| |done].
      by eapply validate_None_size.
  - intros job Hjob Hin.
    rewrite (handleFiles_job props _ _ _ _ Hjob) in Hin.
    apply list_elem_of_filter in Hin as [Hok _].
    apply validateFile_None, validate_None_size in Hok. lia.
Qed.

Lemma oversize_file_rejected_witness :
  validateFile defaultProps 0 Samples.scanPdf
    = Some "File size (60 MB) exceeds maximum allowed (50 MB)"
  /\ length (files (handleFiles defaultProps Samples.emptyState Samples.constId
                      [Samples.scanPdf; Samples.logoPng]).1) = 1%nat.
Proof.
  destruct (oversize_file_rejected defaultProps Samples.emptyState Samples.constId
              [Samples.scanPdf; Samples.logoPng] 0 Samples.scanPdf)
    as (_ & Hmsg & (newFiles & Hfiles & Hlen & _) & _).
  { vm_compute. reflexivity. }
  split.
  - rewrite Hmsg. vm_compute. reflexivity.
  - rewrite Hfiles, length_app, Hlen. vm_compute. reflexivity.
Defined.

(** C4, as the spec words it, fails: a file whose bytes are a PDF but which
    is named and declared as a PNG image passes [validateFile]. *)
Lemma content_mismatch_not_rejected :
  UploadContract.contentMismatch Samples.disguisedPdf = true
  /\ validateFile defaultProps 0 Samples.disguisedPdf = None.
Proof. vm_compute. split; reflexivity. Qed.

(** C4 (amended). [validateFile] rejects a file with the file-too-large
    error when its size is above [maxFileSize]; otherwise with the
    unsupported-type error when the dotted, lower-cased extension of its
    name is not in [allowedTypes]; otherwise with the too-many-files error
    when [maxFiles] files are already stored; otherwise it accepts.  The
    checks run in this order and stop at the first that fails.  Neither the
    declared MIME type nor the content of the file is examined. *)
Theorem validateFile_checks
  (props : FileUploadProps) (nfiles : nat) (file : File) :
  let ext := dottedExtension (name file) in
  let allowed := Js.arr_includes (allowedTypes props) ext in
  ((maxFileSize props < size file)%N ->
     validate props nfiles file
     = Some (FileTooLarge (size file) (maxFileSize props)))
  /\ ((size file <= maxFileSize props)%N -> allowed = false ->
        validate props nfiles file = Some (UnsupportedType ext (allowedTypes props)))
  /\ ((size file <= maxFileSize props)%N -> allowed = true ->
        maxFiles props <= nfiles ->
        validate props nfiles file = Some (TooManyFiles (maxFiles props)))
  /\ ((size file <= maxFileSize props)%N -> allowed = true ->
        nfiles < maxFiles props ->
        validate props nfiles file = None)
  /\ validateFile props nfiles file = message <$> validate props nfiles file
  /\ (forall mime bytes,
        validateFile props nfiles (mkFile (name file) mime (size file) bytes)
        = validateFile props nfiles file).
Proof.
  intros ext allowed. subst ext allowed.
  split_and!; try (intros; reflexivity).
  all: intros; rewrite validate_cases.
  all: destruct (N.ltb_spec (maxFileSize props) (size file)); try lia; try done.
  all: match goal with H : Js.arr_includes _ _ = _ |- _ => rewrite H end; try done.
  all: destruct (Nat.leb_spec (maxFiles props) nfiles); try lia; done.
Qed.

Lemma validateFile_checks_witness :
  validate defaultProps 3 Samples.toolExe
  = Some (UnsupportedType ".exe" (allowedTypes defaultProps)).
Proof.
  pose proof (validateFile_checks defaultProps 3 Samples.toolExe) as (_ & H & _).
  apply H; vm_compute; [discriminate|reflexivity].
Defined.

Lemma arr_includes_elem_of (l : list string) (x : string) :
  Js.arr_includes l x = true <-> x ∈ l.
Proof.
  unfold Js.arr_includes. rewrite existsb_exists. split.
  - intros (y & Hy & Heq). apply String.eqb_eq in Heq as ->.
    by apply list_elem_of_In.
  - intros Hx. exists x. split; [by apply list_elem_of_In|apply String.eqb_refl].
Qed.

Lemma arr_includes_not_elem_of (l : list string) (x : string) :
  Js.arr_includes l x = false <-> x ∉ l.
Proof.
  rewrite <- arr_includes_elem_of. destruct (Js.arr_includes l x); split; done.
Qed.

(** Case analysis on membership in a literal list. *)
Ltac list_cases H :=
  repeat (apply elem_of_cons in H as [->|H]); [..|by apply elem_of_nil in H].

(** C8, as stated, fails: two names with the extension [txt] are typed
    differently. *)
Lemma same_extension_different_type :
  extension "transcript.txt" = extension "notes.txt"
  /\ getFileType "transcript.txt" = transcript
  /\ getFileType "notes.txt" = document.
Proof. vm_compute. split_and!; reflexivity. Qed.

(** C8 (amended). The [file_type] is derived from the file name: from its
    lower-cased extension and, for the extensions txt, docx and pdf, from
    whether the lower-cased name contains [transcript].  It is [image] for
    the image extensions, [spreadsheet] for xls, xlsx and csv,
    [presentation] for ppt and pptx, [transcript] for txt, docx and pdf
    names that contain [transcript], and [document] otherwise.  Two names
    with the same extension that agree on containing [transcript] get the
    same type. *)
Theorem getFileType_from_name (f1 f2 : string) :
  extension f1 = extension f2 ->
  Js.includes (Js.toLowerCase f1) "transcript"
  = Js.includes (Js.toLowerCase f2) "transcript" ->
  getFileType f1 = getFileType f2
  /\ (extension f1 ∈ ["jpg"; "jpeg"; "png"; "gif"; "bmp"; "webp"] ->
        getFileType f1 = image)
  /\ (extension f1 ∈ ["xls"; "xlsx"; "csv"] -> getFileType f1 = spreadsheet)
  /\ (extension f1 ∈ ["ppt"; "pptx"] -> getFileType f1 = presentation)
  /\ (extension f1 ∈ ["txt"; "docx"; "pdf"] ->
        getFileType f1
        = if Js.includes (Js.toLowerCase f1) "transcript" then transcript
          else document)
  /\ (extension f1 ∉ ["jpg"; "jpeg"; "png"; "gif"; "bmp"; "webp"; "xls"; "xlsx";
                       "csv"; "ppt"; "pptx"; "txt"; "docx"; "pdf"] ->
        getFileType f1 = document).
Proof.
  intros Hext Htr. split_and!.
  - unfold getFileType. by rewrite Hext, Htr.
  - intros H. unfold getFileType. list_cases H; reflexivity.
  - intros H. unfold getFileType. list_cases H; reflexivity.
  - intros H. unfold getFileType. list_cases H; reflexivity.
  - intros H. unfold getFileType.
    list_cases H; simpl;
      by destruct (Js.includes (Js.toLowerCase f1) "transcript").
  - intros H. unfold getFileType.
    rewrite !(proj2 (arr_includes_not_elem_of _ _)); [done|..];
      intros Hin; apply H; list_cases Hin; apply list_elem_of_In; simpl; tauto.
Qed.

Lemma getFileType_from_name_witness :
  getFileType "Budget.XLSX" = getFileType "q3.report.xlsx"
  /\ getFileType "Budget.XLSX" = spreadsheet.
Proof.
  destruct (getFileType_from_name "Budget.XLSX" "q3.report.xlsx")
    as (Hsame & _ & Hsheet & _); [reflexivity|reflexivity|].
  split; [exact Hsame|]. apply Hsheet. apply list_elem_of_In. simpl. tauto.
Defined.

(** C9. The file-count limit is checked against the number of files stored
    before the batch only.  When fewer than [maxFiles] files are stored and
    a batch of two or more files of allowed size and type is handled, every
    file of the batch passes validation and all are stored; a batch that is
    large enough therefore leaves more than [maxFiles] files stored. *)
Theorem handleFiles_exceeds_maxFiles
  (props : FileUploadProps) (st : State) (fresh : nat -> string)
  (fileList : list File) :
  length (files st) < maxFiles props ->
  2 <= length fileList ->
  Forall (fun file =>
            (size file <= maxFileSize props)%N
            /\ Js.arr_includes (allowedTypes props) (dottedExtension (name file)) = true)
         fileList ->
  maxFiles props < length (files st) + length fileList ->
  Forall (fun file => validateFile props (length (files st)) file = None) fileList
  /\ length (files (handleFiles props st fresh fileList).1)
     = length (files st) + length fileList
  /\ maxFiles props < length (files (handleFiles props st fresh fileList).1).
Proof.
  intros Hroom Hbatch Hvalid Hover.
  assert (Forall (fun file => validate props (length (files st)) file = None) fileList)
    as Hpass.
  { eapply Forall_impl; [exact Hvalid|]. intros file [Hsize Hext].
    by apply validate_accepts. }
  assert (length (files (handleFiles props st fresh fileList).1)
          = length (files st) + length fileList) as Hlen.
  { rewrite handleFiles_files, length_app.
    by destruct (scanFiles_all_valid props _ fresh fileList 0 Hpass) as [-> _]. }
  split_and!.
  - eapply Forall_impl; [exact Hpass|]. intros file. apply validateFile_None.
  - exact Hlen.
  - lia.
Qed.

Lemma handleFiles_exceeds_maxFiles_witness :
  length (files Samples.nineStored) = 9
  /\ maxFiles defaultProps = 10
  /\ length (files (handleFiles defaultProps Samples.nineStored Samples.constId
                      [Samples.logoPng; Samples.chartGif]).1) = 11.
Proof.
  destruct (handleFiles_exceeds_maxFiles defaultProps Samples.nineStored
              Samples.constId [Samples.logoPng; Samples.chartGif])
    as (_ & Hlen & _).
  - simpl. lia.
  - simpl. lia.
  - repeat constructor; vm_compute; congruence.
  - simpl. lia.
  - split_and!; [reflexivity|reflexivity|]. rewrite Hlen. reflexivity.
Defined.

(** C10. [formatFileSize 0] is ["0 Bytes"].  For [1 <= b < 1024^4] the
    result is determined as follows: [i] is the integer logarithm of [b]
    to base 1024, a position of the unit array; [h] is the number of
    hundredths nearest to [b / 1024^i], the larger one on a tie; the
    result is [h / 100] in decimal, that is the whole part [n] followed,
    unless both are zero, by a point and the fraction digits [d] and [e]
    up to the last one that is not zero, then a space and the [i]-th of
    the units Bytes, KB, MB, GB.  For [b >= 1024^4] the unit index is 4
    or more, outside the four-element unit array, and the result ends in
    [undefined]. *)
Theorem formatFileSize_units :
  let decimal := fun x : N => NilEmpty.string_of_uint (N.to_uint x) in
  formatFileSize 0 = "0 Bytes"
  /\ (forall b : N, (1 <= b < 1024 ^ 4)%N ->
        exists (i h n d e : N) (unit : string),
          (1024 ^ i <= b < 1024 ^ (i + 1))%N
          /\ ["Bytes"; "KB"; "MB"; "GB"] !! N.to_nat i = Some unit
          /\ (2 * (h * 1024 ^ i) <= 2 * (100 * b) + 1024 ^ i
              < 2 * ((h + 1) * 1024 ^ i))%N
          /\ h = (100 * n + 10 * d + e)%N /\ (d < 10)%N /\ (e < 10)%N
          /\ formatFileSize b
             = decimal n
               +:+ (if (e =? 0)%N
                    then if (d =? 0)%N then EmptyString else "." +:+ decimal d
                    else "." +:+ decimal d +:+ decimal e)
               +:+ " " +:+ unit)
  /\ (forall b : N, (1024 ^ 4 <= b)%N ->
        (4 <= unitIndex b)%N
        /\ sizes !! N.to_nat (unitIndex b) = None
        /\ exists number : string, formatFileSize b = number +:+ " undefined").
Proof.
  intros decimal. split_and!.
  - reflexivity.
  - intros b [Hlo Hhi].
    assert (0 < b)%N as Hpos by lia.
    assert (unitIndex b < 4)%N as Hi by (by apply unitIndex_lt).
    destruct (sizes_lookup _ Hi) as [unit Hunit].
    destruct (formatFileSize_text b (unitIndex b) unit Hunit (unitIndex_spec b Hpos))
      as [_ Htext].
    set (h := toFixed2 b (unitIndex b)) in *.
    destruct (hundredths_digits h) as (Hh & _ & Hd & He).
    exists (unitIndex b), h, (h / 100)%N, ((h mod 100) / 10)%N, (h mod 10)%N, unit.
    split_and!; try done.
    + apply (unitIndex_spec b Hpos).
    + apply (unitIndex_spec b Hpos).
    + apply (toFixed2_nearest b (unitIndex b)).
    + apply (toFixed2_nearest b (unitIndex b)).
    + rewrite Htext, showHundredths_digits, string_app_assoc. reflexivity.
  - intros b Hb.
    assert (4 <= unitIndex b)%N as Hi by (by apply unitIndex_ge).
    split_and!; [exact Hi|by apply sizes_lookup_None|].
    exists (showHundredths (toFixed2 b (unitIndex b))).
    unfold formatFileSize.
    destruct (N.eqb_spec b 0) as [->|_]; [vm_compute in Hb; done|].
    cbv zeta. by rewrite sizes_lookup_None.
Qed.

Lemma formatFileSize_units_witness :
  (exists (i h n d e : N) (unit : string),
     (1024 ^ i <= 1536 < 1024 ^ (i + 1))%N
     /\ ["Bytes"; "KB"; "MB"; "GB"] !! N.to_nat i = Some unit
     /\ (2 * (h * 1024 ^ i) <= 2 * (100 * 1536) + 1024 ^ i
         < 2 * ((h + 1) * 1024 ^ i))%N
     /\ h = (100 * n + 10 * d + e)%N /\ (d < 10)%N /\ (e < 10)%N
     /\ formatFileSize 1536
        = NilEmpty.string_of_uint (N.to_uint n)
          +:+ (if (e =? 0)%N
               then if (d =? 0)%N then EmptyString
                    else "." +:+ NilEmpty.string_of_uint (N.to_uint d)
               else "." +:+ NilEmpty.string_of_uint (N.to_uint d)
                    +:+ NilEmpty.string_of_uint (N.to_uint e))
          +:+ " " +:+ unit)
  /\ sizes !! N.to_nat (unitIndex (5 * 1024 ^ 4)) = None.
Proof.
  destruct formatFileSize_units as (_ & Hin & Hout).
  split.
  - apply (Hin 1536%N). vm_compute. split; congruence.
  - apply (Hout (5 * 1024 ^ 4)%N). vm_compute. congruence.
Defined.

End FileUploadClaims.

(** ** Role gate *)

Section AuthClaims.
Import Auth.

Example unknown_role_denied : hasRequiredRole "guest" "client" = false.
Proof. vm_compute. reflexivity. Qed.

Lemma role_le_cases (r u : Role) :
  role_le r u <->
  match r, u with
  | client, _ | project_manager, project_manager
  | project_manager, admin | admin, admin => True
  | _, _ => False
  end.
Proof.
  split.
  - intros [->|Hlt]; [by destruct u|by destruct Hlt].
  - destruct r, u; intros H; try done; first [by left | right; constructor].
Qed.

(** C5. For all roles [userRole] and [requiredRole] among client,
    project_manager and admin, the gate grants access exactly when
    [requiredRole <= userRole] in the ordering client < project_manager <
    admin.  An admin passes every check and a client passes the
    client-level check only. *)
Theorem hasRequiredRole_ordering :
  (forall userRole requiredRole : Role,
     hasRequiredRole (role_name userRole) (role_name requiredRole) = true
     <-> role_le requiredRole userRole)
  /\ (forall requiredRole : Role,
        hasRequiredRole (role_name admin) (role_name requiredRole) = true)
  /\ (forall requiredRole : Role,
        hasRequiredRole (role_name client) (role_name requiredRole) = true
        <-> requiredRole = client).
Proof.
  split_and!.
  - intros u r. rewrite role_le_cases. destruct u, r; vm_compute; split; done.
  - intros r. destruct r; vm_compute; reflexivity.
  - intros r. destruct r; vm_compute; split; done.
Qed.

End AuthClaims.

(** ** Client portal *)

Section ClientPortalClaims.
Import ClientPortal ProposalApi.

Lemma stripPrefix_app (p s : string) : Js.stripPrefix p (p +:+ s) = Some s.
Proof.
  induction p as [|a p IH]; simpl; [by destruct s|].
  by rewrite Ascii.eqb_refl.
Qed.

Lemma truthy_show (o : option string) :
  Js.truthy o = true -> exists tok, o = Some tok /\ Js.show o = tok /\ tok <> EmptyString.
Proof.
  destruct o as [[|c s]|]; simpl; try discriminate.
  intros _. by exists (String c s).
Qed.

(** An empty [Authorization] header names nobody. *)
Lemma authenticate_empty (srv : Server) : authenticate srv EmptyString = None.
Proof. reflexivity. Qed.

(** What the list route answers to an authenticated caller. *)
Lemma serve_list (srv : Server) (stored : option string) (u : User) :
  authenticate srv (bearer stored) = Some u ->
  serve srv (buildRequest {| clientId := None; shareToken := None;
                            isPublicAccess := false |} stored)
  = {| ok := true; statusText := "OK";
       json := Arr (doc <$> filter (fun r => visibleTo u r = true
                                       ∧ statusWanted ["approved"; "sent"; "accepted"] r
                                         = true)
                                   (rows srv)) |}.
Proof.
  intros Hauth. unfold serve, buildRequest.
  cbn [url authorization isPublicAccess shareToken andb Js.truthy].
  change (Js.stripPrefix "/api/v1/proposals/shared/" _) with (@None string).
  cbv iota beta.
  match goal with
  | |- context [Js.stripPrefix "/api/v1/proposals/?" ?u] =>
      let v := eval vm_compute in (Js.stripPrefix "/api/v1/proposals/?" u) in
      change (Js.stripPrefix "/api/v1/proposals/?" u) with v
  end.
  cbv iota beta. rewrite Hauth. reflexivity.
Qed.

(** Outside the shared-link branch the request does not depend on the
    [clientId] and [shareToken] props. *)
Lemma buildRequest_authenticated (props : ClientPortalProps) (stored : option string) :
  isPublicAccess props = false ->
  buildRequest props stored
  = buildRequest {| clientId := None; shareToken := None; isPublicAccess := false |}
                 stored.
Proof. intros Hpublic. unfold buildRequest. by rewrite Hpublic. Qed.

(** What the shared route answers. *)
Lemma serve_shared (srv : Server) (tok auth : string) :
  serve srv {| method := GET; url := "/api/v1/proposals/shared/" +:+ tok;
               authorization := auth; content_type := "application/json" |}
  = match filter (fun r => hasToken tok r = true) (rows srv) with
    | r :: _ => {| ok := true; statusText := "OK"; json := Obj (doc r) |}
    | [] => notFound
    end.
Proof. unfold serve. cbn [url]. by rewrite stripPrefix_app. Qed.

(** C6. With [isPublicAccess] set and a non-empty share token, the portal
    issues one request: a [GET] to the shared-proposal endpoint keyed by
    the token, with an empty [Authorization] header.  No bearer
    credential is sent whatever [localStorage] holds, and the state after
    the fetch is what the answer to that very request makes it: the
    proposals answered, the first one selected, or the error of a
    response that is not ok.  Against the proposal routes this obtains,
    for every stored proposal carrying the token, a proposal carrying
    that token (that very proposal when no other carries it) and shows it
    without error, on a server where nobody is logged in as well; there
    the same portal without public access is answered Unauthorized.  The
    route is read with [GET] and [serve] returns an answer only, so the
    store is left as it was. *)
Theorem share_token_request
  (props : ClientPortalProps) (tok : string) :
  isPublicAccess props = true ->
  shareToken props = Some tok ->
  tok <> EmptyString ->
  let request :=
    {| method := GET;
       url := "/api/v1/proposals/shared/" +:+ tok;
       authorization := EmptyString;
       content_type := "application/json" |} in
  (forall stored : option string, buildRequest props stored = request)
  /\ (forall (backend : Request -> Response) (stored : option string) (st : State),
        fetchClientProposals backend props stored st
        = if ok (backend request)
          then
            let proposalList :=
              match json (backend request) with Arr l => l | Obj p => [p] end in
            {| proposals := proposalList;
               selectedProposal :=
                 match proposalList with
                 | p :: _ => Some p
                 | [] => selectedProposal st
                 end;
               loading := false;
               error := None |}
          else
            {| proposals := proposals st;
               selectedProposal := selectedProposal st;
               loading := false;
               error := Some ("Failed to fetch proposals: "
                              +:+ statusText (backend request)) |})
  /\ (forall (backend : Request -> Response) (stored stored' : option string)
             (st : State),
        fetchClientProposals backend props stored st
        = fetchClientProposals backend props stored' st)
  /\ (forall (srv : Server) (stored : option string) (st : State) (r : Row),
        r ∈ rows srv ->
        share_token (doc r) = Some tok ->
        exists r' : Row,
          r' ∈ rows srv
          /\ share_token (doc r') = Some tok
          /\ ((forall other : Row,
                 other ∈ rows srv -> share_token (doc other) = Some tok -> other = r) ->
              r' = r)
          /\ fetchClientProposals (serve srv) props stored st
             = {| proposals := [doc r'];
                  selectedProposal := Some (doc r');
                  loading := false;
                  error := None |})
  /\ (forall (srv : Server) (stored : option string) (st : State),
        sessions srv = ∅ ->
        error (fetchClientProposals (serve srv)
                 {| clientId := clientId props; shareToken := shareToken props;
                    isPublicAccess := false |} stored st)
        = Some "Failed to fetch proposals: Unauthorized").
Proof.
  intros Hpublic Htok Hne request.
  assert (forall stored, buildRequest props stored = request) as Hreq.
  { intros stored. unfold buildRequest. rewrite Hpublic, Htok.
    destruct tok; [done|reflexivity]. }
  assert (forall (backend : Request -> Response) (stored : option string) (st : State),
            fetchClientProposals backend props stored st
            = if ok (backend request)
              then
                let proposalList :=
                  match json (backend request) with Arr l => l | Obj p => [p] end in
                {| proposals := proposalList;
                   selectedProposal :=
                     match proposalList with
                     | p :: _ => Some p
                     | [] => selectedProposal st
                     end;
                   loading := false;
                   error := None |}
              else
                {| proposals := proposals st;
                   selectedProposal := selectedProposal st;
                   loading := false;
                   error := Some ("Failed to fetch proposals: "
                                  +:+ statusText (backend request)) |}) as Hfetch.
  { intros backend stored st. unfold fetchClientProposals. rewrite (Hreq stored).
    by destruct (ok (backend request)). }
  split_and!.
  - exact Hreq.
  - exact Hfetch.
  - intros backend stored stored' st. by rewrite !Hfetch.
  - intros srv stored st r Hr Hcarries. rewrite Hfetch. subst request.
    rewrite serve_shared.
    assert (r ∈ filter (fun r => hasToken tok r = true) (rows srv)) as Hfound.
    { apply list_elem_of_filter. split; [|done]. by apply bool_decide_eq_true. }
    destruct (filter (fun r => hasToken tok r = true) (rows srv))
      as [|r' others] eqn:Hfilter; [by inversion Hfound|].
    assert (r' ∈ filter (fun r => hasToken tok r = true) (rows srv)) as Hfirst
      by (rewrite Hfilter; left).
    apply list_elem_of_filter in Hfirst as [Hhas Hin].
    apply bool_decide_eq_true in Hhas.
    exists r'. split_and!; [done|done|by intros Honly; apply Honly|reflexivity].
  - intros srv stored st Hnobody. unfold fetchClientProposals, serve, buildRequest.
    cbn [url authorization isPublicAccess shareToken andb].
    change (Js.stripPrefix "/api/v1/proposals/shared/" _) with (@None string).
    cbv iota beta.
    match goal with
    | |- context [Js.stripPrefix "/api/v1/proposals/?" ?u] =>
        let v := eval vm_compute in (Js.stripPrefix "/api/v1/proposals/?" u) in
        change (Js.stripPrefix "/api/v1/proposals/?" u) with v
    end.
    cbv iota beta.
    assert (authenticate srv (bearer stored) = None) as ->.
    { unfold authenticate, bearer. rewrite stripPrefix_app. cbn.
      rewrite Hnobody. apply lookup_empty. }
    reflexivity.
Qed.

Lemma share_token_request_witness :
  fetchClientProposals (serve Samples.server) Samples.byLink None initialState
  = {| proposals := [Samples.acme];
       selectedProposal := Some Samples.acme;
       loading := false;
       error := None |}.
Proof.
  destruct (share_token_request Samples.byLink "s3cr3t")
    as (_ & _ & _ & Hserved & _); [reflexivity|reflexivity|discriminate|].
  destruct (Hserved Samples.server None initialState
              (mkRow Samples.acme (Some 7%N)))
    as (r' & _ & _ & Hsame & ->); [left|reflexivity|].
  rewrite Hsame; [reflexivity|].
  intros other Hin Hcarries. apply list_elem_of_In in Hin. simpl in Hin.
  destruct Hin as [<-|[<-|[<-|[]]]]; [reflexivity|discriminate|discriminate].
Defined.

(** Every proposal the portal lists for a logged-in client is shared with
    that client. *)
Lemma listed_is_shared
  (srv : Server) (props : ClientPortalProps) (stored : option string) (u : User)
  (p : Proposal) :
  role u = Auth.client ->
  authenticate srv (bearer stored) = Some u ->
  p ∈ proposals (fetchClientProposals (serve srv) props stored initialState) ->
  exists r : Row,
    r ∈ rows srv /\ doc r = p
    /\ (assigned_client r = Some (user_id u)
        \/ (isPublicAccess props = true
            /\ Js.truthy (shareToken props) = true
            /\ share_token p = shareToken props)).
Proof.
  intros Hrole Hauth. unfold fetchClientProposals.
  destruct (isPublicAccess props) eqn:Hpublic.
  - unfold buildRequest. rewrite Hpublic. cbn [andb].
    destruct (Js.truthy (shareToken props)) eqn:Htruthy.
    + destruct (truthy_show _ Htruthy) as (tok & Htok & Hshow & Hne).
      rewrite Hshow, serve_shared.
      destruct (filter _ (rows srv)) as [|r rest] eqn:Hfilter; cbn.
      * intros Hp. inversion Hp.
      * intros Hp. apply list_elem_of_singleton in Hp as ->.
        assert (r ∈ filter (fun r => hasToken tok r = true) (rows srv)) as Hr
          by (rewrite Hfilter; left).
        apply list_elem_of_filter in Hr as [Hhas Hr].
        exists r. split_and!; [done|done|]. right. split_and!; [done|done|].
        unfold hasToken in Hhas. apply bool_decide_eq_true in Hhas.
        by rewrite Htok.
    + unfold serve. cbn. intros Hp. inversion Hp.
  - rewrite (buildRequest_authenticated props stored Hpublic).
    rewrite (serve_list srv stored u Hauth). cbn.
    intros Hp. apply list_elem_of_fmap in Hp as (r & -> & Hr).
    apply list_elem_of_filter in Hr as [[Hvis _] Hr].
    exists r. split_and!; [done|done|]. left.
    unfold visibleTo in Hvis. rewrite Hrole in Hvis.
    unfold sharedWith in Hvis. by apply bool_decide_eq_true in Hvis.
Qed.

(** The authenticated listing of a client is a function of the proposals
    assigned to that client alone. *)
Lemma listing_ignores_other_clients
  (srv srv' : Server) (props : ClientPortalProps) (stored : option string) (u : User) :
  role u = Auth.client ->
  authenticate srv (bearer stored) = Some u ->
  authenticate srv' (bearer stored) = Some u ->
  isPublicAccess props = false ->
  filter (fun r => sharedWith u r = true) (rows srv')
  = filter (fun r => sharedWith u r = true) (rows srv) ->
  fetchClientProposals (serve srv') props stored initialState
  = fetchClientProposals (serve srv) props stored initialState.
Proof.
  intros Hrole Hauth Hauth' Hpublic Hsame. unfold fetchClientProposals.
  rewrite (buildRequest_authenticated props stored Hpublic).
  rewrite (serve_list srv stored u Hauth), (serve_list srv' stored u Hauth').
  set (P := fun r => visibleTo u r = true
                     ∧ statusWanted ["approved"; "sent"; "accepted"] r = true).
  assert (forall l : list Row,
            filter P l = filter P (filter (fun r => sharedWith u r = true) l))
    as Hnarrow.
  { intros l. symmetry. apply list_filter_filter_l.
    intros r [Hvis _]. unfold visibleTo in Hvis. by rewrite Hrole in Hvis. }
  by rewrite (Hnarrow (rows srv)), (Hnarrow (rows srv')), Hsame.
Qed.

(** C2. A user with the role client who is logged in sees, after the
    portal has fetched its list, only proposals that are shared with that
    user: each one is stored on the server either assigned to this client
    or under the share token the portal was opened with.  What the
    authenticated listing shows does not depend on the proposals of other
    clients: two stores that agree on the proposals assigned to this client
    give the same portal state. *)
Theorem client_listing_only_shared
  (srv : Server) (props : ClientPortalProps) (stored : option string) (u : User) :
  role u = Auth.client ->
  authenticate srv (bearer stored) = Some u ->
  (forall p : Proposal,
     p ∈ proposals (fetchClientProposals (serve srv) props stored initialState) ->
     exists r : Row,
       r ∈ rows srv /\ doc r = p
       /\ (assigned_client r = Some (user_id u)
           \/ (isPublicAccess props = true
               /\ Js.truthy (shareToken props) = true
               /\ share_token p = shareToken props)))
  /\ (forall srv' : Server,
        authenticate srv' (bearer stored) = Some u ->
        isPublicAccess props = false ->
        filter (fun r => sharedWith u r = true) (rows srv')
        = filter (fun r => sharedWith u r = true) (rows srv) ->
        fetchClientProposals (serve srv') props stored initialState
        = fetchClientProposals (serve srv) props stored initialState).
Proof.
  intros Hrole Hauth. split.
  - intros p. by apply listed_is_shared.
  - intros srv' Hauth' Hpublic Hsame. by eapply listing_ignores_other_clients.
Qed.

Example client_listing_sample :
  proposals (fetchClientProposals (serve Samples.server) Samples.loggedIn
               (Some "jwt") initialState) = [Samples.acme].
Proof. vm_compute. reflexivity. Qed.

Example shared_link_sample :
  proposals (fetchClientProposals (serve Samples.server) Samples.byLink
               None initialState) = [Samples.acme].
Proof. vm_compute. reflexivity. Qed.

Lemma client_listing_only_shared_witness :
  exists r : Row,
    r ∈ rows Samples.server /\ doc r = Samples.acme
    /\ (assigned_client r = Some (user_id Samples.acmeUser)
        \/ (isPublicAccess Samples.loggedIn = true
            /\ Js.truthy (shareToken Samples.loggedIn) = true
            /\ share_token Samples.acme = shareToken Samples.loggedIn)).
Proof.
  destruct (client_listing_only_shared Samples.server Samples.loggedIn (Some "jwt")
              Samples.acmeUser) as [Hlisted _].
  - reflexivity.
  - vm_compute. reflexivity.
  - apply Hlisted. rewrite client_listing_sample. left.
Defined.

End ClientPortalClaims.

(** ** Proposal editor *)

Section ProposalEditorClaims.
Import ProposalEditor ProposalService.

Lemma parse_status_name (s : ProposalStatus) : parse_status (status_name s) = Some s.
Proof. by destruct s. Qed.

Lemma parse_status_Some (w : string) (s : ProposalStatus) :
  parse_status w = Some s -> w = status_name s.
Proof.
  unfold parse_status. intros H.
  apply find_some in H as [_ Heq]. by apply String.eqb_eq in Heq.
Qed.

(** A status update either fails and changes nothing, or moves the one
    proposal along an allowed edge. *)
Lemma updateProposal_status (ctx : Context) (b : Backend) (pid : N) (w : string) :
  match updateProposal ctx b pid (SetStatus w) with
  | inl err =>
      (store b !! pid = None /\ err = ErrorWith "ValidationError")
      \/ (exists p, store b !! pid = Some p
                    /\ err = ErrorWith "InvalidTransition"
                    /\ forall new, parse_status w = Some new ->
                                   allowed (status p) new = false)
  | inr (b', p') =>
      exists p new,
        store b !! pid = Some p /\ parse_status w = Some new
        /\ allowed (status p) new = true
        /\ p' = withStatus p new
        /\ store b' = <[pid := p']> (store b)
  end.
Proof.
  unfold updateProposal.
  destruct (store b !! pid) as [p|] eqn:Hp; [|by left].
  destruct (parse_status w) as [new|] eqn:Hw.
  - destruct (allowed (status p) new) eqn:Hallowed.
    + exists p, new. by split_and!.
    + right. exists p. split_and!; [done|done|]. by intros ? [= <-].
  - right. exists p. by split_and!.
Qed.

Example completed_is_rejected (ctx : Context) (b : Backend) (pid : N) (p : Proposal) :
  store b !! pid = Some p ->
  updateProposal ctx b pid (SetStatus "completed") = inl (ErrorWith "InvalidTransition").
Proof. intros Hp. unfold updateProposal. by rewrite Hp. Qed.

(** C1. A status change requested from the editor moves the stored status
    only along an allowed edge of the flow draft, in_review, approved, sent,
    accepted or rejected.  When the edge is allowed the proposal is stored
    and shown with the new status; otherwise the backend and the proposal
    shown are unchanged and the editor reports [InvalidTransition].  In
    either case every stored proposal keeps its status or has moved along an
    allowed edge.  The service answers [InvalidTransition] to any requested
    status, known or not, that is not reached by an allowed edge. *)
Theorem status_change_follows_flow
  (ctx : Context) (b : Backend) (pid : N) (st : State) (p : Proposal)
  (newStatus : ProposalStatus) :
  store b !! pid = Some p ->
  is_Some (proposal st) ->
  let out := handleStatusChange (updateProposal ctx) pid st b newStatus in
  (allowed (status p) newStatus = true ->
     store (backend out) !! pid = Some (withStatus p newStatus)
     /\ proposal (state out) = Some (withStatus p newStatus)
     /\ notified out = [newStatus])
  /\ (allowed (status p) newStatus = false ->
        backend out = b
        /\ proposal (state out) = proposal st
        /\ error (state out) = Some "InvalidTransition"
        /\ notified out = [])
  /\ (forall pid' q,
        store b !! pid' = Some q ->
        exists q', store (backend out) !! pid' = Some q'
                   /\ (status q' = status q
                       \/ allowed (status q) (status q') = true))
  /\ (forall requested : string,
        (forall new, parse_status requested = Some new ->
                     allowed (status p) new = false) ->
        updateProposal ctx b pid (SetStatus requested)
        = inl (ErrorWith "InvalidTransition")).
Proof.
  intros Hp [shown Hshown] out. subst out.
  assert (forall requested : string,
            (forall new, parse_status requested = Some new ->
                         allowed (status p) new = false) ->
            updateProposal ctx b pid (SetStatus requested)
            = inl (ErrorWith "InvalidTransition")) as Hwire.
  { intros requested Hbad. unfold updateProposal. rewrite Hp.
    destruct (parse_status requested) as [new|]; [|done].
    by rewrite (Hbad new eq_refl). }
  unfold handleStatusChange. rewrite Hshown.
  pose proof (updateProposal_status ctx b pid (status_name newStatus)) as Hupd.
  destruct (updateProposal ctx b pid (SetStatus (status_name newStatus)))
    as [err|[b' p']].
  - destruct Hupd as [[Hnone _]|(p0 & Hp0 & -> & Hbad)]; [congruence|].
    assert (p0 = p) as -> by congruence.
    specialize (Hbad newStatus (parse_status_name newStatus)).
    cbn. split_and!.
    + congruence.
    + done.
    + intros pid' q Hq. exists q. split; [done|by left].
    + exact Hwire.
  - destruct Hupd as (p0 & new & Hp0 & Hnew & Hallowed & -> & Hstore).
    assert (p0 = p) as -> by congruence.
    rewrite parse_status_name in Hnew. injection Hnew as <-.
    cbn. split_and!.
    + intros _. rewrite Hstore, lookup_insert_eq. done.
    + congruence.
    + intros pid' q Hq. rewrite Hstore.
      destruct (decide (pid = pid')) as [<-|Hne].
      * rewrite lookup_insert_eq. eexists. split; [done|].
        assert (q = p) as -> by congruence. by right.
      * rewrite lookup_insert_ne by done. exists q. split; [done|by left].
    + exact Hwire.
Qed.

Lemma status_change_follows_flow_witness :
  error (state (handleStatusChange (updateProposal Samples.staff) 1 Samples.editor
                  Samples.backend approved))
  = Some "InvalidTransition"
  /\ backend (handleStatusChange (updateProposal Samples.staff) 1 Samples.editor
                Samples.backend approved)
     = Samples.backend.
Proof.
  destruct (status_change_follows_flow Samples.staff Samples.backend 1
              Samples.editor Samples.draftProposal approved)
    as (_ & Hbad & _).
  - vm_compute. reflexivity.
  - by eexists.
  - destruct Hbad as (Hb & _ & Herr & _); [reflexivity|]. by split.
Defined.

Example status_change_allowed_sample :
  status <$> proposal (state (handleStatusChange (updateProposal Samples.staff) 1
                                Samples.editor Samples.backend in_review))
  = Some in_review.
Proof. vm_compute. reflexivity. Qed.

Example parse_two_sections :
  parseContentIntoSections Samples.twoSections
  = [ mkSection "section-0" "Hi there" "<h2>Hi <b>there</b></h2>A" false false;
      mkSection "section-1" "Untitled Section" ("B" +:+ Js.newline +:+ "C") true true ].
Proof. vm_compute. reflexivity. Qed.

Example save_two_sections :
  updatedContent (parseContentIntoSections Samples.twoSections)
  = "<section class=" +:+ Js.dquote +:+ "section " +:+ Js.dquote
    +:+ "><h2>Hi <b>there</b></h2>A</section>" +:+ Js.newline
    +:+ "<section class=" +:+ Js.dquote +:+ "section ai-generated" +:+ Js.dquote
    +:+ ">B" +:+ Js.newline +:+ "C</section>".
Proof. vm_compute. reflexivity. Qed.

(** After a save the header section has lost its class and parses as
    editable. *)
Example header_becomes_editable :
  editable <$> parseContentIntoSections
                 (updatedContent (parseContentIntoSections Samples.twoSections))
  = [true; true].
Proof. vm_compute. reflexivity. Qed.

(** The opening of every section element written by [handleSave]. *)
Lemma sectionHtml_open (section : EditableSection) :
  exists rest,
    sectionHtml section = "<section class=" +:+ Js.dquote +:+ "section " +:+ rest.
Proof. unfold sectionHtml. eexists. reflexivity. Qed.

Lemma parseContentIntoSections_nonempty (content : string) :
  exists section rest, parseContentIntoSections content = section :: rest.
Proof.
  unfold parseContentIntoSections.
  destruct (imap sectionOfMatch _) as [|section rest]; eauto.
Qed.

Lemma updatedContent_cons (section : EditableSection) (rest : list EditableSection) :
  exists tail, updatedContent (section :: rest) = sectionHtml section +:+ tail.
Proof.
  unfold updatedContent, Js.join. rewrite fmap_cons.
  destruct (sectionHtml <$> rest) as [|x xs].
  - exists EmptyString. by rewrite string_app_nil_r.
  - eexists. reflexivity.
Qed.

(** C7, as stated, fails: plain content comes back wrapped in a section
    element. *)
Lemma parse_then_save_changes_content :
  updatedContent (parseContentIntoSections "Hello")
  = "<section class=" +:+ Js.dquote +:+ "section " +:+ Js.dquote +:+ ">Hello</section>"
  /\ updatedContent (parseContentIntoSections "Hello") <> "Hello".
Proof. vm_compute. split; [reflexivity|discriminate]. Qed.

(** C7 (amended). Creating a proposal and then fetching it by id returns
    the content and status that were stored.  Parsing content into sections
    and then saving does not in general give the content back: what is
    saved is each section's content wrapped in a section element of class
    [section ] or [section ai-generated], joined by line feeds.  It always
    starts with the opening of such an element, so it can equal the original
    only if the original starts that way, and content in which the section
    pattern finds no match is saved as one wrapped section, which differs
    from the original. *)
Theorem create_fetch_and_save_roundtrip
  (ctx : Context) (b : Backend) (p : Proposal) (c : string) :
  Regex.execAll sectionRegex c 0 = [] ->
  (exists p',
     getProposal (createProposal ctx b p).1 (id (createProposal ctx b p).2) = inr p'
     /\ content p' = content p /\ status p' = status p)
  /\ (forall c' : string,
        exists rest,
          updatedContent (parseContentIntoSections c')
          = "<section class=" +:+ Js.dquote +:+ "section " +:+ rest)
  /\ (forall sections : list EditableSection,
        updatedContent sections = Js.join Js.newline (sectionHtml <$> sections))
  /\ updatedContent (parseContentIntoSections c)
     = "<section class=" +:+ Js.dquote +:+ "section " +:+ Js.dquote +:+ ">"
       +:+ c +:+ "</section>"
  /\ updatedContent (parseContentIntoSections c) <> c.
Proof.
  intros Hnone.
  assert (updatedContent (parseContentIntoSections c)
          = "<section class=" +:+ Js.dquote +:+ "section " +:+ Js.dquote +:+ ">"
            +:+ c +:+ "</section>") as Hsaved.
  { unfold parseContentIntoSections. rewrite Hnone. reflexivity. }
  split_and!.
  - unfold createProposal, getProposal. cbn.
    rewrite lookup_insert_eq. eexists. by split_and!.
  - intros c'.
    destruct (parseContentIntoSections_nonempty c') as (section & rest & ->).
    destruct (updatedContent_cons section rest) as [tail ->].
    destruct (sectionHtml_open section) as [rest' ->].
    exists (rest' +:+ tail). cbn. by rewrite string_app_assoc.
  - reflexivity.
  - exact Hsaved.
  - rewrite Hsaved. intros Heq.
    apply (f_equal String.length) in Heq.
    rewrite !string_app_length in Heq.
    unfold Js.dquote in Heq. simpl in Heq. lia.
Qed.

Lemma create_fetch_and_save_roundtrip_witness :
  updatedContent (parseContentIntoSections "<p>Hello</p>") <> "<p>Hello</p>".
Proof.
  destruct (create_fetch_and_save_roundtrip Samples.staff Samples.backend
              Samples.draftProposal "<p>Hello</p>") as (_ & _ & _ & _ & Hne).
  - vm_compute. reflexivity.
  - exact Hne.
Defined.

End ProposalEditorClaims.

(** * Further properties of the components *)

(** ** Upload widget: batches *)

Section UploadBatchFacts.
Import FileUpload UploadActions.

Lemma scanFiles_aligned props nfiles fresh fileList : forall n,
  Forall2 recordOf
          (filter (fun file => validateFile props nfiles file = None) fileList)
          (scanFiles props nfiles fresh n fileList).1.
Proof.
  induction fileList as [|file rest IH]; intros n; simpl; [constructor|].
  specialize (IH (S n)).
  destruct (scanFiles props nfiles fresh (S n) rest) as [newFiles errors].
  simpl in IH. rewrite filter_cons.
  destruct (validateFile props nfiles file) as [msg|] eqn:Hv;
    case_decide; try done; simpl.
  constructor; [by repeat split|done].
Qed.

Lemma handleFiles_records props st fresh fileList job :
  (handleFiles props st fresh fileList).2 = Some job ->
  job_records job = (scanFiles props (length (files st)) fresh 0 fileList).1.
Proof.
  unfold handleFiles.
  destruct (scanFiles props (length (files st)) fresh 0 fileList) as [newFiles errors].
  destruct newFiles; simpl; [discriminate|]. by intros [= <-].
Qed.

(** X1. The upload that [handleFiles] starts pairs files and records by
    index: both lists have the same length, and the i-th record carries
    the name, size and type of the i-th file and is in status
    [uploading]; the [file_type] field of the form sent for the file is
    the type shown in its record. *)
Theorem upload_job_aligned
  (props : FileUploadProps) (st : State) (fresh : nat -> string)
  (fileList : list File) (job : UploadJob) :
  (handleFiles props st fresh fileList).2 = Some job ->
  length (job_files job) = length (job_records job)
  /\ Forall2 recordOf (job_files job) (job_records job)
  /\ forall (i : nat) (file : File) (r : UploadedFile) (settings : UploadSettings),
       job_files job !! i = Some file -> job_records job !! i = Some r ->
       (uploadForm props settings file) !! 1%nat
       = Some ("file_type", Text (fileTypeName (file_type r))).
Proof.
  intros Hjob.
  assert (Forall2 recordOf (job_files job) (job_records job)) as Hall.
  { rewrite (handleFiles_job props _ _ _ _ Hjob), (handleFiles_records _ _ _ _ _ Hjob).
    apply scanFiles_aligned. }
  split_and!.
  - by eapply Forall2_length.
  - exact Hall.
  - intros i file r settings Hfile Hr.
    destruct (Forall2_lookup_lr _ _ _ _ _ _ Hall Hfile Hr) as (_ & _ & Htype & _).
    unfold uploadForm. cbn. by rewrite Htype.
Qed.

Lemma upload_job_aligned_witness :
  exists job,
    (handleFiles defaultProps Samples.emptyState Samples.constId
       [Samples.scanPdf; Samples.logoPng]).2 = Some job
    /\ length (job_files job) = length (job_records job).
Proof.
  eexists. split; [reflexivity|].
  eapply (upload_job_aligned defaultProps Samples.emptyState Samples.constId
            [Samples.scanPdf; Samples.logoPng]).
  reflexivity.
Defined.

Lemma scanFiles_none_valid props nfiles fresh fileList : forall n,
  Forall (fun file => validate props nfiles file <> None) fileList ->
  (scanFiles props nfiles fresh n fileList).1 = []
  /\ Forall2 (fun file line =>
                exists e, validate props nfiles file = Some e
                          /\ line = name file +:+ ": " +:+ message e)
             fileList (scanFiles props nfiles fresh n fileList).2.
Proof.
  induction fileList as [|file rest IH]; intros n Hall; simpl; [by split|].
  apply Forall_cons in Hall as [Hfile Hrest].
  destruct (IH (S n) Hrest) as [Hnew Hlines].
  destruct (scanFiles props nfiles fresh (S n) rest) as [newFiles errors].
  simpl in *. unfold validateFile.
  destruct (validate props nfiles file) as [e|] eqn:Hv; [|done]. simpl.
  split; [done|]. constructor; [by exists e|done].
Qed.

(** X2. When every file of a non-empty batch fails validation, nothing is
    stored and no upload is started, and the error shown has one line per
    file of the batch, in batch order, each made of the file name and the
    message of the check that failed. *)
Theorem handleFiles_all_rejected
  (props : FileUploadProps) (st : State) (fresh : nat -> string)
  (fileList : list File) :
  fileList <> [] ->
  Forall (fun file => validate props (length (files st)) file <> None) fileList ->
  (handleFiles props st fresh fileList).2 = None
  /\ files (handleFiles props st fresh fileList).1 = files st
  /\ uploading_flag (handleFiles props st fresh fileList).1 = uploading_flag st
  /\ exists lines,
       error_state (handleFiles props st fresh fileList).1
       = Some (Js.join Js.newline lines)
       /\ Forall2 (fun file line =>
                     exists e, validate props (length (files st)) file = Some e
                               /\ line = name file +:+ ": " +:+ message e)
                  fileList lines.
Proof.
  intros Hne Hall.
  destruct (scanFiles_none_valid props _ fresh fileList 0 Hall) as [Hnew Hlines].
  unfold handleFiles.
  destruct (scanFiles props (length (files st)) fresh 0 fileList) as [newFiles errors].
  simpl in *. subst newFiles.
  destruct errors as [|line lines].
  - apply Forall2_length in Hlines. by destruct fileList.
  - split_and!; try done. by exists (line :: lines).
Qed.

Lemma handleFiles_all_rejected_witness :
  error_state (handleFiles defaultProps Samples.emptyState Samples.constId
                 [Samples.scanPdf; Samples.toolExe]).1
  <> None.
Proof.
  destruct (handleFiles_all_rejected defaultProps Samples.emptyState Samples.constId
              [Samples.scanPdf; Samples.toolExe])
    as (_ & _ & _ & lines & -> & _); [done| |done].
  repeat constructor; vm_compute; discriminate.
Defined.

(** X3. Once [maxFiles] files are stored, every file of every batch is
    rejected, whatever its size and type: the stored list stays as it is
    and no upload is started. *)
Theorem handleFiles_when_full
  (props : FileUploadProps) (st : State) (fresh : nat -> string)
  (fileList : list File) :
  maxFiles props <= length (files st) ->
  Forall (fun file => validateFile props (length (files st)) file <> None) fileList
  /\ files (handleFiles props st fresh fileList).1 = files st
  /\ (handleFiles props st fresh fileList).2 = None.
Proof.
  intros Hfull.
  assert (Forall (fun file => validate props (length (files st)) file <> None) fileList)
    as Hall.
  { apply Forall_forall. intros file _. rewrite validate_cases.
    destruct (maxFileSize props <? size file)%N; [done|].
    destruct (Js.arr_includes _ _); [|done].
    destruct (Nat.leb_spec (maxFiles props) (length (files st))); [done|lia]. }
  split.
  - eapply Forall_impl; [exact Hall|]. intros file Hfile Hnone.
    by apply Hfile, validateFile_None.
  - destruct (scanFiles_none_valid props _ fresh fileList 0 Hall) as [Hnew _].
    unfold handleFiles.
    destruct (scanFiles props (length (files st)) fresh 0 fileList) as [newFiles errors].
    simpl in Hnew. by subst newFiles.
Qed.

Lemma handleFiles_when_full_witness :
  files (handleFiles {| proposalId := None; maxFiles := 9; maxFileSize := 1000000;
                        allowedTypes := [".png"] |}
           Samples.nineStored Samples.constId [Samples.logoPng]).1
  = files Samples.nineStored.
Proof.
  eapply (handleFiles_when_full {| proposalId := None; maxFiles := 9;
                                   maxFileSize := 1000000; allowedTypes := [".png"] |}).
  simpl. lia.
Defined.

Lemma scanFiles_some_valid props nfiles fresh fileList file : forall n,
  file ∈ fileList -> validate props nfiles file = None ->
  (scanFiles props nfiles fresh n fileList).1 <> [].
Proof.
  induction fileList as [|file' rest IH]; intros n Hin Hok; [by inversion Hin|].
  simpl. specialize (IH (S n)).
  destruct (scanFiles props nfiles fresh (S n) rest) as [newFiles errors].
  destruct (validateFile props nfiles file') as [msg|] eqn:Hv; simpl; [|done].
  apply elem_of_cons in Hin as [->|Hin].
  - apply validateFile_None in Hok. congruence.
  - by apply IH.
Qed.

(** X4. When at least one file of a batch passes validation, an upload is
    started, the uploading flag is set and the error state is cleared: the
    messages of the files of the same batch that were rejected are not
    shown. *)
Theorem handleFiles_accepting_clears_error
  (props : FileUploadProps) (st : State) (fresh : nat -> string)
  (fileList : list File) (file : File) :
  file ∈ fileList ->
  validateFile props (length (files st)) file = None ->
  error_state (handleFiles props st fresh fileList).1 = None
  /\ uploading_flag (handleFiles props st fresh fileList).1 = true
  /\ exists job, (handleFiles props st fresh fileList).2 = Some job
                 /\ file ∈ job_files job.
Proof.
  intros Hin Hok.
  pose proof (scanFiles_some_valid props _ fresh fileList file 0 Hin
                (proj1 (validateFile_None _ _ _) Hok)) as Hsome.
  unfold handleFiles.
  destruct (scanFiles props (length (files st)) fresh 0 fileList) as [newFiles errors].
  simpl in Hsome. destruct newFiles as [|r newFiles]; [done|]. simpl.
  split_and!; [done|done|]. eexists. split; [done|]. simpl.
  by apply list_elem_of_filter.
Qed.

Lemma handleFiles_accepting_clears_error_witness :
  error_state (handleFiles defaultProps Samples.emptyState Samples.constId
                 [Samples.scanPdf; Samples.logoPng]).1 = None.
Proof.
  eapply (handleFiles_accepting_clears_error defaultProps Samples.emptyState
            Samples.constId [Samples.scanPdf; Samples.logoPng] Samples.logoPng).
  - right. left.
  - vm_compute. reflexivity.
Defined.

End UploadBatchFacts.

(** ** Upload widget: completion and removal *)

Section UploadCompletionFacts.
Import FileUpload UploadActions.

Lemma settle_length r x prev : length (settle r x prev) = length prev.
Proof. unfold settle. destruct (attempt x); by rewrite length_fmap. Qed.

Lemma settle_fields r x prev :
  filename <$> settle r x prev = filename <$> prev
  /\ file_size <$> settle r x prev = file_size <$> prev
  /\ file_type <$> settle r x prev = file_type <$> prev.
Proof.
  unfold settle.
  destruct (attempt x); rewrite <- !list_fmap_compose;
    split_and!; apply list_fmap_ext; intros i f _; simpl; by case_decide.
Qed.

Lemma settle_other r x prev i f :
  prev !! i = Some f -> id f <> id r -> settle r x prev !! i = Some f.
Proof.
  intros Hf Hne. unfold settle.
  destruct (attempt x); rewrite list_lookup_fmap, Hf; simpl; by case_decide.
Qed.

(** A completion for an id that no record carries changes nothing. *)
Lemma settle_absent r x prev :
  Forall (fun f => id f <> id r) prev -> settle r x prev = prev.
Proof.
  intros Hall. unfold settle.
  destruct (attempt x); induction Hall as [|f l Hf _ IH]; simpl; try done;
    rewrite decide_False by done; f_equal; exact IH.
Qed.

Lemma settled_fields settled : forall prev,
  let after := fold_left (fun prev rx => settle rx.1 rx.2 prev) settled prev in
  length after = length prev
  /\ filename <$> after = filename <$> prev
  /\ file_size <$> after = file_size <$> prev
  /\ file_type <$> after = file_type <$> prev.
Proof.
  induction settled as [|[r x] rest IH]; intros prev; simpl; [done|].
  destruct (IH (settle r x prev)) as (Hlen & Hname & Hsize & Htype).
  destruct (settle_fields r x prev) as (Hname' & Hsize' & Htype').
  split_and!; [by rewrite Hlen, settle_length|congruence..].
Qed.

Lemma settled_other settled : forall prev i f,
  prev !! i = Some f ->
  id f ∉ (fun rx => id rx.1) <$> settled ->
  fold_left (fun prev rx => settle rx.1 rx.2 prev) settled prev !! i = Some f.
Proof.
  induction settled as [|[r x] rest IH]; intros prev i f Hf Hnot; simpl; [done|].
  rewrite fmap_cons in Hnot. apply not_elem_of_cons in Hnot as [Hne Hnot].
  apply IH; [|done]. by apply settle_other.
Qed.

(** X5. However the uploads end and in whatever order, completing them
    never adds, removes or reorders records and never changes the file
    name, size or type of a record; a record whose id is not the id of a
    started upload is left exactly as it was. *)
Theorem uploadFiles_keeps_records
  (closure : list UploadedFile) (settled : list (UploadedFile * Exchange))
  (w : Widget) :
  let after := files (core (uploadFiles closure settled w).1) in
  length after = length (files (core w))
  /\ filename <$> after = filename <$> files (core w)
  /\ file_size <$> after = file_size <$> files (core w)
  /\ file_type <$> after = file_type <$> files (core w)
  /\ forall (i : nat) (f : UploadedFile),
       files (core w) !! i = Some f ->
       id f ∉ (fun rx => id rx.1) <$> settled ->
       after !! i = Some f.
Proof.
  intros after. subst after. cbn [uploadFiles fst core files].
  destruct (settled_fields settled (files (core w))) as (? & ? & ? & ?).
  split_and!; try done. intros i f. apply settled_other.
Qed.

Lemma uploadFiles_keeps_records_witness :
  files (core (uploadFiles [] [(MoreSamples.pendingLogo, MoreSamples.accepted)]
                 MoreSamples.uploadingWidget).1) !! 1%nat
  = Some MoreSamples.pendingChart.
Proof.
  eapply (uploadFiles_keeps_records [] [(MoreSamples.pendingLogo, MoreSamples.accepted)]
            MoreSamples.uploadingWidget).
  - reflexivity.
  - intros Hin. apply list_elem_of_singleton in Hin. discriminate Hin.
Defined.

(** X6. The success message and the call of [onUploadComplete] are
    computed from the file list the function closed over when the upload
    began: they do not depend on how the uploads ended.  When that list
    holds no ready file, the message reports 0 files and
    [onUploadComplete] is not called, even if every upload succeeded. *)
Theorem uploadFiles_reports_closure
  (closure : list UploadedFile) (settled settled' : list (UploadedFile * Exchange))
  (w w' : Widget) :
  success (uploadFiles closure settled w).1 = success (uploadFiles closure settled' w').1
  /\ (uploadFiles closure settled w).2 = (uploadFiles closure settled' w').2
  /\ uploading_flag (core (uploadFiles closure settled w).1) = false
  /\ error_state (core (uploadFiles closure settled w).1) = None
  /\ (Forall (fun f => status f <> ready) closure ->
        success (uploadFiles closure settled w).1
        = Some "Successfully uploaded 0 file(s)"
        /\ (uploadFiles closure settled w).2 = None).
Proof.
  split_and!; try reflexivity.
  intros Hnone. unfold uploadFiles.
  assert (filter (fun f => status f = ready) closure = []) as ->; [|done].
  induction Hnone as [|f l Hf _ IH]; [done|].
  rewrite filter_cons. by rewrite decide_False.
Qed.

Lemma uploadFiles_reports_closure_witness :
  success (uploadFiles [] [(MoreSamples.pendingLogo, MoreSamples.accepted);
                           (MoreSamples.pendingChart, MoreSamples.accepted)]
             MoreSamples.uploadingWidget).1
  = Some "Successfully uploaded 0 file(s)"
  /\ status <$> files (core (uploadFiles [] [(MoreSamples.pendingLogo, MoreSamples.accepted);
                                             (MoreSamples.pendingChart, MoreSamples.accepted)]
                               MoreSamples.uploadingWidget).1)
     = [ready; ready].
Proof.
  split; [|vm_compute; reflexivity].
  eapply (uploadFiles_reports_closure [] _ [] MoreSamples.uploadingWidget
            MoreSamples.uploadingWidget).
  constructor.
Defined.

(** X7. [removeFile] removes exactly the records that carry the given id
    and keeps the others in order.  If the upload of a removed record ends
    afterwards, its completion changes nothing: the record does not come
    back and no other record is altered. *)
Theorem removeFile_then_completion
  (fileId : string) (w : Widget) :
  (forall r : UploadedFile,
     r ∈ files (core (removeFile fileId w))
     <-> r ∈ files (core w) /\ id r <> fileId)
  /\ (files (core (removeFile fileId w))) `sublist_of` (files (core w))
  /\ removeFile fileId (removeFile fileId w) = removeFile fileId w
  /\ (forall (r : UploadedFile) (x : Exchange),
        id r = fileId ->
        settle r x (files (core (removeFile fileId w)))
        = files (core (removeFile fileId w))).
Proof.
  split_and!.
  - intros r. cbn. rewrite list_elem_of_filter. tauto.
  - cbn. apply sublist_filter.
  - unfold removeFile, withCore, withFiles. cbn.
    rewrite list_filter_filter. do 2 f_equal.
    apply list_filter_iff. tauto.
  - intros r x <-. apply settle_absent. cbn.
    apply Forall_forall. intros f Hf. by apply list_elem_of_filter in Hf as [? _].
Qed.

Lemma removeFile_then_completion_witness :
  settle MoreSamples.pendingLogo MoreSamples.refused
    (files (core (removeFile "tmp-1" MoreSamples.uploadingWidget)))
  = files (core (removeFile "tmp-1" MoreSamples.uploadingWidget)).
Proof.
  eapply (removeFile_then_completion "tmp-1" MoreSamples.uploadingWidget).
  reflexivity.
Defined.

Example removed_upload_stays_removed :
  filename <$> settle MoreSamples.pendingLogo MoreSamples.accepted
                 (files (core (removeFile "tmp-1" MoreSamples.uploadingWidget)))
  = ["chart.gif"].
Proof. vm_compute. reflexivity. Qed.

End UploadCompletionFacts.

(** ** Upload widget: sizes and extensions *)

Section UploadNameFacts.
Import FileUpload.
Local Open Scope N_scope.

Example formatFileSize_rounds_up : formatFileSize 1048575 = "1024 KB".
Proof. vm_compute. reflexivity. Qed.

(** X8. For a size of at least one byte and below [1024^4], the number
    [formatFileSize] prints in front of the unit is never below 1 and
    never above 1024.  The upper end is reached: a size of at least
    1023.995 of a unit, though below the next power of 1024, is rounded
    to 1024 of that unit and is shown as [1024 KB] (or MB, GB), not as 1
    of the next unit. *)
Theorem formatFileSize_number_range (b i : N) (unit : string) :
  let decimal := fun x : N => NilEmpty.string_of_uint (N.to_uint x) in
  ["Bytes"; "KB"; "MB"; "GB"] !! N.to_nat i = Some unit ->
  1024 ^ i <= b < 1024 ^ (i + 1) ->
  (exists h n d e : N,
     100 <= h <= 102400
     /\ h = 100 * n + 10 * d + e /\ d < 10 /\ e < 10
     /\ formatFileSize b
        = decimal n
          +:+ (if e =? 0
               then if d =? 0 then EmptyString else "." +:+ decimal d
               else "." +:+ decimal d +:+ decimal e)
          +:+ " " +:+ unit)
  /\ (204799 * 1024 ^ i <= 200 * b -> formatFileSize b = "1024 " +:+ unit).
Proof.
  intros decimal Hunit Hrange.
  destruct (formatFileSize_text b i unit Hunit Hrange) as [_ Htext].
  pose proof (toFixed2_nearest b i) as Hnear. cbv zeta in Htext, Hnear.
  destruct Hrange as [Hlo Hhi]. rewrite N.pow_add_r, N.pow_1_r in Hhi.
  assert (0 < k ^ i) as Hpos.
  { apply N.neq_0_lt_0, N.pow_nonzero. unfold k. lia. }
  change 1024 with k in Hlo, Hhi. unfold k in Hhi at 2.
  set (h := toFixed2 b i) in *. set (K := k ^ i) in *.
  assert (100 <= h <= 102400) as Hbounds by nia.
  split.
  - destruct (hundredths_digits h) as (Hh & _ & Hd & He).
    exists h, (h / 100), ((h mod 100) / 10), (h mod 10).
    split_and!; [apply Hbounds|apply Hbounds|exact Hh|exact Hd|exact He|].
    rewrite Htext, showHundredths_digits, string_app_assoc. reflexivity.
  - intros Hnear1024. change (204799 * K <= 200 * b) in Hnear1024.
    assert (204800 * K < (2 * (h + 1)) * K) as Hlift by lia.
    apply N.mul_lt_mono_pos_r in Hlift; [|exact Hpos].
    assert (h = 102400) as Hval by lia.
    rewrite Htext, Hval. clear. vm_compute. reflexivity.
Qed.

Lemma formatFileSize_number_range_witness :
  formatFileSize 1048575 = "1024 KB".
Proof.
  eapply (formatFileSize_number_range 1048575 1 "KB").
  - reflexivity.
  - vm_compute. split; congruence.
  - vm_compute. congruence.
Defined.

End UploadNameFacts.

Section ExtensionFacts.
Import FileUpload Chars.

Lemma lower_char_idem (c : ascii) : Js.lower_char (Js.lower_char c) = Js.lower_char c.
Proof. destruct c as [[] [] [] [] [] [] [] []]; reflexivity. Qed.

Lemma toLowerCase_idem (s : string) : Js.toLowerCase (Js.toLowerCase s) = Js.toLowerCase s.
Proof. induction s as [|c s IH]; simpl; [done|]. by rewrite lower_char_idem, IH. Qed.

Lemma includes_char (c : ascii) (s : string) :
  Js.includes s (String c EmptyString) = false <-> noChar c s.
Proof.
  induction s as [|x s IH]; [done|].
  cbn [Js.includes String.prefix noChar].
  rewrite orb_false_iff, IH.
  destruct (ascii_dec c x) as [->|Hne].
  - assert (String.prefix EmptyString s = true) as -> by (by destruct s).
    split; [by intros [? _]|by intros [? _]].
  - split; [intros [_ ?]; split; [congruence|done]|by intros [_ ?]].
Qed.

Lemma split_nonempty (sep : ascii) (s : string) : Js.split sep s <> [].
Proof.
  destruct s as [|c s]; simpl; [done|].
  destruct (Ascii.eqb c sep); [done|]. by destruct (Js.split sep s).
Qed.

Lemma split_noChar (sep : ascii) (s : string) :
  noChar sep s -> Js.split sep s = [s].
Proof.
  induction s as [|c s IH]; simpl; [done|]. intros [Hne Hs].
  destruct (Ascii.eqb_spec c sep) as [->|_]; [done|]. by rewrite (IH Hs).
Qed.

Lemma split_segments (sep : ascii) (s : string) :
  Forall (noChar sep) (Js.split sep s).
Proof.
  induction s as [|c s IH]; simpl; [by repeat constructor|].
  destruct (Ascii.eqb_spec c sep) as [->|Hne]; [by constructor|].
  destruct (Js.split sep s) as [|seg segs]; [by repeat constructor|].
  apply Forall_cons in IH as [Hseg Hsegs]. constructor; [by split|done].
Qed.

Lemma toLowerCase_noChar_dot (s : string) :
  noChar "." s -> noChar "." (Js.toLowerCase s).
Proof.
  induction s as [|c s IH]; simpl; [done|]. intros [Hne Hs]. split; [|by apply IH].
  revert Hne. destruct c as [[] [] [] [] [] [] [] []]; vm_compute; congruence.
Qed.

(** The segments of a text that ends in a separator and a rest: those of
    the rest come last. *)
Lemma split_after_sep (sep : ascii) (stem ext : string) :
  exists (first : string) (rest : list string),
    Js.split sep (stem +:+ String sep ext) = first :: (rest ++ Js.split sep ext).
Proof.
  induction stem as [|c stem (first & rest & IH)].
  - exists EmptyString, []. change (EmptyString +:+ String sep ext) with (String sep ext).
    cbn [Js.split]. by rewrite Ascii.eqb_refl.
  - rewrite string_app_cons. cbn [Js.split]. rewrite IH.
    destruct (Ascii.eqb c sep).
    + by exists EmptyString, (first :: rest).
    + by exists (String c first), rest.
Qed.

(** X9. The extension the widget checks is the text after the last dot of
    the lower-cased file name: when that name reads as a stem, a dot and
    a rest without dots, the extension is the rest, whatever dots the
    stem holds.  It never contains a dot, and for a name with no dot at
    all it is the whole lower-cased name.  Validation and typing read the
    name through its lower-cased form only, so they give the same result
    for a name and for its lower-cased spelling. *)
Theorem extension_of_name (props : FileUploadProps) (nfiles : nat) (file : File) :
  Js.includes (extension (name file)) "." = false
  /\ (exists ext, dottedExtension (name file) = "." +:+ ext
                  /\ Js.includes ext "." = false)
  /\ (Js.includes (name file) "." = false ->
        extension (name file) = Js.toLowerCase (name file)
        /\ dottedExtension (name file) = "." +:+ Js.toLowerCase (name file))
  /\ (forall stem ext : string,
        Js.toLowerCase (name file) = stem +:+ "." +:+ ext ->
        Js.includes ext "." = false ->
        extension (name file) = ext
        /\ dottedExtension (name file) = "." +:+ ext)
  /\ validateFile props nfiles
       (mkFile (Js.toLowerCase (name file)) (type file) (size file) (content file))
     = validateFile props nfiles file
  /\ getFileType (Js.toLowerCase (name file)) = getFileType (name file).
Proof.
  pose proof (split_segments "." (Js.toLowerCase (name file))) as Hsegs.
  pose proof (split_nonempty "." (Js.toLowerCase (name file))) as Hne.
  split_and!.
  - unfold extension, Js.pop.
    destruct (last (Js.split "." (Js.toLowerCase (name file)))) as [seg|] eqn:Hlast;
      [|done].
    apply last_Some_elem_of in Hlast.
    rewrite Forall_forall in Hsegs. specialize (Hsegs seg Hlast).
    destruct seg as [|c seg]; [done|]. by apply includes_char.
  - unfold dottedExtension, Js.pop.
    destruct (last (Js.split "." (Js.toLowerCase (name file)))) as [seg|] eqn:Hlast.
    + exists seg. split; [done|]. apply includes_char.
      apply last_Some_elem_of in Hlast.
      rewrite Forall_forall in Hsegs. by apply Hsegs.
    + by apply last_None in Hlast.
  - intros Hnodot. apply includes_char, toLowerCase_noChar_dot in Hnodot.
    unfold extension, dottedExtension, Js.pop.
    rewrite (split_noChar _ _ Hnodot). simpl.
    split; [|done]. by destruct (Js.toLowerCase (name file)).
  - intros stem ext Hname Hnodot. apply includes_char in Hnodot.
    unfold extension, dottedExtension, Js.pop. rewrite Hname.
    change (stem +:+ "." +:+ ext) with (stem +:+ String "." ext).
    destruct (split_after_sep "." stem ext) as (first & rest & ->).
    rewrite (split_noChar _ _ Hnodot), app_comm_cons, last_snoc. simpl.
    split; [|done]. by destruct ext.
  - unfold validateFile, validate, dottedExtension. cbn [name size].
    by rewrite toLowerCase_idem.
  - unfold getFileType, extension. by rewrite toLowerCase_idem.
Qed.

Lemma extension_of_name_witness :
  dottedExtension "Makefile" = ".makefile"
  /\ extension "Report.Final.PDF" = "pdf".
Proof.
  split.
  - destruct (extension_of_name defaultProps 0
                (mkFile "Makefile" "text/plain" 10 "all:"))
      as (_ & _ & Hnodot & _).
    apply Hnodot. reflexivity.
  - destruct (extension_of_name defaultProps 0
                (mkFile "Report.Final.PDF" "application/pdf" 10 "%PDF-"))
      as (_ & _ & _ & Hlast & _).
    apply (Hlast "report.final" "pdf"); reflexivity.
Defined.

End ExtensionFacts.

(** ** Proposal editor: sections *)

Section SectionEditingFacts.
Import ProposalEditor SectionEditing Regex.

Lemma of_N_inj (a b : N) : Js.of_N a = Js.of_N b -> a = b.
Proof.
  unfold Js.of_N. intros H.
  apply (f_equal NilEmpty.uint_of_string) in H.
  rewrite !NilEmpty.usu in H. injection H as H.
  apply (f_equal N.of_uint) in H. by rewrite !DecimalN.Unsigned.of_to in H.
Qed.

Lemma string_app_inv_l (p a b : string) : p +:+ a = p +:+ b -> a = b.
Proof. induction p as [|c p IH]; [done|]. intros [= H]. by apply IH. Qed.

Lemma imap_index {A B} (g : nat -> B) (l : list A) : forall n,
  imap (fun i _ => g (n + i)) l = g <$> List.seq n (length l).
Proof.
  induction l as [|x l IH]; intros n; [done|].
  cbn [imap length List.seq fmap list_fmap]. rewrite Nat.add_0_r. f_equal.
  rewrite <- (IH (S n)). apply imap_ext. intros i y _. simpl. f_equal. lia.
Qed.

Lemma parsed_ids (matches : list (list string)) :
  section_id <$> imap sectionOfMatch matches
  = (fun i => "section-" +:+ Js.of_N (N.of_nat i)) <$> List.seq 0 (length matches).
Proof.
  rewrite fmap_imap. rewrite <- (imap_index _ matches 0).
  apply imap_ext. by intros i caps _.
Qed.

(** X10. The sections that [parseContentIntoSections] returns have
    pairwise distinct ids, and there is always at least one section. *)
Theorem parsed_section_ids_distinct (content : string) :
  NoDup (section_id <$> parseContentIntoSections content)
  /\ parseContentIntoSections content <> [].
Proof.
  unfold parseContentIntoSections.
  destruct (imap sectionOfMatch (execAll sectionRegex content 0))
    as [|section rest] eqn:Hsections.
  - split; [|done]. cbn. apply NoDup_singleton.
  - split; [|done]. rewrite <- Hsections, parsed_ids.
    apply NoDup_fmap_2_strong; [|apply NoDup_seq].
    intros i j _ _ H. apply string_app_inv_l, of_N_inj in H. lia.
Qed.

Lemma stripPrefix_None (l s : string) :
  String.prefix l s = false -> Js.stripPrefix l s = None.
Proof.
  revert s. induction l as [|a l IH]; intros s; [by destruct s|].
  destruct s as [|b s]; [done|]. cbn [String.prefix Js.stripPrefix].
  destruct (ascii_dec a b) as [->|Hne].
  - rewrite Ascii.eqb_refl. apply IH.
  - intros _. by destruct (Ascii.eqb_spec a b).
Qed.

(** A pattern that starts with a literal finds nothing in a text that does
    not contain the literal. *)
Lemma matchAt_literal (l : string) (r : regex) (s : string) :
  String.prefix l s = false -> matchAt (Cat (Lit l) r) s = None.
Proof.
  intros H. unfold matchAt. cbn [run]. by rewrite (stripPrefix_None _ _ H).
Qed.

Lemma execAll_literal (l : string) (r : regex) (s : string) :
  Js.includes s l = false -> execAll (Cat (Lit l) r) s 0 = [].
Proof.
  induction s as [|c s IH]; [done|].
  cbn [Js.includes]. intros [Hhere Hrest]%orb_false_iff.
  cbn [execAll]. rewrite (matchAt_literal _ _ _ Hhere). by apply IH.
Qed.

Lemma search_literal (l : string) (r : regex) (s : string) :
  Js.includes s l = false -> search (Cat (Lit l) r) s = None.
Proof.
  induction s as [|c s IH].
  - cbn [Js.includes]. intros [Hhere _]%orb_false_iff.
    cbn [search]. by rewrite (matchAt_literal _ _ _ Hhere).
  - cbn [Js.includes]. intros [Hhere Hrest]%orb_false_iff.
    cbn [search]. rewrite (matchAt_literal _ _ _ Hhere). by apply IH.
Qed.

(** X11. Content that does not contain the text [<section] is parsed into
    exactly one section, the editable, not AI-generated section
    [main-content] titled [Main Content] that holds the whole content; and
    a section whose content does not contain [<h] is titled
    [Untitled Section]. *)
Theorem content_without_sections (content : string) :
  Js.includes content "<section" = false ->
  parseContentIntoSections content = [mainContent content]
  /\ execAll sectionRegex content 0 = []
  /\ (forall sectionContent : string,
        Js.includes sectionContent "<h" = false ->
        extractSectionTitle sectionContent = "Untitled Section").
Proof.
  intros Hplain.
  assert (execAll sectionRegex content 0 = []) as Hnone
    by (by apply (execAll_literal "<section")).
  split_and!.
  - unfold parseContentIntoSections. by rewrite Hnone.
  - exact Hnone.
  - intros sectionContent Hnoh. unfold extractSectionTitle.
    assert (search titleRegex sectionContent = None) as ->
      by (by apply (search_literal "<h")).
    reflexivity.
Qed.

Lemma content_without_sections_witness :
  parseContentIntoSections "<p>Hello</p>" = [mainContent "<p>Hello</p>"].
Proof. apply (content_without_sections "<p>Hello</p>"). reflexivity. Defined.

(** X12. [updateSectionContent] replaces the content of the sections that
    carry the given id and nothing else: the number and order of sections,
    their ids, their flags and their titles stay as they were (so the
    title shown is not refreshed from the new content), and an id that no
    section carries changes nothing. *)
Theorem updateSectionContent_keeps_shape
  (sectionId newContent : string) (e : Editor) :
  let after := sections (base (updateSectionContent sectionId newContent e)) in
  section_id <$> after = section_id <$> sections (base e)
  /\ title <$> after = title <$> sections (base e)
  /\ editable <$> after = editable <$> sections (base e)
  /\ aiGenerated <$> after = aiGenerated <$> sections (base e)
  /\ (forall (i : nat) (section : EditableSection),
        sections (base e) !! i = Some section ->
        after !! i
        = Some (if decide (section_id section = sectionId)
                then withContent section newContent else section))
  /\ (Forall (fun section => section_id section <> sectionId) (sections (base e)) ->
        updateSectionContent sectionId newContent e = e).
Proof.
  intros after. subst after. cbn.
  rewrite <- !list_fmap_compose.
  split_and!.
  1-4: apply list_fmap_ext; intros i section _; simpl; by case_decide.
  - intros i section Hi. by rewrite list_lookup_fmap, Hi.
  - intros Hall. destruct e as [[p l s m err] sel ld].
    unfold updateSectionContent, withSections. cbn in *. do 2 f_equal.
    induction Hall as [|section rest Hne _ IH]; [done|].
    cbn. rewrite decide_False by done. by f_equal.
Qed.

Lemma updateSectionContent_keeps_shape_witness :
  updateSectionContent "section-9" "<p>x</p>" MoreSamples.editing = MoreSamples.editing.
Proof.
  eapply (updateSectionContent_keeps_shape "section-9" "<p>x</p>" MoreSamples.editing).
  repeat constructor. vm_compute. discriminate.
Defined.

Example edited_title_is_stale :
  (fun section => (title section, section_content section))
    <$> sections (base (updateSectionContent "main-content" "<h1>Offer</h1>"
                          MoreSamples.editing))
  = [("Main Content", "<h1>Offer</h1>")].
Proof. vm_compute. reflexivity. Qed.

(** X13. Adding a section and then removing it gives back the sections
    there were, provided no section already carried the id of the new one;
    the new section is selected by the addition and the removal clears the
    selection.  Under the same proviso the addition keeps the ids
    distinct. *)
Theorem add_then_remove_section (now : N) (e : Editor) :
  Forall (fun section => section_id section <> "section-" +:+ Js.of_N now)
         (sections (base e)) ->
  sections (base (removeSection ("section-" +:+ Js.of_N now) (addSection now e)))
  = sections (base e)
  /\ selectedSection (addSection now e) = Some ("section-" +:+ Js.of_N now)
  /\ selectedSection (removeSection ("section-" +:+ Js.of_N now) (addSection now e))
     = None
  /\ (NoDup (section_id <$> sections (base e)) ->
        NoDup (section_id <$> sections (base (addSection now e)))).
Proof.
  intros Hfresh. split_and!.
  - unfold removeSection, addSection, withSections. cbn [base sections].
    rewrite filter_app, filter_cons, decide_False by (by intros []).
    rewrite filter_nil, app_nil_r.
    induction Hfresh as [|section rest Hne _ IH]; [done|].
    rewrite filter_cons, decide_True by done. by f_equal.
  - reflexivity.
  - cbn. by rewrite decide_True.
  - intros Hnodup. cbn. rewrite fmap_app. apply NoDup_app. split_and!.
    + done.
    + intros x Hx Hin. cbn in Hin. apply list_elem_of_singleton in Hin as ->.
      apply list_elem_of_fmap in Hx as (section & Heq & Hsection).
      rewrite Forall_forall in Hfresh. by apply (Hfresh section Hsection).
    + cbn. apply NoDup_singleton.
Qed.

Lemma add_then_remove_section_witness :
  sections (base (removeSection "section-1700000000000"
                    (addSection 1700000000000 MoreSamples.editing)))
  = sections (base MoreSamples.editing).
Proof.
  apply (add_then_remove_section 1700000000000 MoreSamples.editing).
  repeat constructor. vm_compute. discriminate.
Defined.

(** X14. Loading a proposal whose content is empty shows the new proposal
    but keeps the sections that were shown before; a save made then sends
    the content rebuilt from those earlier sections.  A load that fails
    keeps proposal and sections and reports the message. *)
Theorem load_empty_content_keeps_sections (data : Proposal) (e : Editor) :
  content data = EmptyString ->
  proposal (base (loadProposal (inr data) e)) = Some data
  /\ sections (base (loadProposal (inr data) e)) = sections (base e)
  /\ (forall (Backend : Type)
             (updateProposal : Backend -> N -> Patch -> Thrown + Backend * Proposal)
             (proposalId : N) (b b' : Backend) (saved : Proposal),
        updateProposal b proposalId (SetContent (updatedContent (sections (base e))))
        = inr (b', saved) ->
        backend (handleSave updateProposal proposalId (base (loadProposal (inr data) e)) b)
        = b'
        /\ notified (handleSave updateProposal proposalId
                       (base (loadProposal (inr data) e)) b)
           = [saved])
  /\ (forall err : Thrown,
        proposal (base (loadProposal (inl err) e)) = proposal (base e)
        /\ sections (base (loadProposal (inl err) e)) = sections (base e)
        /\ error (base (loadProposal (inl err) e))
           = Some (errorMessage err "Failed to load proposal")).
Proof.
  intros Hempty. split_and!.
  - reflexivity.
  - cbn. by rewrite Hempty.
  - intros Backend updateProposal proposalId b b' saved Hsaved.
    unfold handleSave, loadProposal. cbn [base proposal sections].
    rewrite Hempty. cbv iota. rewrite Hsaved. by split.
  - intros err. by split_and!.
Qed.

Lemma load_empty_content_keeps_sections_witness :
  sections (base (loadProposal (inr MoreSamples.blankProposal) MoreSamples.editing))
  = sections (base MoreSamples.editing).
Proof.
  apply (load_empty_content_keeps_sections MoreSamples.blankProposal MoreSamples.editing).
  reflexivity.
Defined.

End SectionEditingFacts.

(** ** Proposal database: filters and selections *)

Section ProposalDatabaseFacts.
Import ProposalDatabase.
Variable num : Type.
Implicit Types (p : ProposalSummary num) (l : list (ProposalSummary num)).

Lemma filter_all {A} (P : A -> Prop) `{!forall x, Decision (P x)} (xs : list A) :
  Forall P xs -> filter P xs = xs.
Proof.
  induction 1 as [|x xs Hx _ IH]; [done|].
  rewrite filter_cons, decide_True by done. by f_equal.
Qed.

Lemma narrow_filter (chosen : list string) keep l :
  narrow chosen keep l = filter (fun p => chosen = [] \/ keep p = true) l.
Proof.
  destruct chosen as [|c chosen]; simpl.
  - symmetry. apply filter_all, Forall_forall. intros; by left.
  - apply list_filter_iff. intros p. split; [by right|by intros [|]].
Qed.

(** X15. [applyFilters] keeps, in their order, exactly the proposals that
    pass every filter that has a choice made: client, assigned user, tag
    and priority.  With no choice made in any of the four it returns the
    list unchanged, and applying it to its own result changes nothing. *)
Theorem applyFilters_spec (f : SearchFilters) l :
  (forall p,
     p ∈ applyFilters f l <->
     p ∈ l
     /\ (client_filter f = []
         \/ Js.arr_includes (client_filter f) (Js.or_else (client_name p) EmptyString)
            = true)
     /\ (assigned_user f = []
         \/ Js.arr_includes (assigned_user f) (Js.or_else (assigned_to p) EmptyString)
            = true)
     /\ (filter_tags f = []
         \/ exists ts tag, tags p = Some ts /\ tag ∈ ts /\ tag ∈ filter_tags f)
     /\ (filter_priority f = []
         \/ Js.arr_includes (filter_priority f) (Js.or_else (priority p) EmptyString)
            = true))
  /\ (applyFilters f l) `sublist_of` l
  /\ applyFilters f (applyFilters f l) = applyFilters f l
  /\ (client_filter f = [] -> assigned_user f = [] -> filter_tags f = [] ->
      filter_priority f = [] -> applyFilters f l = l).
Proof.
  assert (forall p, hasTag f p = true
                    <-> exists ts tag, tags p = Some ts /\ tag ∈ ts /\ tag ∈ filter_tags f)
    as Htag.
  { intros p. unfold hasTag. destruct (tags p) as [ts|].
    - rewrite existsb_exists. split.
      + intros (tag & Hin & Hinc). exists ts, tag.
        split_and!; [done|by apply list_elem_of_In|by apply arr_includes_elem_of].
      + intros (ts' & tag & [= <-] & Hin & Hinc). exists tag.
        split; [by apply list_elem_of_In|by apply arr_includes_elem_of].
    - split; [done|]. by intros (? & ? & ? & _). }
  assert (forall k, applyFilters f k
            = filter (fun p =>
                ((filter_priority f = []
                  \/ Js.arr_includes (filter_priority f)
                                     (Js.or_else (priority p) EmptyString) = true)
                 /\ (filter_tags f = [] \/ hasTag f p = true)
                 /\ (assigned_user f = []
                     \/ Js.arr_includes (assigned_user f)
                                        (Js.or_else (assigned_to p) EmptyString) = true))
                /\ (client_filter f = []
                    \/ Js.arr_includes (client_filter f)
                                       (Js.or_else (client_name p) EmptyString) = true))
                k) as Hfilter.
  { intros k. unfold applyFilters. cbv zeta.
    rewrite !narrow_filter, !list_filter_filter. apply list_filter_iff. tauto. }
  split_and!.
  - intros p. rewrite Hfilter, list_elem_of_filter, <- Htag. tauto.
  - rewrite Hfilter. apply sublist_filter.
  - rewrite !Hfilter, list_filter_filter. apply list_filter_iff. tauto.
  - intros H1 H2 H3 H4. unfold applyFilters. by rewrite H1, H2, H3, H4.
Qed.

(** X16. Clearing the checkbox of a proposal removes every occurrence of
    its id from the selection and keeps the other ids in order; ticking it
    appends the id without looking for it, so ticking and then clearing
    gives the same selection as clearing alone. *)
Theorem selection_toggle (proposalId : string) (prev : list string) :
  (proposalId ∉ handleProposalSelection proposalId false prev)
  /\ (forall other, other <> proposalId ->
        (other ∈ handleProposalSelection proposalId false prev <-> other ∈ prev)
        /\ (other ∈ handleProposalSelection proposalId true prev <-> other ∈ prev))
  /\ proposalId ∈ handleProposalSelection proposalId true prev
  /\ handleProposalSelection proposalId false
       (handleProposalSelection proposalId true prev)
     = handleProposalSelection proposalId false prev
  /\ (handleProposalSelection proposalId false prev) `sublist_of` prev
  /\ (proposalId ∈ prev ->
        ~ NoDup (handleProposalSelection proposalId true prev)).
Proof.
  unfold handleProposalSelection. split_and!.
  - rewrite list_elem_of_filter. tauto.
  - intros other Hne. rewrite list_elem_of_filter, elem_of_app, list_elem_of_singleton.
    tauto.
  - rewrite elem_of_app, list_elem_of_singleton. tauto.
  - rewrite filter_app, filter_cons, decide_False by tauto.
    by rewrite filter_nil, app_nil_r.
  - apply sublist_filter.
  - intros Hin Hnodup. apply NoDup_app in Hnodup as (_ & Hdisj & _).
    apply (Hdisj _ Hin). left.
Qed.

Lemma arr_includes_false (xs : list string) (x : string) :
  Js.arr_includes xs x = false <-> x ∉ xs.
Proof. apply arr_includes_not_elem_of. Qed.

(** X17. [toggleFavorite] flips whether the proposal is a favourite and
    leaves every other proposal's standing as it was; toggling twice puts
    every proposal back in the standing it had, and a list without
    repetitions stays without repetitions. *)
Theorem toggleFavorite_flips (proposalId : string) (prev : list string) :
  (proposalId ∈ toggleFavorite proposalId prev <-> proposalId ∉ prev)
  /\ (forall other, other <> proposalId ->
        (other ∈ toggleFavorite proposalId prev <-> other ∈ prev))
  /\ (forall x, x ∈ toggleFavorite proposalId (toggleFavorite proposalId prev)
                <-> x ∈ prev)
  /\ (NoDup prev -> NoDup (toggleFavorite proposalId prev)).
Proof.
  assert (forall xs,
            (proposalId ∈ toggleFavorite proposalId xs <-> proposalId ∉ xs)
            /\ (forall other, other <> proposalId ->
                  (other ∈ toggleFavorite proposalId xs <-> other ∈ xs))) as Hflip.
  { intros xs. unfold toggleFavorite.
    destruct (Js.arr_includes xs proposalId) eqn:Hinc.
    - apply arr_includes_elem_of in Hinc. split.
      + rewrite list_elem_of_filter. tauto.
      + intros other Hne. rewrite list_elem_of_filter. tauto.
    - apply arr_includes_false in Hinc. split.
      + rewrite elem_of_app, list_elem_of_singleton. tauto.
      + intros other Hne. rewrite elem_of_app, list_elem_of_singleton. tauto. }
  split_and!.
  - apply Hflip.
  - apply Hflip.
  - intros x. destruct (decide (x = proposalId)) as [->|Hne].
    + rewrite (proj1 (Hflip _)), (proj1 (Hflip prev)).
      destruct (decide (proposalId ∈ prev)); tauto.
    + by rewrite (proj2 (Hflip _) x Hne), (proj2 (Hflip prev) x Hne).
  - intros Hnodup. unfold toggleFavorite.
    destruct (Js.arr_includes prev proposalId) eqn:Hinc.
    + by apply NoDup_filter.
    + apply arr_includes_false in Hinc. apply NoDup_app. split_and!.
      * done.
      * intros x Hx Hin. apply list_elem_of_singleton in Hin as ->. done.
      * apply NoDup_singleton.
Qed.

(** X18. Select-all replaces the selection by the ids of the proposals
    currently listed, in their order.  An export sends the selection as
    it is when there is one, listed or not, and otherwise the ids of all
    listed proposals, so it sends no id only when nothing is selected and
    nothing is listed.  The
    proposals compared are listed proposals whose id is selected; ids
    selected earlier that are no longer listed contribute nothing. *)
Theorem selection_and_export (selectedProposals : list string) l :
  handleSelectAll true l = id <$> l
  /\ handleSelectAll false l = []
  /\ (selectedProposals <> [] -> exportIds selectedProposals l = selectedProposals)
  /\ exportIds [] l = id <$> l
  /\ exportIds (handleSelectAll true l) l = id <$> l
  /\ (exportIds selectedProposals l = [] <-> selectedProposals = [] /\ l = [])
  /\ (forall p, p ∈ selectedData selectedProposals l
                <-> p ∈ l /\ id p ∈ selectedProposals)
  /\ (selectedData selectedProposals l) `sublist_of` l
  /\ (Forall (fun p => id p ∉ selectedProposals) l ->
        selectedData selectedProposals l = []).
Proof.
  split_and!.
  - reflexivity.
  - reflexivity.
  - intros Hsome. unfold exportIds. by destruct selectedProposals.
  - reflexivity.
  - unfold exportIds, handleSelectAll. by destruct l.
  - unfold exportIds. destruct selectedProposals; [|by split; [|intros []]].
    split; [intros H; by apply fmap_nil_inv in H|by intros [_ ->]].
  - intros p. unfold selectedData.
    by rewrite list_elem_of_filter, arr_includes_elem_of, (comm and).
  - apply sublist_filter.
  - intros Hnone. unfold selectedData.
    induction Hnone as [|p k Hp _ IH]; [done|].
    rewrite filter_cons, decide_False; [done|].
    by rewrite arr_includes_elem_of.
Qed.

End ProposalDatabaseFacts.

Section StatusDistributionFacts.
Import ProposalDatabase.
Variable num : Type.
Implicit Types (p : ProposalSummary num) (data : list (ProposalSummary num)).
Local Open Scope N_scope.

Lemma tally_lookup (acc : gmap string Tally) (key s : string) :
  s <> "__proto__" ->
  tally acc key !! s
  = if decide (key = s)
    then Some (match acc !! s with
               | Some (Count n) => Count (n + 1)
               | Some (Garbled member ones) => Garbled member (ones + 1)
               | None => if inherited s then Garbled s 1 else Count 1
               end)
    else acc !! s.
Proof.
  intros Hs. unfold tally. destruct (String.eqb_spec key "__proto__") as [->|Hkey].
  - by rewrite decide_False.
  - case_decide as Hk; [subst; by rewrite lookup_insert_eq|by rewrite lookup_insert_ne].
Qed.

Lemma tally_proto (acc : gmap string Tally) (key : string) :
  tally acc key !! "__proto__" = acc !! "__proto__".
Proof.
  unfold tally. destruct (String.eqb_spec key "__proto__") as [->|Hkey]; [done|].
  by rewrite lookup_insert_ne.
Qed.

(** The entry of a status after [m] earlier proposals and those of
    [data]. *)
Lemma distribution_entry data : forall (acc : gmap string Tally) (s : string) (m : N),
  s <> "__proto__" ->
  acc !! s
  = (if m =? 0 then None else Some (if inherited s then Garbled s m else Count m)) ->
  fold_left (fun acc p => tally acc (status p)) data acc !! s
  = if m + N.of_nat (length (filter (fun p => status p = s) data)) =? 0
    then None
    else Some (if inherited s
               then Garbled s (m + N.of_nat (length (filter (fun p => status p = s) data)))
               else Count (m + N.of_nat (length (filter (fun p => status p = s) data)))).
Proof.
  induction data as [|p data IH]; intros acc s m Hs Hacc.
  - simpl. by rewrite N.add_0_r.
  - cbn [fold_left]. rewrite filter_cons. case_decide as Hp.
    + rewrite (IH _ s (m + 1) Hs).
      * cbn [length].
        by replace (m + N.of_nat (S (length (filter (fun p => status p = s) data))))
          with (m + 1 + N.of_nat (length (filter (fun p => status p = s) data)))
          by lia.
      * rewrite (tally_lookup _ _ _ Hs), decide_True by done. rewrite Hacc.
        destruct (N.eqb_spec (m + 1) 0) as [?|_]; [lia|].
        destruct (N.eqb_spec m 0) as [->|_]; by destruct (inherited s).
    + rewrite (IH _ s m Hs); [done|].
      by rewrite (tally_lookup _ _ _ Hs), decide_False.
Qed.

Lemma distribution_proto data : forall acc : gmap string Tally,
  fold_left (fun acc p => tally acc (status p)) data acc !! "__proto__"
  = acc !! "__proto__".
Proof.
  induction data as [|p data IH]; intros acc; [done|].
  cbn [fold_left]. by rewrite IH, tally_proto.
Qed.

Lemma total_step (acc : gmap string Tally) (key : string) :
  map_fold (fun _ entry sum => recorded entry + sum) 0 (tally acc key)
  = map_fold (fun _ entry sum => recorded entry + sum) 0 acc
    + (if decide (key = "__proto__") then 0 else 1).
Proof.
  assert (forall (m : gmap string Tally) (j1 j2 : string) (z1 z2 : Tally) (y : N),
            j1 <> j2 -> m !! j1 = Some z1 -> m !! j2 = Some z2 ->
            recorded z1 + (recorded z2 + y) = recorded z2 + (recorded z1 + y))
    as Hcomm by (intros; lia).
  unfold tally. destruct (String.eqb_spec key "__proto__") as [->|Hkey].
  - rewrite decide_True by done. lia.
  - rewrite decide_False by done.
    destruct (acc !! key) as [v|] eqn:Hk.
    + rewrite <- insert_delete_eq.
      rewrite map_fold_insert_L; [|apply Hcomm|by rewrite lookup_delete_eq].
      rewrite (map_fold_delete_L _ _ key v acc); [|apply Hcomm|done].
      destruct v; simpl; lia.
    + rewrite map_fold_insert_L; [|apply Hcomm|done].
      destruct (inherited key); simpl; lia.
Qed.

Lemma distribution_total data : forall (acc : gmap string Tally),
  map_fold (fun _ entry sum => recorded entry + sum) 0
           (fold_left (fun acc p => tally acc (status p)) data acc)
  = map_fold (fun _ entry sum => recorded entry + sum) 0 acc
    + N.of_nat (length (filter (fun p => status p <> "__proto__") data)).
Proof.
  induction data as [|p data IH]; intros acc; cbn [fold_left]; [simpl; lia|].
  rewrite IH, total_step, filter_cons.
  destruct (decide (status p = "__proto__")) as [Hp|Hp].
  - rewrite decide_False by (by intros ?). lia.
  - rewrite decide_True by done. cbn [length]. lia.
Qed.

(** X19. The status distribution of a comparison holds, for every status
    that is not the name of a member inherited from [Object.prototype],
    the number of compared proposals with that status; a status that no
    compared proposal has is absent rather than counted as zero.  A
    status named like an inherited method gets a string in place of a
    number: the text of the method followed by one digit 1 for each
    proposal.  Proposals with the status [__proto__] leave no entry.
    Every other compared proposal is recorded once, so without such
    statuses the numbers add up to the number of proposals compared. *)
Theorem statusDistribution_counts data :
  (forall s : string,
     inherited s = false ->
     statusDistribution data !! s
     = if N.of_nat (length (filter (fun p => status p = s) data)) =? 0
       then None
       else Some (Count (N.of_nat (length (filter (fun p => status p = s) data)))))
  /\ (forall s : string,
        s ∈ inheritedMethods ->
        statusDistribution data !! s
        = if N.of_nat (length (filter (fun p => status p = s) data)) =? 0
          then None
          else Some (Garbled s
                       (N.of_nat (length (filter (fun p => status p = s) data)))))
  /\ statusDistribution data !! "__proto__" = None
  /\ map_fold (fun _ entry sum => recorded entry + sum) 0 (statusDistribution data)
     = N.of_nat (length (filter (fun p => status p <> "__proto__") data))
  /\ (Forall (fun p => inherited (status p) = false) data ->
        map_Forall (fun _ entry => exists n, entry = Count n) (statusDistribution data)
        /\ map_fold (fun _ entry sum => recorded entry + sum) 0
                    (statusDistribution data)
           = N.of_nat (length data)).
Proof.
  assert (forall s : string,
            s <> "__proto__" ->
            statusDistribution data !! s
            = if N.of_nat (length (filter (fun p => status p = s) data)) =? 0
              then None
              else Some (if inherited s
                         then Garbled s
                                (N.of_nat (length (filter (fun p => status p = s) data)))
                         else Count
                                (N.of_nat (length (filter (fun p => status p = s) data)))))
    as Hentry.
  { intros s Hs. unfold statusDistribution.
    by rewrite (distribution_entry data ∅ s 0 Hs (lookup_empty s)), !N.add_0_l. }
  assert (map_fold (fun _ entry sum => recorded entry + sum) 0 (statusDistribution data)
          = N.of_nat (length (filter (fun p => status p <> "__proto__") data)))
    as Htotal.
  { unfold statusDistribution. rewrite distribution_total, map_fold_empty. lia. }
  split_and!.
  - intros s Hs. rewrite Hentry, Hs; [done|].
    intros ->. by vm_compute in Hs.
  - intros s Hs.
    assert (inherited s = true) as Hinh.
    { unfold inherited. apply orb_true_iff. right. by apply arr_includes_elem_of. }
    rewrite Hentry, Hinh; [done|].
    intros ->. apply list_elem_of_In in Hs. simpl in Hs. intuition discriminate.
  - unfold statusDistribution. by rewrite distribution_proto.
  - exact Htotal.
  - intros Hplain. split.
    + intros s entry Hs.
      destruct (decide (s = "__proto__")) as [->|Hne].
      { unfold statusDistribution in Hs. by rewrite distribution_proto in Hs. }
      rewrite (Hentry s Hne) in Hs.
      destruct (N.eqb_spec (N.of_nat (length (filter (fun p => status p = s) data))) 0)
        as [|Hsome]; [done|].
      assert (exists p, p ∈ data /\ status p = s) as (p & Hin & Hstatus).
      { destruct (filter (fun p => status p = s) data) as [|p others] eqn:Hfilter;
          [done|].
        assert (p ∈ filter (fun p => status p = s) data) as Hp
          by (rewrite Hfilter; left).
        apply list_elem_of_filter in Hp as [? ?]. by exists p. }
      rewrite Forall_forall in Hplain. specialize (Hplain p Hin).
      rewrite Hstatus in Hplain. rewrite Hplain in Hs.
      injection Hs as <-. eauto.
    + rewrite Htotal. f_equal. f_equal.
      clear -Hplain. induction Hplain as [|p data Hp _ IH]; [done|].
      rewrite filter_cons, decide_True; [by rewrite IH|].
      intros Heq. rewrite Heq in Hp. by vm_compute in Hp.
Qed.

End StatusDistributionFacts.

Example statusDistribution_sample :
  ProposalDatabase.statusDistribution
    [MoreSamples.rowA; MoreSamples.rowB; MoreSamples.rowC] !! "draft"
  = Some (ProposalDatabase.Count 2).
Proof. vm_compute. reflexivity. Qed.

Example applyFilters_sample :
  ProposalDatabase.id
    <$> ProposalDatabase.applyFilters MoreSamples.onlyClientA
          [MoreSamples.rowA; MoreSamples.rowB; MoreSamples.rowC]
  = ["p1"].
Proof. vm_compute. reflexivity. Qed.

(** ** Query strings of the dashboards *)

Section QueryFacts.
Import Chars.

Lemma noChar_app (c : ascii) (a b : string) :
  noChar c (a +:+ b) <-> noChar c a /\ noChar c b.
Proof.
  induction a as [|x a IH]; [simpl; tauto|].
  rewrite string_app_cons. cbn [noChar]. rewrite IH. tauto.
Qed.

(** An encoded byte holds none of the characters that structure a URL
    query. *)
Lemma encodeByte_safe (c : ascii) :
  noChar "&" (Url.encodeByte c) /\ noChar "=" (Url.encodeByte c)
  /\ noChar "#" (Url.encodeByte c) /\ noChar "?" (Url.encodeByte c)
  /\ noChar " " (Url.encodeByte c).
Proof.
  destruct c as [[] [] [] [] [] [] [] []]; vm_compute; repeat split; discriminate.
Qed.

Lemma encode_safe (s : string) :
  noChar "&" (Url.encode s) /\ noChar "=" (Url.encode s)
  /\ noChar "#" (Url.encode s) /\ noChar "?" (Url.encode s)
  /\ noChar " " (Url.encode s).
Proof.
  induction s as [|c s IH]; [by repeat split|].
  cbn [Url.encode]. rewrite !noChar_app.
  pose proof (encodeByte_safe c). tauto.
Qed.

Lemma split_app_sep (sep : ascii) (a rest : string) :
  noChar sep a ->
  Js.split sep (a +:+ String sep rest) = a :: Js.split sep rest.
Proof.
  induction a as [|x a IH]; intros Ha.
  - change (EmptyString +:+ String sep rest) with (String sep rest).
    cbn [Js.split]. by rewrite Ascii.eqb_refl.
  - destruct Ha as [Hne Ha]. rewrite string_app_cons. cbn [Js.split].
    destruct (Ascii.eqb_spec x sep) as [->|_]; [done|]. by rewrite (IH Ha).
Qed.

Lemma concat_cons (sep a b : string) (parts : list string) :
  String.concat sep (a :: b :: parts) = a +:+ sep +:+ String.concat sep (b :: parts).
Proof. reflexivity. Qed.

(** Splitting a joined list gives the list back when no element holds the
    separator. *)
Lemma split_join (sep : ascii) (parts : list string) :
  parts <> [] -> Forall (noChar sep) parts ->
  Js.split sep (Js.join (String sep EmptyString) parts) = parts.
Proof.
  intros Hne Hall. induction Hall as [|a parts Ha Hparts IH]; [done|].
  unfold Js.join in *. destruct parts as [|b parts].
  - change (String.concat (String sep EmptyString) [a]) with a.
    by apply split_noChar.
  - rewrite concat_cons.
    change (String sep EmptyString +:+ ?x) with (String sep x).
    rewrite split_app_sep by done. by rewrite IH.
Qed.

Lemma pair_safe (kv : string * string) :
  noChar "&" (Url.encode kv.1 +:+ "=" +:+ Url.encode kv.2)
  /\ Js.split "=" (Url.encode kv.1 +:+ "=" +:+ Url.encode kv.2)
     = [Url.encode kv.1; Url.encode kv.2].
Proof.
  pose proof (encode_safe kv.1) as (Hk & Hk' & _).
  pose proof (encode_safe kv.2) as (Hv & Hv' & _).
  split.
  - rewrite !noChar_app. split_and!; [done| |done]. by split.
  - change (Url.encode kv.1 +:+ "=" +:+ Url.encode kv.2)
      with (Url.encode kv.1 +:+ String "=" (Url.encode kv.2)).
    rewrite split_app_sep by done. by rewrite split_noChar.
Qed.

(** Whatever the names and values, a query string splits at its [&] and
    [=] signs into exactly the parameters that were appended. *)
Lemma paramsToString_parts (params : list (string * string)) :
  params <> [] ->
  Js.split "&" (Url.paramsToString params)
  = (fun kv => Url.encode kv.1 +:+ "=" +:+ Url.encode kv.2) <$> params
  /\ Forall (fun kv =>
               Js.split "=" (Url.encode kv.1 +:+ "=" +:+ Url.encode kv.2)
               = [Url.encode kv.1; Url.encode kv.2]) params.
Proof.
  intros Hne. split.
  - unfold Url.paramsToString. apply split_join.
    + by destruct params.
    + apply Forall_fmap, Forall_forall. intros kv _. apply pair_safe.
  - apply Forall_forall. intros kv _. apply pair_safe.
Qed.

Lemma appendIf_cases (key value : string) (params : list (string * string)) :
  Url.appendIf key value params
  = if decide (value = EmptyString) then params else params ++ [(key, value)].
Proof. by destruct value. Qed.

(** X20. The query of the team dashboard's [loadProposals] holds one
    parameter for each of the three filters that is not empty, in the
    order status_filter, assigned_to_id, search, and nothing for an empty
    one.  Whatever is typed into the filters, the query string splits at
    its [&] signs into exactly these parameters, each one being the
    encoded key, one [=] and the encoded value: a filter value cannot add
    or change another parameter. *)
Theorem team_query_parameters (f : TeamDashboard.Filters) (token : option string) :
  TeamDashboard.loadParams f
  = (if decide (TeamDashboard.statusFilter f = EmptyString) then []
     else [("status_filter", TeamDashboard.statusFilter f)])
    ++ (if decide (TeamDashboard.assignedToFilter f = EmptyString) then []
        else [("assigned_to_id", TeamDashboard.assignedToFilter f)])
    ++ (if decide (TeamDashboard.searchTerm f = EmptyString) then []
        else [("search", TeamDashboard.searchTerm f)])
  /\ (TeamDashboard.loadParams f <> [] ->
        Js.split "&" (Url.paramsToString (TeamDashboard.loadParams f))
        = (fun kv => Url.encode kv.1 +:+ "=" +:+ Url.encode kv.2)
            <$> TeamDashboard.loadParams f)
  /\ Forall (fun kv =>
               Js.split "=" (Url.encode kv.1 +:+ "=" +:+ Url.encode kv.2)
               = [Url.encode kv.1; Url.encode kv.2])
            (TeamDashboard.loadParams f)
  /\ (TeamDashboard.loadParams f = [] ->
        TeamDashboard.url (TeamDashboard.loadProposals f token)
        = "/api/v1/team-dashboard/proposals?")
  /\ TeamDashboard.authorization (TeamDashboard.loadProposals f token)
     = ClientPortal.bearer token.
Proof.
  split_and!.
  - unfold TeamDashboard.loadParams. rewrite !appendIf_cases.
    repeat case_decide; by rewrite ?app_nil_r.
  - intros Hne. by apply paramsToString_parts.
  - destruct (TeamDashboard.loadParams f) as [|kv rest] eqn:Hparams; [constructor|].
    by apply paramsToString_parts.
  - intros Hnil. unfold TeamDashboard.loadProposals. by rewrite Hnil.
  - reflexivity.
Qed.

Example team_query_sample :
  TeamDashboard.url
    (TeamDashboard.loadProposals (TeamDashboard.mkFilters "draft" EmptyString "a&b=c d")
                                 (Some "jwt"))
  = "/api/v1/team-dashboard/proposals?status_filter=draft&search=a%26b%3Dc+d".
Proof. vm_compute. reflexivity. Qed.

(** X21. The query of the proposal database's [loadProposals] always ends
    with the sort key, the sort order, the limit 25 and the offset
    [(page - 1) * 25], after at most five filter parameters, and splits at
    its [&] signs into exactly its parameters.  A search and a reset of
    the filters both go back to the first page, so the request that
    follows asks for offset 0; after a reset the four fixed parameters
    are all that is sent. *)
Theorem database_query_parameters (s : ProposalDatabase.Paged) :
  (exists chosen,
     ProposalDatabase.loadParams s
     = chosen
       ++ [("sort_by", ProposalDatabase.sort_by (ProposalDatabase.searchFilters s));
           ("sort_order",
            ProposalDatabase.sortOrderName
              (ProposalDatabase.sort_order (ProposalDatabase.searchFilters s)));
           ("limit", "25");
           ("offset",
            ProposalDatabase.of_Z ((ProposalDatabase.currentPage s - 1) * 25))]
     /\ length chosen <= 5)
  /\ Js.split "&" (Url.paramsToString (ProposalDatabase.loadParams s))
     = (fun kv => Url.encode kv.1 +:+ "=" +:+ Url.encode kv.2)
         <$> ProposalDatabase.loadParams s
  /\ (forall searchTerm : string,
        last (ProposalDatabase.loadParams (ProposalDatabase.handleSearch searchTerm s))
        = Some ("offset", "0"))
  /\ ProposalDatabase.loadParams (ProposalDatabase.clearFilters s)
     = [("sort_by", "updated_at"); ("sort_order", "desc"); ("limit", "25");
        ("offset", "0")].
Proof.
  split_and!.
  - unfold ProposalDatabase.loadParams. cbv zeta. eexists. split; [reflexivity|].
    unfold ProposalDatabase.appendDate, ProposalDatabase.appendList.
    rewrite appendIf_cases.
    destruct (ProposalDatabase.date_to _), (ProposalDatabase.date_from _),
      (ProposalDatabase.phase_filter _), (ProposalDatabase.status_filter _);
      case_decide; rewrite ?length_app; simpl; lia.
  - apply paramsToString_parts. unfold ProposalDatabase.loadParams. cbv zeta.
    intros H. apply (f_equal length) in H. rewrite length_app in H. simpl in H. lia.
  - intros searchTerm. unfold ProposalDatabase.loadParams. cbv zeta.
    rewrite last_app. reflexivity.
  - reflexivity.
Qed.

Example database_query_sample :
  TeamDashboard.url
    (ProposalDatabase.loadProposals
       (ProposalDatabase.mkPaged
          (ProposalDatabase.mkFilterSet "q&limit=1000" ["draft"; "approved"] [] []
             (Some "2024-03-05T10:00:00.000Z") None [] [] [] "updated_at"
             ProposalDatabase.desc) 3)
       (Some "jwt"))
  = "/api/v1/team-dashboard/proposals?search=q%26limit%3D1000&status=draft%2Capproved&date_from=2024-03-05&sort_by=updated_at&sort_order=desc&limit=25&offset=50".
Proof. vm_compute. reflexivity. Qed.

End QueryFacts.

(** ** Authentication helpers *)

Section AuthGuideFacts.
Import AuthGuide.

Lemma clearAuthTokens_lookup (ls : gmap string string) (k : string) :
  clearAuthTokens ls !! k
  = if decide (k = "access_token" \/ k = "refresh_token" \/ k = "user")
    then None else ls !! k.
Proof.
  unfold clearAuthTokens. rewrite !lookup_delete.
  repeat case_decide; try done; subst; intuition congruence.
Qed.

(** X22. After the tokens are stored, the access token read back is the
    one stored; after they are cleared, none of the three items
    [access_token], [refresh_token] and [user] is left.  Storing and
    clearing touch these three items only, and clearing undoes a store
    as far as they are concerned. *)
Theorem token_storage_round_trip
  (UserProfile : Type) (stringify : UserProfile -> string)
  (tokens : AuthResponse UserProfile) (ls : gmap string string) :
  getAccessToken (storeAuthTokens stringify tokens ls) = Some (access_token tokens)
  /\ storeAuthTokens stringify tokens ls !! "refresh_token" = Some (refresh_token tokens)
  /\ storeAuthTokens stringify tokens ls !! "user" = Some (stringify (user tokens))
  /\ getAccessToken (clearAuthTokens ls) = None
  /\ clearAuthTokens ls !! "refresh_token" = None
  /\ clearAuthTokens ls !! "user" = None
  /\ (forall k : string,
        k <> "access_token" -> k <> "refresh_token" -> k <> "user" ->
        storeAuthTokens stringify tokens ls !! k = ls !! k
        /\ clearAuthTokens ls !! k = ls !! k)
  /\ clearAuthTokens (storeAuthTokens stringify tokens ls) = clearAuthTokens ls.
Proof.
  unfold getAccessToken, storeAuthTokens. split_and!.
  - rewrite !lookup_insert_ne by done. by rewrite lookup_insert_eq.
  - rewrite lookup_insert_ne by done. by rewrite lookup_insert_eq.
  - by rewrite lookup_insert_eq.
  - by rewrite clearAuthTokens_lookup.
  - by rewrite clearAuthTokens_lookup.
  - by rewrite clearAuthTokens_lookup.
  - intros k H1 H2 H3. split.
    + by rewrite !lookup_insert_ne by done.
    + rewrite clearAuthTokens_lookup, decide_False; [done|tauto].
  - apply map_eq. intros k. rewrite !clearAuthTokens_lookup.
    case_decide as Hk; [done|].
    rewrite !lookup_insert_ne by (intros <-; tauto). done.
Qed.

(** Decimal numerals are made of digits. *)
Lemma of_N_not_word (n : N) (word : string) :
  NilEmpty.uint_of_string word = None -> Js.of_N n <> word.
Proof.
  intros Hword Heq. rewrite <- Heq in Hword. unfold Js.of_N in Hword.
  by rewrite NilEmpty.usu in Hword.
Qed.

(** The positions of an array of pairs, spread into an object. *)
Lemma spread_pairs (entries : list (string * string)) (i : nat) (name value : string) :
  entries !! i = Some (name, value) ->
  spread (Some (Pairs entries)) !! Js.of_N (N.of_nat i) = Some (name +:+ "," +:+ value).
Proof.
  intros Hi. unfold spread. apply elem_of_list_to_map_1.
  - rewrite fmap_imap.
    rewrite (imap_ext _ (fun j _ => Js.of_N (N.of_nat (0 + j)))) by done.
    rewrite (imap_index (fun j => Js.of_N (N.of_nat j)) entries 0).
    apply NoDup_fmap_2_strong; [|apply NoDup_seq].
    intros a b _ _ H. apply of_N_inj in H. lia.
  - apply elem_of_lookup_imap. by exists i, (name, value).
Qed.

(** X23. [authenticatedFetch] keeps the URL, method and body of the call.
    When a non-empty access token is stored, the request carries it as
    [Authorization: Bearer], replacing an [Authorization] header given by
    the caller.  Headers given as a plain object are sent as given, but
    for that replacement, and the content type is JSON unless the object
    sets one.  Headers given as a [Headers] instance are not sent at all:
    the request then has the JSON content type, the bearer token if there
    is one, and nothing else, as when no headers are given.  Headers
    given as an array of pairs are sent under the positions of the pairs,
    each with the name and the value joined by a comma, next to the JSON
    content type. *)
Theorem authenticatedFetch_headers
  (url : string) (options : Options) (ls : gmap string string) :
  let request := authenticatedFetch url options ls in
  let sent := headers (init request) in
  AuthGuide.url request = url
  /\ method (init request) = given_method options
  /\ body (init request) = given_body options
  /\ (forall token, getAccessToken ls = Some token -> token <> EmptyString ->
        sent !! "Authorization" = Some ("Bearer " +:+ token))
  /\ (forall fields : gmap string string,
        given_headers options = Some (PlainObject fields) ->
        (getAccessToken ls = None \/ getAccessToken ls = Some EmptyString ->
           sent !! "Authorization" = fields !! "Authorization")
        /\ sent !! "Content-Type"
           = Some (default "application/json" (fields !! "Content-Type"))
        /\ (forall k : string, k <> "Authorization" -> k <> "Content-Type" ->
              sent !! k = fields !! k))
  /\ (given_headers options = None
      \/ (exists entries, given_headers options = Some (HeadersInstance entries)) ->
        (getAccessToken ls = None \/ getAccessToken ls = Some EmptyString ->
           sent !! "Authorization" = None)
        /\ sent !! "Content-Type" = Some "application/json"
        /\ (forall k : string, k <> "Authorization" -> k <> "Content-Type" ->
              sent !! k = None))
  /\ (forall entries : list (string * string),
        given_headers options = Some (Pairs entries) ->
        sent !! "Content-Type" = Some "application/json"
        /\ (forall (i : nat) (name value : string),
              entries !! i = Some (name, value) ->
              sent !! NilEmpty.string_of_uint (N.to_uint (N.of_nat i))
              = Some (name +:+ "," +:+ value))).
Proof.
  intros request sent. subst request sent. unfold authenticatedFetch. cbn.
  set (given := spread (given_headers options)).
  assert (forall k : string,
            (given ∪ ({[ "Content-Type" := "application/json" ]}
                      : gmap string string)) !! k
            = match given !! k with
              | Some v => Some v
              | None => if decide (k = "Content-Type") then Some "application/json"
                        else None
              end) as Hunion.
  { intros k. rewrite lookup_union.
    destruct (given !! k) as [v|] eqn:Hk; rewrite ?Hk.
    - by destruct (({[ "Content-Type" := "application/json" ]} : gmap string string) !! k).
    - rewrite lookup_singleton. repeat case_decide; by subst. }
  assert (forall token, getAccessToken ls = Some token -> token <> EmptyString ->
            (if Js.truthy (getAccessToken ls)
             then <["Authorization" := "Bearer " +:+ Js.show (getAccessToken ls)]>
                    (given ∪ {[ "Content-Type" := "application/json" ]})
             else given ∪ {[ "Content-Type" := "application/json" ]})
            !! "Authorization" = Some ("Bearer " +:+ token)) as Hbearer.
  { intros token Htoken Hne. rewrite Htoken.
    destruct token; [done|]. cbn. by rewrite lookup_insert_eq. }
  assert (getAccessToken ls = None \/ getAccessToken ls = Some EmptyString ->
          (if Js.truthy (getAccessToken ls)
           then <["Authorization" := "Bearer " +:+ Js.show (getAccessToken ls)]>
                  (given ∪ {[ "Content-Type" := "application/json" ]})
           else given ∪ {[ "Content-Type" := "application/json" ]})
          !! "Authorization" = given !! "Authorization") as Hplain.
  { intros [Hnone|Hempty]; rewrite ?Hnone, ?Hempty; cbn;
      rewrite Hunion; by destruct (given !! "Authorization"). }
  assert (forall k : string, k <> "Authorization" ->
            (if Js.truthy (getAccessToken ls)
             then <["Authorization" := "Bearer " +:+ Js.show (getAccessToken ls)]>
                    (given ∪ {[ "Content-Type" := "application/json" ]})
             else given ∪ {[ "Content-Type" := "application/json" ]}) !! k
            = match given !! k with
              | Some v => Some v
              | None => if decide (k = "Content-Type") then Some "application/json"
                        else None
              end) as Hother.
  { intros k Hk. destruct (Js.truthy (getAccessToken ls));
      rewrite ?lookup_insert_ne by done; apply Hunion. }
  split_and!; try done.
  - intros fields Hfields. subst given. rewrite Hfields in *. cbn [spread] in *.
    split_and!.
    + exact Hplain.
    + rewrite Hother by done. by destruct (fields !! "Content-Type").
    + intros k Hauth Hct. rewrite Hother by done.
      destruct (fields !! k); [done|]. by rewrite decide_False.
  - intros Hnone.
    assert (given = ∅) as Hempty.
    { subst given. by destruct Hnone as [->|[entries ->]]. }
    rewrite Hempty in *. split_and!.
    + intros Htoken. rewrite (Hplain Htoken). apply lookup_empty.
    + rewrite Hother by done. by rewrite lookup_empty.
    + intros k Hauth Hct. rewrite Hother by done.
      rewrite lookup_empty. by rewrite decide_False.
  - intros entries Hentries. subst given. rewrite Hentries in *. split.
    + rewrite Hother by done.
      destruct (spread (Some (Pairs entries)) !! "Content-Type") as [v|] eqn:Hct;
        [|done].
      exfalso. unfold spread in Hct. apply elem_of_list_to_map_2 in Hct.
      apply elem_of_lookup_imap in Hct as (i & entry & Heq & _).
      injection Heq as Hname _. symmetry in Hname. by apply of_N_not_word in Hname.
    + intros i name value Hi.
      change (NilEmpty.string_of_uint (N.to_uint (N.of_nat i)))
        with (Js.of_N (N.of_nat i)).
      rewrite Hother by (by apply of_N_not_word).
      by rewrite (spread_pairs entries i name value Hi).
Qed.

Lemma authenticatedFetch_headers_witness :
  headers (init (authenticatedFetch "/users/me"
                   {| given_method := None;
                      given_headers :=
                        Some (PlainObject {[ "Authorization" := "Basic abc" ]});
                      given_body := None |}
                   {[ "access_token" := "jwt" ]}))
    !! "Authorization"
  = Some "Bearer jwt"
  /\ headers (init (authenticatedFetch "/users/me"
                      {| given_method := None;
                         given_headers :=
                           Some (HeadersInstance [("X-Trace", "1")]);
                         given_body := None |}
                      ∅))
       !! "X-Trace"
     = None.
Proof.
  split.
  - eapply (authenticatedFetch_headers "/users/me"
              {| given_method := None;
                 given_headers := Some (PlainObject {[ "Authorization" := "Basic abc" ]});
                 given_body := None |}
              {[ "access_token" := "jwt" ]}).
    + reflexivity.
    + discriminate.
  - destruct (authenticatedFetch_headers "/users/me"
                {| given_method := None;
                   given_headers := Some (HeadersInstance [("X-Trace", "1")]);
                   given_body := None |}
                ∅) as (_ & _ & _ & _ & _ & Hinstance & _).
    destruct Hinstance as (_ & _ & Hnone).
    + right. by eexists.
    + apply Hnone; discriminate.
Defined.

(** X24. [refreshAccessToken] sends nothing and changes nothing when no
    refresh token is stored.  Otherwise it posts the stored refresh token
    to [/auth/refresh]; if the request rejects, the response is not ok or
    its body cannot be read, the three stored items are removed and the
    user is sent to [/login]; if it succeeds, the access token read back
    afterwards is the new one and the stored user is kept. *)
Theorem refreshAccessToken_outcomes
  (network : Fetch -> Exchange RefreshTokens) (ls : gmap string string) :
  (ls !! "refresh_token" = None \/ ls !! "refresh_token" = Some EmptyString ->
     refreshAccessToken network ls
     = {| storage := ls; location := None; result := None; sent := None |})
  /\ (forall refreshToken : string,
        ls !! "refresh_token" = Some refreshToken -> refreshToken <> EmptyString ->
        sent (refreshAccessToken network ls) = Some (refreshRequest refreshToken)
        /\ ((forall tokens, network (refreshRequest refreshToken)
                            <> Resolves true (Some tokens)) ->
            getAccessToken (storage (refreshAccessToken network ls)) = None
            /\ storage (refreshAccessToken network ls) !! "refresh_token" = None
            /\ storage (refreshAccessToken network ls) !! "user" = None
            /\ location (refreshAccessToken network ls) = Some "/login"
            /\ result (refreshAccessToken network ls) = None)
        /\ (forall access refresh,
              network (refreshRequest refreshToken)
              = Resolves true (Some (mkRefresh (Some access) (Some refresh))) ->
              getAccessToken (storage (refreshAccessToken network ls)) = Some access
              /\ storage (refreshAccessToken network ls) !! "refresh_token"
                 = Some refresh
              /\ storage (refreshAccessToken network ls) !! "user" = ls !! "user"
              /\ location (refreshAccessToken network ls) = None
              /\ result (refreshAccessToken network ls) = Some access)).
Proof.
  split.
  - intros [H|H]; unfold refreshAccessToken; by rewrite H.
  - intros refreshToken Hstored Hne. unfold refreshAccessToken. rewrite Hstored.
    destruct refreshToken as [|c r]; [done|].
    split_and!.
    + by destruct (network _) as [|[] []].
    + intros Hfail.
      destruct (network _) as [|[] [tokens|]] eqn:Hnet;
        try (by exfalso; eapply Hfail);
        cbn; unfold getAccessToken; by rewrite !clearAuthTokens_lookup.
    + intros access refresh ->. cbn. unfold getAccessToken. split_and!.
      * rewrite lookup_insert_ne by done. by rewrite lookup_insert_eq.
      * by rewrite lookup_insert_eq.
      * by rewrite !lookup_insert_ne by done.
      * done.
      * done.
Qed.

Lemma refreshAccessToken_outcomes_witness :
  getAccessToken
    (storage (refreshAccessToken (fun _ => Rejects)
                {[ "access_token" := "old"; "refresh_token" := "r1" ]}))
  = None.
Proof.
  eapply (refreshAccessToken_outcomes (fun _ => Rejects)
            {[ "access_token" := "old"; "refresh_token" := "r1" ]} ).
  - vm_compute. reflexivity.
  - discriminate.
  - discriminate.
Defined.

End AuthGuideFacts.

Section RouteFacts.
Import Auth AuthGuide.

Lemma roleHierarchy_unknown (name : string) :
  name <> "client" -> name <> "project_manager" -> name <> "admin" ->
  roleHierarchy !! name = None.
Proof.
  intros H1 H2 H3. unfold roleHierarchy.
  rewrite !lookup_insert_ne by done. apply lookup_empty.
Qed.

Lemma roleHierarchy_known (r : Role) : is_Some (roleHierarchy !! role_name r).
Proof. destruct r; vm_compute; eauto. Qed.

(** X25. [ProtectedRoute] sends a visitor without a user to the login
    page.  For a user and a required role among client, project_manager
    and admin it renders the route exactly when the required role is at
    most the user's role.  A user whose role is none of the three is sent
    to the unauthorized page by every route that requires one of the
    three.  A required role that is neither empty nor one of the three
    shuts out every user whose role is one of the three, administrators
    included.  Both hold as well for names such as [constructor], which
    the object literal inherits: next to a rank, an inherited member is
    not a number and the comparison is false.  A route with no required
    role, or with the empty string for it, renders for every user. *)
Theorem ProtectedRoute_decisions (children : bool) :
  (forall requiredRole, ProtectedRoute None requiredRole children = ToLogin)
  /\ (forall userRole requiredRole : Role,
        ProtectedRoute (Some (role_name userRole)) (Some (role_name requiredRole))
                       children
        = (if children then Children else TheComponent)
        <-> role_le requiredRole userRole)
  /\ (forall (userRole : string) (requiredRole : Role),
        userRole <> "client" -> userRole <> "project_manager" -> userRole <> "admin" ->
        ProtectedRoute (Some userRole) (Some (role_name requiredRole)) children
        = ToUnauthorized)
  /\ (forall (userRole : Role) (requiredRole : string),
        requiredRole <> EmptyString ->
        requiredRole <> "client" -> requiredRole <> "project_manager" ->
        requiredRole <> "admin" ->
        ProtectedRoute (Some (role_name userRole)) (Some requiredRole) children
        = ToUnauthorized)
  /\ (forall userRole : string,
        ProtectedRoute (Some userRole) None children
        = (if children then Children else TheComponent))
  /\ (forall userRole : string,
        ProtectedRoute (Some userRole) (Some EmptyString) children
        = (if children then Children else TheComponent)).
Proof.
  split_and!.
  - reflexivity.
  - intros u r. rewrite role_le_cases.
    destruct u, r, children; vm_compute; split; done.
  - intros userRole r H1 H2 H3. unfold ProtectedRoute, hasRequiredRole.
    rewrite (roleHierarchy_unknown userRole) by done. by destruct r.
  - intros u requiredRole Hne H1 H2 H3. unfold ProtectedRoute, hasRequiredRole.
    change (Js.show (Some requiredRole)) with requiredRole.
    rewrite (roleHierarchy_unknown requiredRole) by done.
    destruct requiredRole; [done|]. cbn.
    by destruct (roleHierarchy !! role_name u).
  - reflexivity.
  - reflexivity.
Qed.

Lemma ProtectedRoute_decisions_witness :
  ProtectedRoute (Some "guest") (Some "client") true = ToUnauthorized.
Proof.
  destruct (ProtectedRoute_decisions true) as (_ & _ & Hunknown & _).
  apply (Hunknown "guest" client); discriminate.
Defined.

End RouteFacts.

Section SessionFacts.
Import AuthGuide.
Variable UserProfile : Type.
Variable stringify : UserProfile -> string.
Variable parse : string -> option UserProfile.

(** X26. Provided the JSON text of a profile is never empty and parses
    back to the profile: after a successful login with a non-empty access
    token, remounting the provider restores the same user; after a logout
    whose request resolves (or that has no refresh token to send), no
    token is left, the user is gone and a remount restores no user; a
    logout whose request rejects ends with the rejection and leaves the
    session, tokens included, as it was. *)
Theorem session_lifecycle
  (response : AuthResponse UserProfile) (s : Session UserProfile)
  (resolves : Fetch -> bool) :
  (forall u, parse (stringify u) = Some u) ->
  (forall u, stringify u <> EmptyString) ->
  (access_token response <> EmptyString ->
     exists s',
       login stringify (inr response) s = inr s'
       /\ current s' = Some (user response)
       /\ restore parse (stored s')
          = Some {| stored := stored s'; current := Some (user response);
                    loading := false |})
  /\ ((logout resolves s).2 = false ->
        getAccessToken (stored (logout resolves s).1) = None
        /\ stored (logout resolves s).1 !! "refresh_token" = None
        /\ stored (logout resolves s).1 !! "user" = None
        /\ current (logout resolves s).1 = None
        /\ restore parse (stored (logout resolves s).1)
           = Some {| stored := stored (logout resolves s).1; current := None;
                     loading := false |})
  /\ ((logout resolves s).2 = true -> (logout resolves s).1 = s)
  /\ ((stored s !! "refresh_token" = None \/ stored s !! "refresh_token" = Some EmptyString) ->
        (logout resolves s).2 = false).
Proof.
  intros Hjson Hnonempty. split_and!.
  - intros Haccess. eexists. split; [reflexivity|]. split; [reflexivity|].
    cbn [stored]. unfold restore, getAccessToken, storeAuthTokens.
    rewrite !lookup_insert_ne by done. rewrite !lookup_insert_eq.
    destruct (access_token response) as [|c t]; [done|].
    specialize (Hnonempty (user response)).
    destruct (stringify (user response)) as [|c' t'] eqn:Htext; [done|].
    rewrite <- Htext, Hjson. reflexivity.
  - intros Hresolved.
    assert ((logout resolves s).1
            = {| stored := clearAuthTokens (stored s); current := None;
                 loading := loading s |}) as ->.
    { unfold logout in *. destruct (stored s !! "refresh_token") as [[|c r]|]; try done.
      by destruct (resolves _). }
    cbn [stored current]. unfold restore, getAccessToken.
    rewrite !clearAuthTokens_lookup. by split_and!.
  - unfold logout. destruct (stored s !! "refresh_token") as [[|c r]|]; try done.
    by destruct (resolves _).
  - intros [H|H]; unfold logout; by rewrite H.
Qed.

End SessionFacts.

Lemma session_lifecycle_witness :
  exists s',
    AuthGuide.login MoreSamples.profileText (inr MoreSamples.loginAnswer)
                    MoreSamples.loggedOut = inr s'
    /\ AuthGuide.current s' = Some "ann"
    /\ AuthGuide.restore MoreSamples.profileOfText (AuthGuide.stored s')
       = Some {| AuthGuide.stored := AuthGuide.stored s';
                 AuthGuide.current := Some "ann";
                 AuthGuide.loading := false |}.
Proof.
  eapply (session_lifecycle string MoreSamples.profileText MoreSamples.profileOfText
            MoreSamples.loginAnswer MoreSamples.loggedOut (fun _ => true)).
  - reflexivity.
  - discriminate.
  - discriminate.
Defined.

(** ** Client portal *)

Section PortalFacts.
Import ClientPortal PortalBadges.

(** X27. After [fetchClientProposals] the loading flag is off.  When the
    request rejects, when the response is not ok, and when the response
    is ok but its body cannot be read, the list and the selection stay as
    they were and an error is shown: the message of what was thrown, or
    [Failed to load proposals] when that is not an error object, and
    [Failed to fetch proposals: ] followed by the status text for a
    response that is not ok.  When the response is ok and its body is
    read, the error is cleared and the list is the answer, a single
    proposal counting as a list of one; a non-empty answer selects its
    first proposal, so the selection is then in the list, while an empty
    answer keeps the earlier selection.  Against a backend that always
    answers with a readable body this is the fetch of the portal as
    embedded above. *)
Theorem fetchClientProposals_outcome
  (network : Request -> PortalFetch.Exchange) (props : ClientPortalProps)
  (token : option string) (st : State) :
  let answer := network (buildRequest props token) in
  let after := PortalFetch.fetchClientProposals network props token st in
  loading after = false
  /\ (forall thrown,
        answer = PortalFetch.Rejects thrown ->
        proposals after = proposals st
        /\ selectedProposal after = selectedProposal st
        /\ error after
           = Some (match thrown with
                   | ProposalEditor.ErrorWith message => message
                   | ProposalEditor.NotAnError => "Failed to load proposals"
                   end))
  /\ (forall statusText body,
        answer = PortalFetch.Responds false statusText body ->
        proposals after = proposals st
        /\ selectedProposal after = selectedProposal st
        /\ error after = Some ("Failed to fetch proposals: " +:+ statusText))
  /\ (forall statusText thrown,
        answer = PortalFetch.Responds true statusText (PortalFetch.Unreadable thrown) ->
        proposals after = proposals st
        /\ selectedProposal after = selectedProposal st
        /\ error after
           = Some (match thrown with
                   | ProposalEditor.ErrorWith message => message
                   | ProposalEditor.NotAnError => "Failed to load proposals"
                   end))
  /\ (forall statusText data,
        answer = PortalFetch.Responds true statusText (PortalFetch.Parsed data) ->
        error after = None
        /\ proposals after = match data with Arr l => l | Obj p => [p] end
        /\ (proposals after <> [] ->
              selectedProposal after = head (proposals after)
              /\ exists p, selectedProposal after = Some p /\ p ∈ proposals after)
        /\ (proposals after = [] -> selectedProposal after = selectedProposal st))
  /\ (forall backend : Request -> Response,
        PortalFetch.fetchClientProposals (PortalFetch.answering backend) props token st
        = ClientPortal.fetchClientProposals backend props token st).
Proof.
  intros answer after. subst answer after. unfold PortalFetch.fetchClientProposals.
  split_and!.
  - by destruct (network _) as [thrown|[] statusText [data|thrown]].
  - by intros thrown ->.
  - by intros statusText body ->.
  - by intros statusText thrown ->.
  - intros statusText data ->. cbn. split_and!; try done.
    + intros Hne. destruct data as [[|p l]|p]; try done.
      * split; [done|]. exists p. split; [done|left].
      * split; [done|]. exists p. split; [done|left].
    + intros Hnil. by destruct data as [[|p l]|p].
  - intros backend. unfold PortalFetch.answering, ClientPortal.fetchClientProposals.
    by destruct (ok (backend _)).
Qed.

(** X28. The colours of the status and phase badges do not depend on
    letter case, and every status other than approved, sent, accepted and
    in_review, and every phase other than the four project phases, is
    shown in gray. *)
Theorem badge_colours (s : string) :
  getStatusColor (Js.toLowerCase s) = getStatusColor s
  /\ getPhaseColor (Js.toLowerCase s) = getPhaseColor s
  /\ (Js.toLowerCase s ∉ ["approved"; "sent"; "accepted"; "in_review"] ->
        getStatusColor s = "bg-gray-100 text-gray-800")
  /\ (Js.toLowerCase s ∉ ["exploratory"; "discovery"; "development"; "deployment"] ->
        getPhaseColor s = "bg-gray-100 text-gray-800").
Proof.
  unfold getStatusColor, getPhaseColor. rewrite toLowerCase_idem.
  split_and!; try done.
  - intros Hnot.
    repeat match goal with
           | |- context [String.eqb (Js.toLowerCase s) ?lit] =>
               destruct (String.eqb_spec (Js.toLowerCase s) lit) as [Heq|_];
               [exfalso; apply Hnot; rewrite Heq; apply list_elem_of_In; simpl; tauto|]
           end.
    reflexivity.
  - intros Hnot.
    repeat match goal with
           | |- context [String.eqb (Js.toLowerCase s) ?lit] =>
               destruct (String.eqb_spec (Js.toLowerCase s) lit) as [Heq|_];
               [exfalso; apply Hnot; rewrite Heq; apply list_elem_of_In; simpl; tauto|]
           end.
    reflexivity.
Qed.

Example rejected_badge_is_gray :
  getStatusColor "REJECTED" = "bg-gray-100 text-gray-800"
  /\ getStatusColor "Approved" = "bg-green-100 text-green-800".
Proof. vm_compute. split; reflexivity. Qed.

End PortalFacts.

(** ** Instances of the properties above on the sample inputs *)

Section MoreWitnesses.
Import ProposalDatabase.

Lemma applyFilters_spec_witness :
  applyFilters initialFilters [MoreSamples.rowA; MoreSamples.rowB; MoreSamples.rowC]
  = [MoreSamples.rowA; MoreSamples.rowB; MoreSamples.rowC].
Proof.
  eapply (applyFilters_spec N initialFilters
            [MoreSamples.rowA; MoreSamples.rowB; MoreSamples.rowC]);
    reflexivity.
Defined.

Lemma selection_toggle_witness :
  ~ NoDup (handleProposalSelection "p1" true ["p1"; "p2"]).
Proof.
  eapply (selection_toggle "p1" ["p1"; "p2"]). left.
Defined.

Lemma toggleFavorite_flips_witness :
  NoDup (toggleFavorite "p2" ["p1"; "p2"; "p3"]).
Proof.
  eapply (toggleFavorite_flips "p2" ["p1"; "p2"; "p3"]).
  apply NoDup_ListNoDup. repeat constructor; simpl; intuition discriminate.
Defined.

Lemma selection_and_export_witness :
  selectedData ["p7"; "p8"] [MoreSamples.rowA; MoreSamples.rowB] = []
  /\ exportIds ["p7"; "p8"] [MoreSamples.rowA; MoreSamples.rowB] = ["p7"; "p8"].
Proof.
  destruct (selection_and_export N ["p7"; "p8"] [MoreSamples.rowA; MoreSamples.rowB])
    as (_ & _ & Hselected & _ & _ & _ & _ & _ & Hnone).
  split.
  - apply Hnone.
    repeat constructor; intros Hin; apply list_elem_of_In in Hin; simpl in Hin;
      intuition discriminate.
  - apply Hselected. discriminate.
Defined.

Lemma statusDistribution_counts_witness :
  statusDistribution [MoreSamples.rowA; MoreSamples.rowB; MoreSamples.rowC] !! "draft"
  = Some (Count 2)
  /\ statusDistribution [MoreSamples.rowA; MoreSamples.rowB; MoreSamples.rowC]
     !! "toString"
     = None.
Proof.
  destruct (statusDistribution_counts N
              [MoreSamples.rowA; MoreSamples.rowB; MoreSamples.rowC])
    as (Hplain & Hmethod & _).
  split.
  - rewrite Hplain; reflexivity.
  - rewrite Hmethod; [reflexivity|].
    apply list_elem_of_In. simpl. tauto.
Defined.

Lemma team_query_parameters_witness :
  Js.split "&"
    (Url.paramsToString
       (TeamDashboard.loadParams (TeamDashboard.mkFilters "draft" EmptyString "a&b")))
  = ["status_filter=draft"; "search=a%26b"].
Proof.
  destruct (team_query_parameters (TeamDashboard.mkFilters "draft" EmptyString "a&b") None)
    as (_ & Hsplit & _).
  rewrite Hsplit; [reflexivity|discriminate].
Defined.

Lemma token_storage_round_trip_witness :
  AuthGuide.clearAuthTokens {[ "theme" := "dark"; "access_token" := "jwt" ]} !! "theme"
  = ({[ "theme" := "dark"; "access_token" := "jwt" ]} : gmap string string) !! "theme".
Proof.
  destruct (token_storage_round_trip string MoreSamples.profileText
              MoreSamples.loginAnswer {[ "theme" := "dark"; "access_token" := "jwt" ]})
    as (_ & _ & _ & _ & _ & _ & Hother & _).
  apply Hother; discriminate.
Defined.

Lemma fetchClientProposals_outcome_witness :
  ClientPortal.error
    (PortalFetch.fetchClientProposals
       (fun _ => PortalFetch.Responds true "OK"
                   (PortalFetch.Unreadable (ProposalEditor.ErrorWith "Unexpected token")))
       (ClientPortal.mkProps None None false) None ClientPortal.initialState)
  = Some "Unexpected token".
Proof.
  destruct (fetchClientProposals_outcome
              (fun _ => PortalFetch.Responds true "OK"
                          (PortalFetch.Unreadable
                             (ProposalEditor.ErrorWith "Unexpected token")))
              (ClientPortal.mkProps None None false) None ClientPortal.initialState)
    as (_ & _ & _ & Hunreadable & _).
  destruct (Hunreadable "OK" (ProposalEditor.ErrorWith "Unexpected token"))
    as (_ & _ & ->); reflexivity.
Defined.

Lemma badge_colours_witness :
  PortalBadges.getStatusColor "Draft" = "bg-gray-100 text-gray-800".
Proof.
  destruct (badge_colours "Draft") as (_ & _ & Hgray & _).
  apply Hgray. intros Hin. apply list_elem_of_In in Hin. simpl in Hin.
  intuition discriminate.
Defined.

End MoreWitnesses.
